(** * Chakra: the recursive learning loop, its event stream and its stores

    A shallow embedding of the Python backend of the Chakra agent system:

    - [backend/evaluation/evaluator.py]   (modules [Evaluator], [Binary64],
                                           [Rubric])
    - [backend/agents/base_agent.py]      (modules [BaseAgent], [OllamaStream],
                                           [Inference])
    - [backend/orchestrator.py]           (module [Aggregate]: [Orchestrator.process])
    - [backend/api.py]                    (modules [Live]: [generate_process_events],
                                           [Consumer], [Api]: [process_task])
    - [backend/agents/smriti.py]          (modules [Smriti], [Recall])
    - [backend/utils/background_tasks.py] (module [BackgroundTasks])
    - [backend/analytics/tracker.py]      (modules [Analytics], [Housekeeping])

    Conventions.  Python [str] is [string] (8-bit characters, ASCII text);
    a streamed response body is a list of chunks of bytes, each decoded on
    its own.  Python [float] scores are exact rationals [Q]: every score of
    the program is built from decimal literals with [+], [-], [*], [/],
    [min] and compared with [<] and [>].  A double differs from the
    rational it stands for by rounding, so the theorems on scores state
    bounds, thresholds and monotonicity; the values of [evaluate_code] are
    stated on the IEEE doubles of [Binary64], which repeats its arithmetic,
    with the rational as their approximation.  An exception raised by a
    call is the [Raise] case of [outcome].  The language-model server, the retriever
    and the memory lookup are external: their answers are given per round
    by a [Backend]; [OllamaStream] reads the bytes of a streamed answer
    and gives back these replies.  A query of the memory store returns any
    list the SQL statement allows; the Redis server of the tracker is known
    by its commands.  An asynchronous generator is a function from its local
    variables to the events it yields, the locals at its end and its
    outcome.  The event loop of asyncio is the list of the tasks created
    and not yet run. *)

From Stdlib Require Import QArith Qminmax Qabs Lqa ZArith Lia.
From Stdlib Require Import String Ascii List ListSet Bool Arith Floats.
From Stdlib Require Import Permutation Sorted.
Import ListNotations.

Local Open Scope string_scope.
Local Open Scope list_scope.
Local Open Scope nat_scope.

(** ** Python primitives *)

Module Py.

(** [a < b] and [a > b] on floats. *)
Definition ltb (a b : Q) : bool :=
  match Qcompare a b with Lt => true | _ => false end.
Definition gtb (a b : Q) : bool := ltb b a.

(** [min(a, b)]: the first argument unless the second is strictly smaller. *)
Definition min (a b : Q) : Q := if ltb b a then b else a.

(** [float(n)] for a non-negative [int]. *)
Definition of_nat (n : nat) : Q := inject_Z (Z.of_nat n).

Definition nl : ascii := "010"%char.

(** [c.isspace()] on an ASCII character. *)
Definition isspace (c : ascii) : bool :=
  let n := nat_of_ascii c in
  ((9 <=? n) && (n <=? 13)) || ((28 <=? n) && (n <=? 32)).

(** [\w] on an ASCII character. *)
Definition isword (c : ascii) : bool :=
  let n := nat_of_ascii c in
  ((48 <=? n) && (n <=? 57)) || ((65 <=? n) && (n <=? 90))
  || ((97 <=? n) && (n <=? 122)) || (n =? 95).

Definition lower_char (c : ascii) : ascii :=
  let n := nat_of_ascii c in
  if (65 <=? n) && (n <=? 90) then ascii_of_nat (n + 32) else c.

(** [s.lower()] *)
Fixpoint lower (s : string) : string :=
  match s with
  | EmptyString => EmptyString
  | String c s' => String (lower_char c) (lower s')
  end.

(** [s.lstrip()] *)
Fixpoint lstrip (s : string) : string :=
  match s with
  | EmptyString => EmptyString
  | String c s' => if isspace c then lstrip s' else s
  end.

(** A string with no whitespace at its start. *)
Definition lstripped (s : string) : Prop :=
  match s with
  | EmptyString => True
  | String c _ => isspace c = false
  end.

(** [s.rstrip()]: a character is kept when something is kept after it. *)
Fixpoint rstrip (s : string) : string :=
  match s with
  | EmptyString => EmptyString
  | String c s' =>
      match rstrip s' with
      | EmptyString => if isspace c then EmptyString else String c EmptyString
      | r => String c r
      end
  end.

(** [s.strip()] *)
Definition strip (s : string) : string := rstrip (lstrip s).

(** [s.split()]: maximal runs of non-whitespace characters.  [cur] is the
    word being read, reversed. *)
Fixpoint split_from (cur : list ascii) (s : string) : list string :=
  let flush := match cur with
               | [] => []
               | _ => [string_of_list_ascii (rev cur)]
               end in
  match s with
  | EmptyString => flush
  | String c s' =>
      if isspace c then flush ++ split_from [] s'
      else split_from (c :: cur) s'
  end.

Definition split (s : string) : list string := split_from [] s.

(** [len(s.split(sep))] for a one-character separator. *)
Fixpoint count_char (sep : ascii) (s : string) : nat :=
  match s with
  | EmptyString => 0
  | String c s' => (if Ascii.eqb c sep then 1 else 0) + count_char sep s'
  end.

Definition len_split_on (sep : ascii) (s : string) : nat := S (count_char sep s).

(** [needle in hay] *)
Fixpoint contains (needle hay : string) : bool :=
  String.prefix needle hay ||
  match hay with
  | EmptyString => false
  | String _ hay' => contains needle hay'
  end.

(** [set(l)] as a duplicate-free list. *)
Definition set_of (l : list string) : set string :=
  fold_left (fun acc w => set_add string_dec w acc) l (empty_set string).

(** [bool(s)] of a string. *)
Definition truthy (s : string) : bool :=
  match s with EmptyString => false | _ => true end.

End Py.

(** ** Regular expressions ([re.search]) *)

Module Re.

(** The fragment of [re] the patterns of the evaluator use.  [re.search]
    only asks whether some match exists, so lazy and greedy repetition
    coincide and a pattern is its language. *)
Inductive regex : Type :=
| Empty
| Eps
| Chr (p : ascii -> bool)
| Cat (r1 r2 : regex)
| Alt (r1 r2 : regex)
| Star (r : regex).

Fixpoint nullable (r : regex) : bool :=
  match r with
  | Empty => false
  | Eps => true
  | Chr _ => false
  | Cat r1 r2 => nullable r1 && nullable r2
  | Alt r1 r2 => nullable r1 || nullable r2
  | Star _ => true
  end.

Fixpoint deriv (c : ascii) (r : regex) : regex :=
  match r with
  | Empty => Empty
  | Eps => Empty
  | Chr p => if p c then Eps else Empty
  | Cat r1 r2 =>
      if nullable r1 then Alt (Cat (deriv c r1) r2) (deriv c r2)
      else Cat (deriv c r1) r2
  | Alt r1 r2 => Alt (deriv c r1) (deriv c r2)
  | Star r1 => Cat (deriv c r1) (Star r1)
  end.

(** Does some prefix of [s] match [r]? *)
Fixpoint match_prefix (r : regex) (s : string) : bool :=
  nullable r ||
  match s with
  | EmptyString => false
  | String c s' => match_prefix (deriv c r) s'
  end.

(** [re.search(r, s)] for a pattern without anchors. *)
Fixpoint search (r : regex) (s : string) : bool :=
  match_prefix r s ||
  match s with
  | EmptyString => false
  | String _ s' => search r s'
  end.

(** [re.search("^" r, s, re.MULTILINE)]: a match starting at the beginning
    of the string or just after a newline. *)
Fixpoint search_after_newline (r : regex) (s : string) : bool :=
  match s with
  | EmptyString => false
  | String c s' =>
      (Ascii.eqb c Py.nl && match_prefix r s') || search_after_newline r s'
  end.

Definition search_bol (r : regex) (s : string) : bool :=
  match_prefix r s || search_after_newline r s.

Definition chr (c : ascii) : regex := Chr (Ascii.eqb c).

Fixpoint lit (s : string) : regex :=
  match s with
  | EmptyString => Eps
  | String c s' => Cat (chr c) (lit s')
  end.

Definition plus (r : regex) : regex := Cat r (Star r).

(** [.] with [re.DOTALL], and without. *)
Definition any : regex := Chr (fun _ => true).
Definition dot : regex := Chr (fun c => negb (Ascii.eqb c Py.nl)).
Definition space : regex := Chr Py.isspace.
Definition word : regex := Chr Py.isword.

Definition alts (rs : list regex) : regex := fold_right Alt Empty rs.
Definition cats (rs : list regex) : regex := fold_right Cat Eps rs.

End Re.

(** ** evaluation/evaluator.py *)

Module Evaluator.

Import Re.
Local Open Scope Q_scope.

(** The dictionaries [evaluate_code] and [evaluate_rag_answer] return. *)
Inductive scores : Type :=
| CodeScores (correctness quality completeness total : Q)
| RagScores (grounding clarity completeness total : Q).

(** [scores["total"]] *)
Definition total (s : scores) : Q :=
  match s with
  | CodeScores _ _ _ t => t
  | RagScores _ _ _ t => t
  end.

Definition dquote : ascii := ascii_of_nat 34.
Definition squote : ascii := ascii_of_nat 39.
Definition triple (c : ascii) : regex := cats [chr c; chr c; chr c].

(** [self.code_patterns], in insertion order; every pattern is searched
    with [re.DOTALL]. *)
Definition code_patterns : list (string * regex) :=
  [ ("has_comments",
      alts [ Cat (lit "#") (Star any);
             Cat (lit "//") (Star any);
             cats [lit "/*"; Star any; lit "*/"] ]);
    ("has_docstrings",
      alts [ cats [triple dquote; Star any; triple dquote];
             cats [triple squote; Star any; triple squote] ]);
    ("has_error_handling",
      alts [ lit "try:"; lit "except:";
             cats [lit "catch"; Star space; lit "("] ]);
    ("has_type_hints",
      cats [ lit "def"; plus space; plus word; Star space; lit "(";
             Star (Chr (fun c => negb (Ascii.eqb c ")"%char)));
             lit ":"; Star space; plus word ]) ].

(** [r"^import\s+|^from\s+"], searched with [re.MULTILINE]. *)
Definition import_pattern : regex :=
  alts [ Cat (lit "import") (plus space); Cat (lit "from") (plus space) ].

Definition evaluate_code
    (code task : string) (rag_chunks : option (list string)) : scores :=
  let correctness := 0.5 in
  let quality := 0.5 in
  let completeness := 0.5 in
  (* Check for code structure *)
  let completeness :=
    if Py.contains "def " code || Py.contains "function " code
       || Py.contains "class " code
    then completeness + 0.2 else completeness in
  (* Check for best practices *)
  let quality :=
    fold_left
      (fun q (entry : string * regex) =>
         if search (snd entry) code then q + 0.1 else q)
      code_patterns quality in
  (* Check for imports *)
  let quality :=
    if search_bol import_pattern code then quality + 0.1 else quality in
  (* Normalize scores *)
  let correctness := Py.min 1.0 correctness in
  let quality := Py.min 1.0 quality in
  let completeness := Py.min 1.0 completeness in
  CodeScores correctness quality completeness
    (correctness * 0.4 + quality * 0.3 + completeness * 0.3).

(** [r"\[.*?\]|\(.*?\)|source|document|according"] (no flags). *)
Definition citation_pattern : regex :=
  alts [ cats [lit "["; Star dot; lit "]"];
         cats [lit "("; Star dot; lit ")"];
         lit "source"; lit "document"; lit "according" ].

(** [r"\*\*.*?\*\*|#+\s+"] (no flags). *)
Definition markdown_pattern : regex :=
  alts [ cats [lit "**"; Star dot; lit "**"];
         Cat (plus (lit "#")) (plus space) ].

Definition evaluate_rag_answer
    (answer : string) (rag_chunks : option (list string)) : scores :=
  match rag_chunks with
  | None | Some [] => RagScores 0.5 0.5 0.5 0.5
  | Some chunks =>
      let grounding := 0.5 in
      let clarity := 0.5 in
      let completeness := 0.5 in
      (* Check grounding - simple keyword matching *)
      let answer_lower := Py.lower answer in
      let chunk_text := Py.lower (String.concat " " chunks) in
      let answer_words := Py.set_of (Py.split answer_lower) in
      let chunk_words := Py.set_of (Py.split chunk_text) in
      (* Calculate overlap *)
      let overlap := length (set_inter string_dec answer_words chunk_words) in
      let total_unique :=
        length (set_union string_dec answer_words chunk_words) in
      let grounding :=
        if (0 <? total_unique)%nat
        then Py.min 1.0 (Py.of_nat overlap / Py.of_nat total_unique * 2)
        else grounding in
      (* Check for citations or references *)
      let grounding :=
        if search citation_pattern answer_lower
        then grounding + 0.2 else grounding in
      (* Clarity - check for structure *)
      let clarity :=
        if (3 <? Py.len_split_on Py.nl answer)%nat
        then clarity + 0.2 else clarity in
      let clarity :=
        if search markdown_pattern answer then clarity + 0.1 else clarity in
      (* Normalize *)
      let grounding := Py.min 1.0 grounding in
      let clarity := Py.min 1.0 clarity in
      let completeness := Py.min 1.0 completeness in
      RagScores grounding clarity completeness
        (grounding * 0.5 + clarity * 0.3 + completeness * 0.2)
  end.

(** Main evaluation method. *)
Definition evaluate
    (solution task : string) (is_code : bool)
    (rag_chunks : option (list string)) : scores :=
  if is_code then evaluate_code solution task rag_chunks
  else evaluate_rag_answer solution rag_chunks.

End Evaluator.

(** ** The arithmetic of [evaluate_code] in binary64 *)

(** The same additions, [min]s and weighted sum on IEEE doubles, as Python
    computes them, from the outcomes of the tests: the structure test, the
    four [code_patterns] in order, and the import test. *)
Module Binary64.

Set Warnings "-inexact-float".
Local Open Scope float_scope.

Definition min (a b : float) : float := if PrimFloat.ltb b a then b else a.

Definition evaluate_code_total
    (structure : bool) (patterns : list bool) (imports : bool) : float :=
  let correctness := 0.5 in
  let quality := 0.5 in
  let completeness := 0.5 in
  let completeness := if structure then completeness + 0.2 else completeness in
  let quality :=
    fold_left (fun q (found : bool) => if found then q + 0.1 else q)
      patterns quality in
  let quality := if imports then quality + 0.1 else quality in
  let correctness := min 1.0 correctness in
  let quality := min 1.0 quality in
  let completeness := min 1.0 completeness in
  correctness * 0.4 + quality * 0.3 + completeness * 0.3.

(** [scores["quality"]] on doubles before "Normalize scores". *)
Definition evaluate_code_quality
    (patterns : list bool) (imports : bool) : float :=
  let quality := 0.5 in
  let quality :=
    fold_left (fun q (found : bool) => if found then q + 0.1 else q)
      patterns quality in
  if imports then quality + 0.1 else quality.

(** The rational number a finite double is. *)
Definition exact (x : float) : Q :=
  match Prim2SF x with
  | S754_finite s m e =>
      ((if s then -1 else 1) * inject_Z (Zpos m) * Qpower 2 e)%Q
  | _ => 0%Q
  end.

(** 2^-52, the distance from 1.0 to the next double. *)
Definition epsilon : Q := (1 # 4503599627370496)%Q.

End Binary64.

(** ** evaluation/evaluator.py: the tests of [evaluate_code] *)

Module Rubric.

Import Evaluator.

(** "Check for code structure" *)
Definition has_structure (code : string) : bool :=
  Py.contains "def " code || Py.contains "function " code
  || Py.contains "class " code.

(** "Check for best practices": the outcome of each of [code_patterns]. *)
Definition pattern_hits (code : string) : list bool :=
  map (fun entry : string * Re.regex => Re.search (snd entry) code)
    code_patterns.

(** "Check for imports" *)
Definition has_imports (code : string) : bool :=
  Re.search_bol import_pattern code.

(** The number of tests that add 0.1 to [quality]. *)
Definition marks (code : string) : nat :=
  length (filter (fun hit : bool => hit) (pattern_hits code ++ [has_imports code])).

End Rubric.

(** ** Exceptions *)

(** The result of a call that may raise: [Raise msg] is an exception whose
    [str(e)] is [msg]. *)
Inductive outcome (A : Type) : Type :=
| Ok (a : A)
| Raise (msg : string).
Arguments Ok {A} a.
Arguments Raise {A} msg.

(** [l[-k]] for [k >= 1]; out of range is Python's [IndexError]. *)
Definition index_from_end {A : Type} (l : list A) (k : nat) : outcome A :=
  match nth_error (rev l) (k - 1) with
  | Some x => Ok x
  | None => Raise "list index out of range"
  end.

(** ** agents/base_agent.py: the calls to the Ollama server *)

Module BaseAgent.

(** What the server does with one request: the message content, cut in the
    pieces a streaming request delivers, and the transport failure, if any,
    that ends the request. *)
Record reply : Type := {
  chunks : list string;
  failure : option string
}.

Definition api_error (e : string) : string := "Error calling Ollama API: " ++ e.

(** [_call_ollama]: the whole content, stripped; any failure is re-raised. *)
Definition _call_ollama (r : reply) : outcome string :=
  match failure r with
  | Some e => Raise (api_error e)
  | None => Ok (Py.strip (String.concat "" (chunks r)))
  end.

(** [_call_ollama_stream]: the non-empty pieces, in order, and then the
    exception the generator raises, if any. *)
Definition _call_ollama_stream (r : reply) : list string * option string :=
  (filter Py.truthy (chunks r), option_map api_error (failure r)).

End BaseAgent.

(** ** agents/base_agent.py: reading the streamed response *)

Module OllamaStream.

Set Warnings "-register-all".

(** What [json.loads] returns. *)
Inductive json : Type :=
| JNull
| JBool (b : bool)
| JNumber (n : Q)
| JString (s : string)
| JArray (items : list json)
| JObject (members : list (string * json)).

(** [bool(x)] *)
Definition truthy (x : json) : bool :=
  match x with
  | JNull => false
  | JBool b => b
  | JNumber n => negb (Qeq_bool n 0)
  | JString s => Py.truthy s
  | JArray items => match items with [] => false | _ => true end
  | JObject members => match members with [] => false | _ => true end
  end.

(** [isinstance(x, dict)] *)
Definition is_dict (x : json) : bool :=
  match x with JObject _ => true | _ => false end.

Fixpoint lookup (members : list (string * json)) (key : string)
    : option json :=
  match members with
  | [] => None
  | (k, v) :: rest => if String.eqb k key then Some v else lookup rest key
  end.

(** The exceptions the operations below raise on a value of the wrong
    type. *)
Inductive error_kind : Type :=
| NotIterable     (* [key in 5] *)
| NoAttribute     (* [[1].get(key)] *)
| BadIndex        (* [[1][key]] *)
| MissingKey.     (* [{}[key]] *)

Section Reader.

(** [json.loads]: [None] is [json.JSONDecodeError].  [message k x] is the
    [str(e)] of the exception of kind [k] raised on [x]. *)
Variable loads : string -> option json.
Variable message : error_kind -> json -> string.

(** [chunk.decode('utf-8', errors='ignore')]: the text of one chunk of
    bytes, decoded on its own; a character whose bytes the transport
    splits between two chunks is lost. *)
Variable decode : string -> string.

(** [key in x] *)
Definition py_in (key : string) (x : json) : outcome bool :=
  match x with
  | JObject members =>
      Ok (match lookup members key with Some _ => true | None => false end)
  | JArray items =>
      Ok (existsb (fun i => match i with
                            | JString s => String.eqb s key
                            | _ => false
                            end) items)
  | JString s => Ok (Py.contains key s)
  | _ => Raise (message NotIterable x)
  end.

(** [x.get(key, default)] *)
Definition py_get (x : json) (key : string) (default : json) : outcome json :=
  match x with
  | JObject members =>
      Ok (match lookup members key with Some v => v | None => default end)
  | _ => Raise (message NoAttribute x)
  end.

(** [x[key]] *)
Definition py_getitem (x : json) (key : string) : outcome json :=
  match x with
  | JObject members =>
      match lookup members key with
      | Some v => Ok v
      | None => Raise (message MissingKey x)
      end
  | _ => Raise (message BadIndex x)
  end.

(** "Yield any remaining content in buffer": whatever goes wrong inside is
    swallowed by the bare [except]. *)
Definition final_content (buffer : string) : list json :=
  let text := Py.strip buffer in
  if Py.truthy text
  then match loads text with
       | None => []
       | Some final_data =>
           match py_in "message" final_data with
           | Ok true =>
               match py_getitem final_data "message" with
               | Ok m =>
                   match py_in "content" m with
                   | Ok true =>
                       match py_getitem m "content" with
                       | Ok final_content => 
                           if truthy final_content then [final_content] else []
                       | Raise _ => []
                       end
                   | _ => []
                   end
               | Raise _ => []
               end
           | _ => []
           end
       end
  else [].

(** What one pass of the [while] loop does after [split]: go on with the
    next line, [return], or let an exception escape; each with the tokens
    yielded on the way. *)
Inductive step : Type :=
| Continue (yielded : list json)
| Return (yielded : list json)
| Escape (yielded : list json) (e : string).

(** "Check for message content - yield immediately"; no caller passes a
    [token_callback]. *)
Definition message_content (data : json) : outcome (list json) :=
  match py_in "message" data with
  | Raise e => Raise e
  | Ok false => Ok []
  | Ok true =>
      match py_getitem data "message" with
      | Raise e => Raise e
      | Ok m =>
          if is_dict m
          then match py_get m "content" (JString "") with
               | Raise e => Raise e
               | Ok content => Ok (if truthy content then [content] else [])
               end
          else Ok []
      end
  end.

(** The body of the [while] loop for [line], with [buffer] what [split]
    left after it. *)
Definition handle_line (line buffer : string) : step :=
  let line := Py.strip line in
  if negb (Py.truthy line) then Continue []
  else
    (* Handle both formats: "data: {...}" (SSE) and direct JSON (NDJSON) *)
    let json_str :=
      if String.prefix "data: " line
      then Py.strip (String.substring 6 (String.length line - 6) line)
      else line in
    if Py.truthy json_str
    then match loads json_str with
         | None => Continue []   (* Skip invalid JSON lines *)
         | Some data =>
             (* Check for errors from Ollama *)
             match py_in "error" data with
             | Raise e => Escape [] e
             | Ok true =>
                 match py_get data "error" (JString "Unknown error") with
                 | Raise e => Escape [] e
                 | Ok _ => Return []   (* just log and stop *)
                 end
             | Ok false =>
                 match message_content data with
                 | Raise e => Escape [] e
                 | Ok yielded =>
                     (* Check if done *)
                     match py_get data "done" (JBool false) with
                     | Raise e => Escape yielded e
                     | Ok done =>
                         if truthy done
                         then Return (yielded ++ final_content buffer)
                         else Continue yielded
                     end
                 end
             end
         end
    else Continue [].

(** How the reading of a buffer ends: no newline is left and the rest
    stays in the buffer; the generator returned; an exception escaped. *)
Inductive status : Type :=
| Buffered (buffer : string)
| Returned
| Escaped (e : string).

(** [while '\n' in buffer: line, buffer = buffer.split('\n', 1); ...],
    reading [buffer] from the left; [cur] holds the characters of the
    current line, last one first. *)
Fixpoint process_lines (cur : list ascii) (buffer : string)
    : list json * status :=
  match buffer with
  | EmptyString => ([], Buffered (string_of_list_ascii (rev cur)))
  | String c rest =>
      if Ascii.eqb c Py.nl
      then match handle_line (string_of_list_ascii (rev cur)) rest with
           | Continue yielded =>
               let (more, st) := process_lines [] rest in
               (yielded ++ more, st)
           | Return yielded => (yielded, Returned)
           | Escape yielded e => (yielded, Escaped e)
           end
      else process_lines (c :: cur) rest
  end.

(** No newline among the characters kept for the current line. *)
Definition no_newline (cur : list ascii) : Prop :=
  forall c, In c cur -> Ascii.eqb c Py.nl = false.

(** What is left in the buffer after the line on which the reading of
    [buffer] returns, if it returns. *)
Fixpoint after_return (cur : list ascii) (buffer : string) : option string :=
  match buffer with
  | EmptyString => None
  | String c rest =>
      if Ascii.eqb c Py.nl
      then match handle_line (string_of_list_ascii (rev cur)) rest with
           | Continue _ => after_return [] rest
           | Return _ => Some rest
           | Escape _ _ => None
           end
      else after_return (c :: cur) rest
  end.

(** The response body: the chunks of bytes [aiter_bytes] delivers, a byte
    being an 8-bit character, and the exception that ends the transfer,
    if any. *)
Record body : Type := {
  chunks : list string;
  broken : option string
}.

(** [async for chunk in response.aiter_bytes()], from [buffer]. *)
Fixpoint read_chunks (cs : list string) (broken' : option string)
    (buffer : string) : list json * option string :=
  match cs with
  | [] =>
      match broken' with
      | Some e => ([], Some e)
      | None =>
          (* Process any remaining buffer after stream ends *)
          (final_content buffer, None)
      end
  | chunk :: rest =>
      if negb (Py.truthy chunk) then read_chunks rest broken' buffer
      else
        match process_lines [] (buffer ++ decode chunk) with
        | (yielded, Buffered buffer') =>
            let (more, r) := read_chunks rest broken' buffer' in
            (yielded ++ more, r)
        | (yielded, Returned) => (yielded, None)
        | (yielded, Escaped e) => (yielded, Some e)
        end
  end.

(** What the generator makes of the outcome of the reading when the body
    ends there. *)
Definition finish (r : list json * status) (broken' : option string)
    : list json * option string :=
  match r with
  | (ys, Buffered b) =>
      match broken' with
      | Some e => (ys, Some e)
      | None => (ys ++ final_content b, None)
      end
  | (ys, Returned) => (ys, None)
  | (ys, Escaped e) => (ys, Some e)
  end.

(** [_call_ollama_stream]: the tokens yielded, in order, and then the
    exception the generator raises, if any. *)
Definition _call_ollama_stream (response : body)
    : list json * option string :=
  let (yielded, e) := read_chunks (chunks response) (broken response) "" in
  (yielded, option_map BaseAgent.api_error e).

(** A line of the chat protocol: one JSON object, without an ["error"]
    member, with the piece [content] of the answer in its ["message"] and
    the flag [done]. *)
Definition chat_line (line content : string) (done : bool) : Prop :=
  no_newline (list_ascii_of_string line) /\
  Py.strip line = line /\
  line <> "" /\
  String.prefix "data: " line = false /\
  exists members m,
    loads line = Some (JObject members) /\
    lookup members "error" = None /\
    lookup members "message" = Some (JObject m) /\
    lookup m "content" = Some (JString content) /\
    lookup members "done" = Some (JBool done).

End Reader.

(** Bytes below 128 only: ASCII text, which UTF-8 decodes byte by byte. *)
Fixpoint is_ascii (s : string) : bool :=
  match s with
  | EmptyString => true
  | String c s' => (nat_of_ascii c <? 128)%nat && is_ascii s'
  end.

(** A body of complete lines. *)
Fixpoint ndjson (lines : list string) : string :=
  match lines with
  | [] => ""
  | line :: rest => line ++ String Py.nl (ndjson rest)
  end.

End OllamaStream.

(** ** The external collaborators of one session *)

(** One entry of [Smriti.retrieve_similar]. *)
Record example : Type := {
  ex_task : string;
  ex_solution : string;
  ex_quality_score : Q;
  ex_similarity : Q
}.

(** The answers of the outside world during one session.  Round [n]
    (0-based, the loop variable [iteration]) gets the [n]-th reply of each
    agent; the prompt an agent sends is part of the request the reply
    answers. *)
Record Backend : Type := {
  yantra_reply : nat -> BaseAgent.reply;
  sutra_reply : nat -> BaseAgent.reply;
  agni_reply : nat -> BaseAgent.reply;
  rag_retrieve : outcome (list string);
  smriti_retrieve_similar : outcome (list example);
  smriti_store_error : option string
}.

(** [Yantra.process(...)["output"]], [Sutra.process(...)["critique"]] and
    [Agni.process(...)["improved_output"]]: each builds its prompt and
    returns the answer of [_call_ollama]. *)
Definition yantra_process (b : Backend) (iteration : nat) : outcome string :=
  BaseAgent._call_ollama (yantra_reply b iteration).
Definition sutra_process (b : Backend) (iteration : nat) : outcome string :=
  BaseAgent._call_ollama (sutra_reply b iteration).
Definition agni_process (b : Backend) (iteration : nat) : outcome string :=
  BaseAgent._call_ollama (agni_reply b iteration).

(** ** orchestrator.py: the configuration and the data of a session *)

Definition evaluator_t : Type :=
  string -> string -> bool -> option (list string) -> Evaluator.scores.

(** The attributes of an [Orchestrator] the loop reads. *)
Record Orchestrator : Type := {
  evaluator : evaluator_t;
  max_iterations : nat;
  min_improvement : Q;
  fast_mode : bool
}.

(** [Orchestrator(max_iterations=3, min_improvement=0.05, fast_mode=True)] *)
Definition default_orchestrator : Orchestrator :=
  {| evaluator := Evaluator.evaluate;
     max_iterations := 3;
     min_improvement := 0.05%Q;
     fast_mode := true |}.

(** [TaskRequest] *)
Record TaskRequest : Type := {
  task : string;
  context : option string;
  use_rag : bool;
  is_code : bool
}.

(** The dictionary [iteration_data] at the moment it is appended.  The last
    four keys are set by the streaming endpoint only. *)
Record iteration_data : Type := {
  iteration : nat;
  yantra_output : string;
  sutra_critique : string;
  agni_output : string;
  score : Q;
  improvement : Q;
  score_details : Evaluator.scores;
  yantra_score : option Q;
  yantra_score_details : option Evaluator.scores;
  agni_score : option Q;
  iteration_improvement : option Q
}.

(** The [metadata] argument of the call to [Smriti.store]. *)
Record store_metadata : Type := {
  md_is_code : bool;
  md_used_rag : bool;
  md_iterations : nat
}.

(** One call [smriti.store(task=, solution=, quality_score=, metadata=)]. *)
Record store_call : Type := {
  st_task : string;
  st_solution : option string;
  st_quality_score : Q;
  st_metadata : store_metadata
}.

(** The persistence gate at the end of both loops:
    [if best_score > 0.6: smriti.store(...)]. *)
Definition store_request
    (task : string) (is_code use_rag : bool)
    (best_solution : option string) (best_score : Q)
    (iterations : list iteration_data) : list store_call :=
  if Py.gtb best_score 0.6%Q
  then [ {| st_task := task;
            st_solution := best_solution;
            st_quality_score := best_score;
            st_metadata := {| md_is_code := is_code;
                              md_used_rag := use_rag;
                              md_iterations := length iterations |} |} ]
  else [].

(** "Update best solution": [if score > best_score: ...]. *)
Definition update_best
    (best : Q * option string) (score : Q) (current_solution : string)
    : Q * option string :=
  if Py.gtb score (fst best) then (score, Some current_solution) else best.

(** The best score and solution after a history of rounds: the update
    rule applied to every round in order, from [best_score = 0.0] and
    [best_solution = None]. *)
Definition best_from (best : Q * option string) (h : list iteration_data)
    : Q * option string :=
  fold_left (fun acc d => update_best acc (score d) (agni_output d)) h best.

Definition best_after (h : list iteration_data) : Q * option string :=
  best_from (0.0%Q, None) h.

(** [best] is the maximum of the scores of the history [h], taken from
    the first round that reaches it. *)
Definition running_maximum (h : list iteration_data)
    (best : Q * option string) : Prop :=
  (forall d, In d h -> (score d <= fst best)%Q) /\
  exists k d,
    nth_error h k = Some d /\
    best = (score d, Some (agni_output d)) /\
    forall j d', (j < k)%nat -> nth_error h j = Some d' ->
                 (score d' < score d)%Q.

(** The chunks both loops work with when the retrieval succeeds:
    [rag_chunks = None], replaced by the retrieved chunks [if use_rag]. *)
Definition retrieved_chunks (b : Backend) (rq : TaskRequest)
    : option (list string) :=
  if use_rag rq
  then match rag_retrieve b with
       | Ok chunks => Some chunks
       | Raise _ => None
       end
  else None.

(** ** Orchestrator.process (aggregate mode) *)

Module Aggregate.

Local Open Scope Q_scope.

(** The dictionary [process] returns. *)
Record SessionResult : Type := {
  r_task : string;
  final_solution : option string;
  final_score : Q;
  r_iterations : list iteration_data;
  total_iterations : nat;
  used_rag : bool;
  rag_chunks : option (list string)
}.

(** The local variables that live across rounds. *)
Record locals : Type := {
  iterations : list iteration_data;
  best_score : Q;
  best_solution : option string
}.

Definition bind {A B : Type} (m : outcome A) (k : A -> outcome B) : outcome B :=
  match m with
  | Ok a => k a
  | Raise e => Raise e
  end.

Local Notation "x <- m ;; k" := (bind m (fun x => k))
  (at level 61, m at next level, right associativity).

Section Process.

Variable o : Orchestrator.
Variable b : Backend.
Variable rq : TaskRequest.
Variable rag : option (list string).

(** The body of [for iteration in range(self.max_iterations)]; the boolean
    is [true] when the body ends in [break]. *)
Definition round (iteration : nat) (st : locals) : outcome (locals * bool) :=
  (* Step 1: Yantra generates solution *)
  yantra_out <- yantra_process b iteration ;;
  let current_solution := yantra_out in
  (* Step 2: Sutra critiques *)
  critique <- sutra_process b iteration ;;
  (* Step 3: Agni improves *)
  improved_output <- agni_process b iteration ;;
  let current_solution := improved_output in
  (* Step 4: Evaluate *)
  let score_result := evaluator o current_solution (task rq) (is_code rq) rag in
  let score' := Evaluator.total score_result in
  (* Calculate improvement *)
  improvement <-
    (if (0 <? iteration)%nat
     then prev <- index_from_end (iterations st) 1 ;; Ok (score' - score prev)
     else Ok 0.0) ;;
  let data :=
    {| iteration := iteration + 1;
       yantra_output := yantra_out;
       sutra_critique := critique;
       agni_output := improved_output;
       score := score';
       improvement := improvement;
       score_details := score_result;
       yantra_score := None;
       yantra_score_details := None;
       agni_score := None;
       iteration_improvement := None |} in
  let iterations := iterations st ++ [data] in
  (* Update best solution *)
  let best := update_best (best_score st, best_solution st) score' current_solution in
  let st' := {| iterations := iterations;
                best_score := fst best;
                best_solution := snd best |} in
  (* Check if we should continue *)
  if (0 <? iteration)%nat
  then prev <- index_from_end iterations 2 ;;
       let improvement := score' - score prev in
       if Py.ltb improvement (min_improvement o)
       then Ok (st', true)   (* Score plateaued, stop *)
       else Ok (st', false)
  else Ok (st', false).

Fixpoint loop (range : list nat) (st : locals) : outcome locals :=
  match range with
  | [] => Ok st
  | iteration :: rest =>
      r <- round iteration st ;;
      if snd r then Ok (fst r) else loop rest (fst r)
  end.

End Process.

(** *** What a completed round leaves behind *)

Section Rounds.

Variable o : Orchestrator.
Variable b : Backend.
Variable rq : TaskRequest.
Variable rag : option (list string).

(** The [iteration_data] of round [iteration], given the three answers and
    the rounds appended [before] it. *)
Definition round_data (iteration : nat) (yantra_out critique improved : string)
    (before : list iteration_data) : iteration_data :=
  let score_result := evaluator o improved (task rq) (is_code rq) rag in
  {| iteration := iteration + 1;
     yantra_output := yantra_out;
     sutra_critique := critique;
     agni_output := improved;
     score := Evaluator.total score_result;
     improvement :=
       if (0 <? iteration)%nat
       then match index_from_end before 1 with
            | Ok prev => Evaluator.total score_result - score prev
            | Raise _ => 0.0
            end
       else 0.0;
     score_details := score_result;
     yantra_score := None;
     yantra_score_details := None;
     agni_score := None;
     iteration_improvement := None |}.

(** Round [iteration] ran to completion after the rounds [before] and
    appended [d]. *)
Definition completed_round (iteration : nat) (before : list iteration_data)
    (d : iteration_data) : Prop :=
  yantra_process b iteration = Ok (yantra_output d) /\
  sutra_process b iteration = Ok (sutra_critique d) /\
  agni_process b iteration = Ok (agni_output d) /\
  d = round_data iteration (yantra_output d) (sutra_critique d)
        (agni_output d) before.

(** The test "Check if we should continue" of round [iteration], whose
    record [d] was appended after the rounds [before]. *)
Definition plateau (iteration : nat) (before : list iteration_data)
    (d : iteration_data) : bool :=
  (0 <? iteration)%nat &&
  match index_from_end before 1 with
  | Ok prev => Py.ltb (score d - score prev) (min_improvement o)
  | Raise _ => false
  end.

End Rounds.

Definition initial : locals :=
  {| iterations := []; best_score := 0.0; best_solution := None |}.

(** [Orchestrator.process].  Returns the calls made to [Smriti.store] and
    the result, or the exception that escapes. *)
Definition process
    (o : Orchestrator) (b : Backend) (rq : TaskRequest)
    : list store_call * outcome SessionResult :=
  let prelude :=
    rag <- (if use_rag rq
            then chunks <- rag_retrieve b ;; Ok (Some chunks)
            else Ok None) ;;
    similar_tasks <- smriti_retrieve_similar b ;;
    st <- loop o b rq rag (seq 0 (max_iterations o)) initial ;;
    Ok (rag, st) in
  match prelude with
  | Raise e => ([], Raise e)
  | Ok (rag, st) =>
      (* Store best solution in memory *)
      let calls := store_request (task rq) (is_code rq) (use_rag rq)
                     (best_solution st) (best_score st) (iterations st) in
      match calls, smriti_store_error b with
      | _ :: _, Some e => (calls, Raise e)
      | _, _ =>
          (calls,
           Ok {| r_task := task rq;
                 final_solution := best_solution st;
                 final_score := best_score st;
                 r_iterations := iterations st;
                 total_iterations := length (iterations st);
                 used_rag := use_rag rq;
                 rag_chunks := if use_rag rq then rag else None |})
      end
  end.

End Aggregate.

(** ** api.py: generate_process_events (live mode) *)

Module Live.

Local Open Scope Q_scope.

(** The JSON objects the endpoint yields, one constructor per ['type']. *)
Inductive event : Type :=
| Ev_start (message : string)
| Ev_rag_retrieved (chunks_count : nat)
| Ev_memory_found (examples_count : nat)
| Ev_iteration_start (iteration : nat)
| Ev_first_response_started
| Ev_token (token : string) (token_count iteration : nat)
| Ev_first_response_complete (iteration : nat)
| Ev_sutra_started (iteration : nat)
| Ev_improving_started (iteration : nat)
| Ev_improved_token (token : string) (iteration token_count : nat)
| Ev_improved (iteration : nat) (improved_output solution : string)
    (token_count : nat)
| Ev_iteration_complete (iteration : nat) (data : iteration_data)
| Ev_plateau_reached (improvement min_improvement : Q)
| Ev_end (task : string) (final_solution : option string) (final_score : Q)
    (iterations : list iteration_data) (total_iterations : nat)
    (used_rag : bool)
| Ev_error (message : string).

(** The value of the ['type'] key. *)
Definition type (e : event) : string :=
  match e with
  | Ev_start _ => "start"
  | Ev_rag_retrieved _ => "rag_retrieved"
  | Ev_memory_found _ => "memory_found"
  | Ev_iteration_start _ => "iteration_start"
  | Ev_first_response_started => "first_response_started"
  | Ev_token _ _ _ => "token"
  | Ev_first_response_complete _ => "first_response_complete"
  | Ev_sutra_started _ => "sutra_started"
  | Ev_improving_started _ => "improving_started"
  | Ev_improved_token _ _ _ => "improved_token"
  | Ev_improved _ _ _ _ => "improved"
  | Ev_iteration_complete _ _ => "iteration_complete"
  | Ev_plateau_reached _ _ => "plateau_reached"
  | Ev_end _ _ _ _ _ _ => "end"
  | Ev_error _ => "error"
  end.

(** The ['iteration'] key of an event, when it has one. *)
Definition iteration_of (e : event) : option nat :=
  match e with
  | Ev_iteration_start i | Ev_token _ _ i | Ev_first_response_complete i
  | Ev_sutra_started i | Ev_improving_started i | Ev_improved_token _ i _
  | Ev_improved i _ _ _ | Ev_iteration_complete i _ => Some i
  | _ => None
  end.

(** The ['iterations'] key of an event, when it has one. *)
Definition iterations_of (e : event) : option (list iteration_data) :=
  match e with
  | Ev_end _ _ _ its _ _ => Some its
  | _ => None
  end.

Definition is_terminal (e : event) : bool :=
  match e with
  | Ev_end _ _ _ _ _ _ | Ev_error _ => true
  | _ => false
  end.

(** One call [run_background_task(analytics.record_task, task, best_score,
    iterations, duration_ms, task_type)]. *)
Record analytics_call : Type := {
  an_task : string;
  an_final_score : Q;
  an_iterations : list iteration_data;
  an_task_type : string
}.

(** The local variables of the generator and the calls it has made to the
    memory store and to the background dispatcher. *)
Record locals : Type := {
  iterations : list iteration_data;
  best_score : Q;
  best_solution : option string;
  store_calls : list store_call;
  background : list analytics_call
}.

Definition set_iterations (its : list iteration_data) (s : locals) : locals :=
  {| iterations := its; best_score := best_score s;
     best_solution := best_solution s; store_calls := store_calls s;
     background := background s |}.

Definition set_best (best : Q * option string) (s : locals) : locals :=
  {| iterations := iterations s; best_score := fst best;
     best_solution := snd best; store_calls := store_calls s;
     background := background s |}.

Definition add_store_calls (calls : list store_call) (s : locals) : locals :=
  {| iterations := iterations s; best_score := best_score s;
     best_solution := best_solution s;
     store_calls := store_calls s ++ calls;
     background := background s |}.

Definition add_background (c : analytics_call) (s : locals) : locals :=
  {| iterations := iterations s; best_score := best_score s;
     best_solution := best_solution s; store_calls := store_calls s;
     background := background s ++ [c] |}.

(** An asynchronous generator: from the locals, the events yielded, the
    locals at the end and the value returned or the exception raised. *)
Definition Gen (A : Type) : Type := locals -> list event * locals * outcome A.

Definition ret {A : Type} (a : A) : Gen A := fun s => ([], s, Ok a).

Definition bind {A B : Type} (m : Gen A) (k : A -> Gen B) : Gen B :=
  fun s =>
    match m s with
    | (evs, s', Ok a) =>
        match k a s' with
        | (evs', s'', r) => (evs ++ evs', s'', r)
        end
    | (evs, s', Raise e) => (evs, s', Raise e)
    end.

Definition yield (e : event) : Gen unit := fun s => ([e], s, Ok tt).
Definition get : Gen locals := fun s => ([], s, Ok s).
Definition modify (f : locals -> locals) : Gen unit := fun s => ([], f s, Ok tt).
Definition lift {A : Type} (r : outcome A) : Gen A := fun s => ([], s, r).
Definition raise {A : Type} (msg : string) : Gen A := lift (Raise msg).

(** [try: body  except Exception as e: handler(str(e))] *)
Definition try_except (body : Gen unit) (handler : string -> Gen unit)
    : Gen unit :=
  fun s =>
    match body s with
    | (evs, s', Ok a) => (evs, s', Ok a)
    | (evs, s', Raise e) =>
        match handler e s' with
        | (evs', s'', r) => (evs ++ evs', s'', r)
        end
    end.

Local Notation "x <- m ;; k" := (bind m (fun x => k))
  (at level 61, m at next level, right associativity).
Local Notation "m ;;; k" := (bind m (fun _ => k))
  (at level 61, right associativity).

(** [for i in range: body(i)], where [body] returns [true] to [break]. *)
Fixpoint for_range (body : nat -> Gen bool) (range : list nat) : Gen unit :=
  match range with
  | [] => ret tt
  | i :: rest =>
      stop <- body i ;;
      if (stop : bool) then ret tt else for_range body rest
  end.

(** [512 if fast_mode else 1024 if not is_code else (384 if fast_mode else 640)] *)
Definition token_limit (o : Orchestrator) (rq : TaskRequest) : nat :=
  if fast_mode o then 512%nat
  else if negb (is_code rq) then 1024%nat
  else if fast_mode o then 384%nat else 640%nat.

(** [iterations[-1].get("agni_score", iterations[-1].get("score", 0.0))] *)
Definition get_agni_score (d : iteration_data) : Q :=
  match agni_score d with
  | Some a => a
  | None => score d
  end.

Section Events.

Variable o : Orchestrator.
Variable b : Backend.
Variable rq : TaskRequest.

(** [async for token in ..._call_ollama_stream(...)]: accumulate and
    forward every token. *)
Fixpoint stream_tokens
    (iteration : nat) (tokens : list string)
    (yantra_out : string) (token_count : nat) : Gen string :=
  match tokens with
  | [] => ret yantra_out
  | token :: rest =>
      let yantra_out := (yantra_out ++ token)%string in
      let token_count := (token_count + 1)%nat in
      yield (Ev_token token token_count (iteration + 1)) ;;;
      stream_tokens iteration rest yantra_out token_count
  end.

(** The body of [for iteration in range(orchestrator.max_iterations)]. *)
Definition round (rag : option (list string)) (iteration : nat) : Gen bool :=
  yield (Ev_iteration_start (iteration + 1)) ;;;
  (* Step 1: Yantra generates solution with token streaming *)
  yield Ev_first_response_started ;;;
  let stream := BaseAgent._call_ollama_stream (yantra_reply b iteration) in
  yantra_out <- stream_tokens iteration (fst stream) "" 0 ;;
  match snd stream with Some e => raise e | None => ret tt end ;;;
  let current_solution := Py.strip yantra_out in
  (* Evaluate Yantra's initial output for accurate analytics *)
  let yantra_score_result :=
    evaluator o current_solution (task rq) (is_code rq) rag in
  let yantra_score' := Evaluator.total yantra_score_result in
  yield (Ev_first_response_complete (iteration + 1)) ;;;
  (* Step 2: Sutra critiques *)
  yield (Ev_sutra_started (iteration + 1)) ;;;
  critique <- lift (sutra_process b iteration) ;;
  (* Step 3: Agni improves - direct non-streaming call *)
  yield (Ev_improving_started (iteration + 1)) ;;;
  let agni_out :=
    match BaseAgent._call_ollama (agni_reply b iteration) with
    | Ok out =>
        (* Ensure we have output *)
        if Py.truthy out then out else "Unable to generate improved output"
    | Raise _ =>
        (* Log error but still provide fallback *)
        "Error generating improved output. Please try again."
    end in
  (* Clean the output *)
  let agni_out := Py.strip agni_out in
  let current_solution := agni_out in
  (* Calculate token count (approximate word count) *)
  let improved_token_count :=
    if Py.truthy agni_out then length (Py.split agni_out) else 0%nat in
  yield (Ev_improved_token agni_out (iteration + 1) improved_token_count) ;;;
  yield (Ev_improved (iteration + 1) current_solution current_solution
           improved_token_count) ;;;
  (* Step 4: Evaluate Agni's improved output *)
  let agni_score_result :=
    evaluator o current_solution (task rq) (is_code rq) rag in
  let agni_score' := Evaluator.total agni_score_result in
  (* Calculate improvement (Agni vs Yantra for this iteration) *)
  let improvement' := agni_score' - yantra_score' in
  (* Also calculate improvement from previous iteration's Agni score *)
  s <- get ;;
  iteration_improvement' <-
    (if (0 <? iteration)%nat
     then prev <- lift (index_from_end (iterations s) 1) ;;
          ret (agni_score' - get_agni_score prev)
     else ret improvement') ;;
  let data :=
    {| iteration := iteration + 1;
       yantra_output := Py.strip yantra_out;
       sutra_critique := critique;
       agni_output := agni_out;
       score := agni_score';
       improvement := improvement';
       score_details := agni_score_result;
       yantra_score := Some yantra_score';
       yantra_score_details := Some yantra_score_result;
       agni_score := Some agni_score';
       iteration_improvement := Some iteration_improvement' |} in
  modify (set_iterations (iterations s ++ [data])) ;;;
  (* Send iteration complete event with data *)
  yield (Ev_iteration_complete (iteration + 1) data) ;;;
  (* Update best solution *)
  modify (fun s => set_best (update_best (best_score s, best_solution s)
                               agni_score' current_solution) s) ;;;
  (* Check if we should continue *)
  if (0 <? iteration)%nat
  then s <- get ;;
       prev <- lift (index_from_end (iterations s) 1) ;;
       let prev_agni_score := get_agni_score prev in
       let improvement' := agni_score' - prev_agni_score in
       if Py.ltb improvement' (min_improvement o)
       then (* Score plateaued, stop *)
            yield (Ev_plateau_reached improvement' (min_improvement o)) ;;;
            ret true
       else ret false
  else ret false.

(** [generate_process_events(request)] *)
Definition generate_process_events : Gen unit :=
  try_except
    ( (* Send start event *)
      yield (Ev_start "Starting task processing...") ;;;
      (* Retrieve RAG chunks if needed *)
      rag <- (if use_rag rq
              then chunks <- lift (rag_retrieve b) ;;
                   yield (Ev_rag_retrieved (length chunks)) ;;;
                   ret (Some chunks)
              else ret None) ;;
      (* Retrieve similar past examples from memory *)
      similar_tasks <- lift (smriti_retrieve_similar b) ;;
      match similar_tasks with
      | [] => ret tt
      | _ => yield (Ev_memory_found (length similar_tasks))
      end ;;;
      for_range (round rag) (seq 0 (max_iterations o)) ;;;
      (* Store best solution in memory *)
      s <- get ;;
      let calls := store_request (task rq) (is_code rq) (use_rag rq)
                     (best_solution s) (best_score s) (iterations s) in
      modify (add_store_calls calls) ;;;
      match calls, smriti_store_error b with
      | _ :: _, Some e => raise e
      | _, _ => ret tt
      end ;;;
      (* Send completion event *)
      yield (Ev_end (task rq) (best_solution s) (best_score s) (iterations s)
               (length (iterations s)) (use_rag rq)) ;;;
      (* Record analytics (non-blocking) *)
      let task_type := if is_code rq then "code" else "document" in
      modify (add_background
                {| an_task := task rq; an_final_score := best_score s;
                   an_iterations := iterations s;
                   an_task_type := task_type |}) )
    (fun error_msg => yield (Ev_error error_msg)).

(** [process_task_stream]: the wrapper [event_generator] forwards every
    event and turns an escaping exception into an error event. *)
Definition event_generator : Gen unit :=
  try_except generate_process_events
    (fun error_msg => yield (Ev_error error_msg)).

End Events.

(** *** What a completed round leaves behind *)

Section Rounds.

Variable o : Orchestrator.
Variable b : Backend.
Variable rq : TaskRequest.
Variable rag : option (list string).

(** The text round [iteration] calls [agni_output] after "Clean the
    output". *)
Definition improved_text (iteration : nat) : string :=
  Py.strip
    match BaseAgent._call_ollama (agni_reply b iteration) with
    | Ok out =>
        if Py.truthy out then out else "Unable to generate improved output"
    | Raise _ => "Error generating improved output. Please try again."
    end.

(** The tokens round [iteration] receives and the text they add up to. *)
Definition tokens (iteration : nat) : list string :=
  fst (BaseAgent._call_ollama_stream (yantra_reply b iteration)).

Definition streamed_text (iteration : nat) : string :=
  fold_left String.append (tokens iteration) "".

Fixpoint token_events (iteration : nat) (toks : list string)
    (token_count : nat) : list event :=
  match toks with
  | [] => []
  | t :: rest =>
      Ev_token t (token_count + 1) (iteration + 1)
      :: token_events iteration rest (token_count + 1)
  end.

Definition word_count (text : string) : nat :=
  if Py.truthy text then length (Py.split text) else 0%nat.

(** The [iteration_data] of round [iteration], given the critique and the
    rounds appended [before] it. *)
Definition round_data (iteration : nat) (critique : string)
    (before : list iteration_data) : iteration_data :=
  let yantra_res :=
    evaluator o (Py.strip (streamed_text iteration)) (task rq) (is_code rq)
      rag in
  let agni_res :=
    evaluator o (improved_text iteration) (task rq) (is_code rq) rag in
  let improvement' := Evaluator.total agni_res - Evaluator.total yantra_res in
  {| iteration := iteration + 1;
     yantra_output := Py.strip (streamed_text iteration);
     sutra_critique := critique;
     agni_output := improved_text iteration;
     score := Evaluator.total agni_res;
     improvement := improvement';
     score_details := agni_res;
     yantra_score := Some (Evaluator.total yantra_res);
     yantra_score_details := Some yantra_res;
     agni_score := Some (Evaluator.total agni_res);
     iteration_improvement :=
       Some (if (0 <? iteration)%nat
             then match index_from_end before 1 with
                  | Ok prev => Evaluator.total agni_res - get_agni_score prev
                  | Raise _ => improvement'
                  end
             else improvement') |}.

(** The events of round [iteration] up to the end of the token stream, up
    to the call of the critic, and up to [iteration_complete]. *)
Definition generation_events (iteration : nat) : list event :=
  [Ev_iteration_start (iteration + 1); Ev_first_response_started]
  ++ token_events iteration (tokens iteration) 0.

Definition critique_events (iteration : nat) : list event :=
  generation_events iteration
  ++ [Ev_first_response_complete (iteration + 1);
      Ev_sutra_started (iteration + 1)].

Definition round_events (d : iteration_data) : list event :=
  let i := (iteration d - 1)%nat in
  critique_events i
  ++ [Ev_improving_started (i + 1);
      Ev_improved_token (agni_output d) (i + 1) (word_count (agni_output d));
      Ev_improved (i + 1) (agni_output d) (agni_output d)
        (word_count (agni_output d));
      Ev_iteration_complete (i + 1) d].

(** Round [iteration] ran to completion after the rounds [before] and
    appended [d]. *)
Definition completed_round (iteration : nat) (before : list iteration_data)
    (d : iteration_data) : Prop :=
  BaseAgent.failure (yantra_reply b iteration) = None /\
  sutra_process b iteration = Ok (sutra_critique d) /\
  d = round_data iteration (sutra_critique d) before.

(** The events of a round that stops before it is complete: the generator
    raised [e] at the end of its stream, or the critic raised [e]. *)
Definition aborted_round (iteration : nat) (e : string) (evs : list event)
    : Prop :=
  (option_map BaseAgent.api_error (BaseAgent.failure (yantra_reply b iteration))
     = Some e /\
   evs = generation_events iteration) \/
  (BaseAgent.failure (yantra_reply b iteration) = None /\
   sutra_process b iteration = Raise e /\
   evs = critique_events iteration).

(** How the round loop over [seq i n] ends after appending [ds]: it ran
    all [n] rounds, or stopped on the plateau test, or an exception
    escaped from the round after the last complete one. *)
Definition loop_end (i n : nat) (ds : list iteration_data)
    (tail : list event) (r : outcome unit) : Prop :=
  match r with
  | Ok _ =>
      (tail = [] /\ length ds = n) \/
      (exists d,
          nth_error ds (length ds - 1) = Some d /\
          tail = [Ev_plateau_reached (score d - score d) (min_improvement o)] /\
          (0 < i + (length ds - 1))%nat /\
          Py.ltb (score d - score d) (min_improvement o) = true)
  | Raise e =>
      (length ds < n)%nat /\ aborted_round (i + length ds) e tail
  end.

(** The events and the outcome of the code before the loop: the start
    event, the retrieval and the memory lookup. *)
Definition prelude : list event * outcome (option (list string)) :=
  let start := Ev_start "Starting task processing..." in
  let retrieved :=
    if use_rag rq
    then match rag_retrieve b with
         | Ok chunks => ([Ev_rag_retrieved (length chunks)], Ok (Some chunks))
         | Raise e => ([], Raise e)
         end
    else ([], Ok None) in
  match retrieved with
  | (evs, Raise e) => (start :: evs, Raise e)
  | (evs, Ok chunks) =>
      match smriti_retrieve_similar b with
      | Raise e => (start :: evs, Raise e)
      | Ok [] => (start :: evs, Ok chunks)
      | Ok similar =>
          (start :: evs ++ [Ev_memory_found (length similar)], Ok chunks)
      end
  end.

(** [generate_process_events] as one case analysis: the events of the
    whole session and the locals at its end. *)
Definition session (s0 : locals) : list event * locals :=
  match prelude with
  | (pre, Raise e) => (pre ++ [Ev_error e], s0)
  | (pre, Ok chunks) =>
      match for_range (round o b rq chunks) (seq 0 (max_iterations o)) s0 with
      | (evs, s1, Raise e) => (pre ++ evs ++ [Ev_error e], s1)
      | (evs, s1, Ok _) =>
          let calls := store_request (task rq) (is_code rq) (use_rag rq)
                         (best_solution s1) (best_score s1) (iterations s1) in
          let s2 := add_store_calls calls s1 in
          match calls, smriti_store_error b with
          | _ :: _, Some e => (pre ++ evs ++ [Ev_error e], s2)
          | _, _ =>
              (pre ++ evs
               ++ [Ev_end (task rq) (best_solution s1) (best_score s1)
                     (iterations s1) (length (iterations s1)) (use_rag rq)],
               add_background
                 {| an_task := task rq; an_final_score := best_score s1;
                    an_iterations := iterations s1;
                    an_task_type := if is_code rq then "code" else "document" |}
                 s2)
          end
      end
  end.

End Rounds.

(** What the events of a round, finished or not, have in common: they
    carry the round's number [n] (1-based), or are the
    [first_response_started] that carries none, and none is terminal. *)
Definition in_round (n : nat) (e : event) : Prop :=
  (iteration_of e = Some n \/ type e = "first_response_started") /\
  is_terminal e = false.

(** The retrieved chunks the rounds of a session work with. *)
Definition retrieved (b : Backend) (rq : TaskRequest) : option (list string) :=
  match snd (prelude b rq) with
  | Ok chunks => chunks
  | Raise _ => None
  end.

(** The call to [analytics.record_task] a session submits at its end. *)
Definition analytics_request (rq : TaskRequest) (s : locals) : analytics_call :=
  {| an_task := task rq;
     an_final_score := best_score s;
     an_iterations := iterations s;
     an_task_type := if is_code rq then "code" else "document" |}.

(** The four ways a session ends, with the events after the last
    complete round: an exception before the loop; an exception inside a
    round; an exception of [Smriti.store]; the [end] event. *)
Inductive session_end (o : Orchestrator) (b : Backend) (rq : TaskRequest)
    (ds : list iteration_data) (s : locals) : list event -> Prop :=
| End_prelude_error (e : string) :
    snd (prelude b rq) = Raise e ->
    ds = [] ->
    store_calls s = [] ->
    background s = [] ->
    session_end o b rq ds s [Ev_error e]
| End_round_error (e : string) (part : list event) :
    aborted_round b (length ds) e part ->
    (length ds < max_iterations o)%nat ->
    store_calls s = [] ->
    background s = [] ->
    session_end o b rq ds s (part ++ [Ev_error e])
| End_store_error (e : string) (plateau : list event) :
    loop_end o b 0 (max_iterations o) ds plateau (Ok tt) ->
    store_calls s = store_request (task rq) (is_code rq) (use_rag rq)
                      (best_solution s) (best_score s) ds ->
    store_calls s <> [] ->
    smriti_store_error b = Some e ->
    background s = [] ->
    session_end o b rq ds s (plateau ++ [Ev_error e])
| End_end (plateau : list event) :
    loop_end o b 0 (max_iterations o) ds plateau (Ok tt) ->
    store_calls s = store_request (task rq) (is_code rq) (use_rag rq)
                      (best_solution s) (best_score s) ds ->
    (store_calls s = [] \/ smriti_store_error b = None) ->
    background s = [analytics_request rq s] ->
    session_end o b rq ds s
      (plateau
       ++ [Ev_end (task rq) (best_solution s) (best_score s) ds (length ds)
             (use_rag rq)]).

Definition initial : locals :=
  {| iterations := []; best_score := 0.0; best_solution := None;
     store_calls := []; background := [] |}.

(** The events of a whole session and the locals when the generator ends. *)
Definition run (o : Orchestrator) (b : Backend) (rq : TaskRequest)
    : list event * locals :=
  fst (event_generator o b rq initial).

Definition events (o : Orchestrator) (b : Backend) (rq : TaskRequest)
    : list event := fst (run o b rq).

Definition final (o : Orchestrator) (b : Backend) (rq : TaskRequest)
    : locals := snd (run o b rq).

(** The ['type'] values of one completed round with [k] tokens. *)
Definition round_types (k : nat) : list string :=
  ["iteration_start"; "first_response_started"]
  ++ repeat "token" k
  ++ ["first_response_complete"; "sutra_started"; "improving_started";
      "improved_token"; "improved"; "iteration_complete"].

End Live.

(** ** api.py: the stream as its consumer reads it *)

Module Consumer.

Import Live.

(** The tokens a consumer of the stream has received for round [n], with
    their [token_count]s, in order of arrival. *)
Definition tokens_of_round (n : nat) (evs : list event) : list (string * nat) :=
  flat_map
    (fun e =>
       match e with
       | Ev_token t c i => if (i =? n)%nat then [(t, c)] else []
       | _ => []
       end) evs.

(** The text the consumer shows: the tokens appended in order. *)
Definition draft_of_round (n : nat) (evs : list event) : string :=
  fold_left String.append (map fst (tokens_of_round n evs)) "".

(** The events a consumer files under round [n]: those whose
    ['iteration'] key is [n], in order of arrival. *)
Definition of_round (n : nat) (e : event) : bool :=
  match iteration_of e with
  | Some i => (i =? n)%nat
  | None => false
  end.

Definition events_of_round (n : nat) (evs : list event) : list event :=
  filter (of_round n) evs.

(** The ['type'] values of the events of one completed round with [k]
    tokens that carry the round's number: all but
    [first_response_started]. *)
Definition keyed_round_types (k : nat) : list string :=
  ["iteration_start"]
  ++ repeat "token" k
  ++ ["first_response_complete"; "sutra_started"; "improving_started";
      "improved_token"; "improved"; "iteration_complete"].

End Consumer.

(** ** agents/base_agent.py: the options of a request *)

Module Inference.

Local Open Scope Q_scope.

(** The ["options"] of a request to the server. *)
Record options : Type := {
  num_predict : nat;
  temperature : Q;
  top_p : Q;
  top_k : nat;
  repeat_penalty : Q;
  num_ctx : nat
}.

(** [self.inference_options], set by [__init__]. *)
Definition inference_options (fast_mode : bool) : options :=
  if fast_mode
  then {| num_predict := 384; temperature := 0.5; top_p := 0.7;
          top_k := 20; repeat_penalty := 1.1; num_ctx := 1024 |}
  else {| num_predict := 640; temperature := 0.6; top_p := 0.8;
          top_k := 30; repeat_penalty := 1.1; num_ctx := 2048 |}.

(** "Use custom parameters if provided, otherwise use defaults", in
    [_call_ollama] and [_call_ollama_stream] alike. *)
Definition request_options (fast_mode : bool) (max_tokens : option nat)
    (temperature' : option Q) : options :=
  let options := inference_options fast_mode in
  let options :=
    match max_tokens with
    | Some n => {| num_predict := n;
                   temperature := temperature options;
                   top_p := top_p options;
                   top_k := top_k options;
                   repeat_penalty := repeat_penalty options;
                   num_ctx := num_ctx options |}
    | None => options
    end in
  match temperature' with
  | Some t => {| num_predict := num_predict options;
                 temperature := t;
                 top_p := top_p options;
                 top_k := top_k options;
                 repeat_penalty := repeat_penalty options;
                 num_ctx := num_ctx options |}
  | None => options
  end.

(** The options of the Generator and Improver requests: [process] of the
    agents calls [_call_ollama(user_prompt, system_prompt)]; the streaming
    endpoint passes [max_tokens=token_limit]. *)
Definition aggregate_options (o : Orchestrator) : options :=
  request_options (fast_mode o) None None.

Definition live_options (o : Orchestrator) (rq : TaskRequest) : options :=
  request_options (fast_mode o) (Some (Live.token_limit o rq)) None.

End Inference.

(** ** agents/smriti.py: the memory store *)

Module Smriti.

Local Open Scope Q_scope.

(** A row of the table [memories]. *)
Record memory : Type := {
  id : nat;
  task_hash : string;
  m_task : string;
  task_embedding : option string;
  solution : string;
  quality_score : Q;
  created_at : nat;
  metadata : option string
}.

(** The database file: the table and its AUTOINCREMENT counter. *)
Record db : Type := {
  memories : list memory;
  sequence : nat
}.

(** The arguments of one call to [store], and the clock when it runs. *)
Record store_args : Type := {
  a_task : string;
  a_solution : string;
  a_quality_score : Q;
  a_task_embedding : option (list Q);
  a_metadata : option (list (string * string));
  a_now : nat
}.

Section Store.

(** [hashlib.md5(s.encode()).hexdigest()] and the two uses of [json.dumps]. *)
Variable md5_hexdigest : string -> string.
Variable dumps_embedding : list Q -> string.
Variable dumps_metadata : list (string * string) -> string.

(** [_init_db]: [CREATE TABLE IF NOT EXISTS memories]. *)
Definition _init_db (file : option db) : db :=
  match file with
  | Some d => d
  | None => {| memories := []; sequence := 0 |}
  end.

(** [_hash_task] *)
Definition _hash_task (task : string) : string := md5_hexdigest task.

(** [SELECT quality_score FROM memories WHERE task_hash = ?] and
    [fetchone()]. *)
Definition select_quality_score (d : db) (h : string) : option Q :=
  option_map quality_score
    (find (fun r => String.eqb (task_hash r) h) (memories d)).

(** [json.dumps(x) if x else None] *)
Definition dumps_if {A : Type} (dumps : list A -> string)
    (x : option (list A)) : option string :=
  match x with
  | None | Some [] => None
  | Some l => Some (dumps l)
  end.

(** The [SET solution = ?, quality_score = ?, task_embedding = ?,
    metadata = ?] of the UPDATE statement, on one row. *)
Definition set_columns (r : memory) (a : store_args) : memory :=
  {| id := id r;
     task_hash := task_hash r;
     m_task := m_task r;
     task_embedding := dumps_if dumps_embedding (a_task_embedding a);
     solution := a_solution a;
     quality_score := a_quality_score a;
     created_at := created_at r;
     metadata := dumps_if dumps_metadata (a_metadata a) |}.

(** [UPDATE memories SET ... WHERE task_hash = ?] *)
Definition update (d : db) (a : store_args) (h : string) : db :=
  {| memories :=
       map (fun r => if String.eqb (task_hash r) h then set_columns r a else r)
           (memories d);
     sequence := sequence d |}.

(** The row a call inserts. *)
Definition new_row (d : db) (a : store_args) (h : string) : memory :=
  {| id := S (sequence d);
     task_hash := h;
     m_task := a_task a;
     task_embedding := dumps_if dumps_embedding (a_task_embedding a);
     solution := a_solution a;
     quality_score := a_quality_score a;
     created_at := a_now a;
     metadata := dumps_if dumps_metadata (a_metadata a) |}.

(** [INSERT INTO memories (task_hash, task, task_embedding, solution,
    quality_score, metadata) VALUES (...)]; the column [task_hash] is
    UNIQUE, so a second row with the same hash is an IntegrityError. *)
Definition insert (d : db) (a : store_args) (h : string) : outcome db :=
  if existsb (fun r => String.eqb (task_hash r) h) (memories d)
  then Raise "UNIQUE constraint failed: memories.task_hash"
  else Ok {| memories := memories d ++ [new_row d a h];
             sequence := S (sequence d) |}.

(** [store]: "Store a successful solution." *)
Definition store (d : db) (a : store_args) : outcome db :=
  let h := _hash_task (a_task a) in
  (* Check if task already exists *)
  match select_quality_score d h with
  | Some existing =>
      (* Only update if new score is better *)
      if Py.gtb (a_quality_score a) existing
      then Ok (update d a h)
      else Ok d
  | None =>
      (* Insert new memory *)
      insert d a h
  end.

(** A sequence of calls, stopping at the first exception. *)
Fixpoint store_all (d : db) (calls : list store_args) : outcome db :=
  match calls with
  | [] => Ok d
  | a :: rest =>
      match store d a with
      | Ok d' => store_all d' rest
      | Raise e => Raise e
      end
  end.

(** The row of a fingerprint. *)
Definition lookup (d : db) (h : string) : option memory :=
  find (fun r => String.eqb (task_hash r) h) (memories d).

(** The rows of a fingerprint. *)
Definition records (d : db) (h : string) : list memory :=
  filter (fun r => String.eqb (task_hash r) h) (memories d).

(** The UNIQUE constraint on [task_hash]. *)
Definition unique (d : db) : Prop := NoDup (map task_hash (memories d)).

End Store.

End Smriti.

(** ** agents/smriti.py: the two queries *)

Module Recall.

Import Smriti.
Local Open Scope Q_scope.

(** [ORDER BY quality_score DESC] *)
Definition ordered_desc (rows : list memory) : Prop :=
  StronglySorted (fun r r' => quality_score r' <= quality_score r) rows.

(** [fetchall()] after [SELECT task, solution, quality_score, metadata FROM
    memories WHERE quality_score >= ? ORDER BY quality_score DESC LIMIT ?].
    SQL leaves the order of rows of equal score open, so the result is any
    list the statement allows. *)
Definition fetched_similar (d : db) (min_score : Q) (n : nat)
    (results : list memory) : Prop :=
  exists rows,
    Permutation rows
      (filter (fun r => Qle_bool min_score (quality_score r)) (memories d)) /\
    ordered_desc rows /\
    results = firstn n rows.

(** [fetchall()] after [SELECT solution FROM memories ORDER BY quality_score
    DESC LIMIT ?]. *)
Definition fetched_best (d : db) (n : nat) (results : list memory) : Prop :=
  exists rows,
    Permutation rows (memories d) /\
    ordered_desc rows /\
    results = firstn n rows.

(** The rows that outscore [r]. *)
Definition outscoring (r : memory) (rows : list memory) : list memory :=
  filter (fun r' => Py.gtb (quality_score r') (quality_score r)) rows.

(** [set(s.lower().split())] *)
Definition words (s : string) : set string :=
  Py.set_of (Py.split (Py.lower s)).

(** Jaccard similarity *)
Definition jaccard (task_words stored_words : set string) : Q :=
  let intersection := length (set_inter string_dec task_words stored_words) in
  let union := length (set_union string_dec task_words stored_words) in
  if (0 <? union)%nat then Py.of_nat intersection / Py.of_nat union else 0.

Section Queries.

(** [json.loads] of a stored metadata column (written by [json.dumps] in
    [store]), and [{}]. *)
Variable Json : Type.
Variable loads : string -> Json.
Variable empty_dict : Json.

(** An entry of the list [retrieve_similar] returns. *)
Record similar_task : Type := {
  s_task : string;
  s_solution : string;
  s_quality_score : Q;
  similarity : Q;
  s_metadata : Json
}.

(** The loop over [results]: the rows whose similarity is above 0.2. *)
Definition similar_of (task : string) (results : list memory)
    : list similar_task :=
  let task_words := words task in
  flat_map
    (fun r =>
       let stored_words := words (m_task r) in
       let similarity := jaccard task_words stored_words in
       if Py.gtb similarity 0.2
       then [{| s_task := m_task r;
                s_solution := solution r;
                s_quality_score := quality_score r;
                similarity := similarity;
                s_metadata := match metadata r with
                              | Some m => if Py.truthy m then loads m
                                          else empty_dict
                              | None => empty_dict
                              end |}]
       else [])
    results.

(** [(x["similarity"], x["quality_score"]) < (y["similarity"],
    y["quality_score"])] on tuples. *)
Definition key_lt (x y : similar_task) : bool :=
  if Qeq_bool (similarity x) (similarity y)
  then Py.ltb (s_quality_score x) (s_quality_score y)
  else Py.ltb (similarity x) (similarity y).

(** [similar.sort(key=..., reverse=True)]: the stable sort, greatest key
    first, entries of equal key in their order of arrival. *)
Fixpoint insert_desc (x : similar_task) (l : list similar_task)
    : list similar_task :=
  match l with
  | [] => [x]
  | y :: l' => if key_lt x y then y :: insert_desc x l' else x :: y :: l'
  end.

Definition sort_reverse (l : list similar_task) : list similar_task :=
  fold_right insert_desc [] l.

(** [retrieve_similar], given what the query fetched. *)
Definition retrieve_similar (task : string) (limit : nat)
    (results : list memory) : list similar_task :=
  firstn limit (sort_reverse (similar_of task results)).

(** [get_best_examples], given what the query fetched. *)
Definition get_best_examples (results : list memory) : list string :=
  map solution results.

End Queries.

Arguments s_task {Json} _.
Arguments s_solution {Json} _.
Arguments s_quality_score {Json} _.
Arguments similarity {Json} _.
Arguments s_metadata {Json} _.
Arguments key_lt {Json} _ _.
Arguments insert_desc {Json} _ _.
Arguments sort_reverse {Json} _.

End Recall.

(** ** utils/background_tasks.py *)

Module BackgroundTasks.

Section Dispatcher.

(** Everything an operation can change (the analytics database, files). *)
Variable World : Type.

(** What a task sees: the world and the lines printed so far. *)
Record state : Type := {
  world : World;
  stdout : list string
}.

(** [func] with its arguments bound: its name
    [getattr(func, '__name__', str(func))], whether it is a coroutine
    function, and what the call does: the new world and the [str(e)] of
    the [Exception] it raises, if any. *)
Record callable : Type := {
  name : string;
  iscoroutinefunction : bool;
  call : World -> World * option string
}.

(** A coroutine: run to completion it gives a state and the exception
    that escapes it, if any. *)
Definition coroutine : Type := state -> state * option string.

(** The running event loop: the state and the tasks created and not yet
    run. *)
Record event_loop : Type := {
  current : state;
  tasks : list coroutine
}.

(** [asyncio.to_thread(func, ...)], awaited. *)
Definition to_thread (f : World -> World * option string) := f.

(** The inner [async def safe_wrapper()]. *)
Definition safe_wrapper (func : callable) : coroutine :=
  fun s =>
    let r := if iscoroutinefunction func
             then call func (world s)
             else (* Run sync functions in thread pool *)
                  to_thread (call func) (world s) in
    match r with
    | (w, None) => ({| world := w; stdout := stdout s |}, None)
    | (w, Some error_msg) =>
        (* Log error but don't raise *)
        ({| world := w;
            stdout := stdout s ++
              [("⚠️ Background task error (" ++ name func ++ "): "
                ++ error_msg)%string] |},
         None)
    end.

(** [run_background_task(func, *args, **kwargs)]: create the task and
    return [None]. *)
Definition run_background_task (func : callable) (l : event_loop)
    : event_loop * outcome unit :=
  ({| current := current l; tasks := tasks l ++ [safe_wrapper func] |}, Ok tt).

(** The loop runs the created tasks; an exception escaping a task is kept
    with the task, as asyncio does. *)
Fixpoint run_tasks (ts : list coroutine) (s : state)
    : state * list string :=
  match ts with
  | [] => (s, [])
  | t :: rest =>
      match t s with
      | (s', None) => run_tasks rest s'
      | (s', Some e) =>
          match run_tasks rest s' with
          | (s'', es) => (s'', e :: es)
          end
      end
  end.

End Dispatcher.

End BackgroundTasks.

(** ** api.py: process_task *)

Module Api.

(** What the handler returns or raises: the result, which the framework
    answers with [200] once it fits the response model, or
    [HTTPException(status_code=500, detail=str(e))]. *)
Inductive response : Type :=
| Http200 (result : Aggregate.SessionResult)
| Http500 (detail : string).

(** [response_model=ProcessResponse]: the framework checks the returned
    dictionary against the model before it answers.  [final_solution: str]
    is the one field a result of [Orchestrator.process] can miss (it is
    [None] when no round scored above 0.0); the answer is then the
    framework's own [500]. *)
Definition response_model (r : response) : response :=
  match r with
  | Http200 result =>
      match Aggregate.final_solution result with
      | Some _ => Http200 result
      | None => Http500 "Internal Server Error"
      end
  | Http500 detail => Http500 detail
  end.

(** The handler [process_task]: the calls made to [Smriti.store], the calls
    submitted to [run_background_task] (which never raises) and what the
    handler returns or raises. *)
Definition process_task (o : Orchestrator) (b : Backend) (rq : TaskRequest)
    : list store_call * list Live.analytics_call * response :=
  match Aggregate.process o b rq with
  | (calls, Ok result) =>
      let task_type := if is_code rq then "code" else "document" in
      (calls,
       [ {| Live.an_task := task rq;
            Live.an_final_score := Aggregate.final_score result;
            Live.an_iterations := Aggregate.r_iterations result;
            Live.an_task_type := task_type |} ],
       Http200 result)
  | (calls, Raise e) => (calls, [], Http500 e)
  end.

End Api.

(** ** analytics/tracker.py: the metrics of record_task *)

Module Analytics.

Local Open Scope Q_scope.

(** [max(a, b)]: the first argument unless the second is strictly greater. *)
Definition max (a b : Q) : Q := if Py.gtb b a then b else a.

(** [bool(x)] of a float. *)
Definition truthy (x : Q) : bool := negb (Qeq_bool x 0).

(** [d.get(key) or default], for a key that holds a float when present. *)
Definition get_or (x : option Q) (default : Q) : Q :=
  match x with
  | Some v => if truthy v then v else default
  | None => default
  end.

(** The four numbers [record_task] computes under "Calculate improvement
    metrics", before they are rounded and written. *)
Record metrics : Type := {
  initial_score : Q;
  final_score_actual : Q;
  m_improvement : Q;
  improvement_percent : Q
}.

Definition task_metrics (final_score : Q) (iterations : list iteration_data)
    : metrics :=
  match iterations with
  | first_iter :: _ =>
      (* Get scores from first iteration *)
      let yantra_score' :=
        get_or (yantra_score first_iter) (score first_iter) in
      let agni_score' :=
        get_or (agni_score first_iter) (score first_iter) in
      (* Use final score if agni_score not available *)
      let agni_score' :=
        if negb (truthy agni_score') || Qeq_bool agni_score' yantra_score'
        then final_score else agni_score' in
      let improvement' := agni_score' - yantra_score' in
      (* Calculate improvement percentage *)
      let improvement_percent' :=
        if Py.gtb yantra_score' 0.01
        then improvement' / yantra_score' * 100
        else if Qle_bool yantra_score' 0.01 && Py.gtb agni_score' yantra_score'
        then Py.min 500.0
               (max 10.0 ((agni_score' - yantra_score') / 0.1 * 100))
        else if Py.gtb yantra_score' 0
        then improvement' / max 0.01 yantra_score' * 100
        else if Py.gtb improvement' 0
        then Py.min 200.0 (improvement' / 0.1 * 100)
        else 0.0 in
      {| initial_score := yantra_score';
         final_score_actual := agni_score';
         m_improvement := improvement';
         improvement_percent := improvement_percent' |}
  | [] =>
      {| initial_score := final_score;
         final_score_actual := final_score;
         m_improvement := 0.0;
         improvement_percent := 0.0 |}
  end.

End Analytics.

(** ** analytics/tracker.py: the housekeeping of record_task *)

Module Housekeeping.

Section Client.

(** The Redis server as the tracker uses it: its state and the four
    commands of [_cleanup_old_tasks].  A command answers or raises; the
    writing ones give the new state. *)
Variable Redis : Type.
Variable zrevrange : Redis -> string -> Z -> Z -> outcome (list string).
Variable delete : Redis -> string -> outcome Redis.
Variable zrem : Redis -> string -> string -> outcome Redis.
Variable smembers : Redis -> string -> outcome (list string).

(** [_get_task_ids]: "Get task IDs ordered by timestamp (newest first)";
    [connected] is [bool(self.redis_client)]. *)
Definition _get_task_ids (connected : bool) (r : Redis) (limit : Z)
    : list string :=
  if negb connected then []
  else match zrevrange r "analytics:task_ids" 0 (limit - 1) with
       | Ok task_ids => task_ids
       | Raise _ => []
       end.

(** The deletions for one old task: the state they leave and whether all
    of them were made; a command that raises ends them, and what was
    deleted before it stays deleted. *)
Fixpoint delete_iterations (old_id : string) (iter_nums : list string)
    (r : Redis) : Redis * bool :=
  match iter_nums with
  | [] => (r, true)
  | iter_num :: rest =>
      match delete r ("analytics:iteration:" ++ old_id ++ ":" ++ iter_num) with
      | Ok r' => delete_iterations old_id rest r'
      | Raise _ => (r, false)
      end
  end.

Definition delete_task (old_id : string) (r : Redis) : Redis * bool :=
  (* Delete task hash *)
  match delete r ("analytics:task:" ++ old_id) with
  | Raise _ => (r, false)
  | Ok r1 =>
      (* Remove from sorted set *)
      match zrem r1 "analytics:task_ids" old_id with
      | Raise _ => (r1, false)
      | Ok r2 =>
          (* Get iteration numbers *)
          match smembers r2 ("analytics:task:" ++ old_id ++ ":iterations") with
          | Raise _ => (r2, false)
          | Ok iter_nums =>
              (* Delete iterations *)
              match delete_iterations old_id iter_nums r2 with
              | (r3, false) => (r3, false)
              | (r3, true) =>
                  (* Delete iterations set *)
                  match delete r3
                          ("analytics:task:" ++ old_id ++ ":iterations") with
                  | Ok r4 => (r4, true)
                  | Raise _ => (r3, false)
                  end
              end
          end
      end
  end.

(** The loop over [old_task_ids]; an exception ends it and is printed. *)
Fixpoint delete_tasks (old_task_ids : list string) (r : Redis) : Redis :=
  match old_task_ids with
  | [] => r
  | old_id :: rest =>
      match delete_task old_id r with
      | (r', true) => delete_tasks rest r'
      | (r', false) => r'
      end
  end.

(** [_cleanup_old_tasks]: "Keep only the last N tasks". *)
Definition _cleanup_old_tasks (connected : bool) (r : Redis)
    (keep_count : nat) : Redis :=
  if negb connected then r
  else
    let task_ids := _get_task_ids connected r (Z.of_nat keep_count) in
    if (keep_count <? length task_ids)%nat
    then
      (* Get all task IDs *)
      let all_task_ids := _get_task_ids connected r 10000 in
      let old_task_ids := skipn keep_count all_task_ids in
      delete_tasks old_task_ids r
    else r.

End Client.

(** A server that holds only the sorted set of task ids, newest first. *)
Definition ids_zrevrange (r : list string) (key : string) (start stop : Z)
    : outcome (list string) :=
  if (stop <? 0)%Z then Ok (skipn (Z.to_nat start) r)
  else Ok (skipn (Z.to_nat start) (firstn (Z.to_nat (stop + 1)) r)).

Definition ids_delete (r : list string) (key : string)
    : outcome (list string) := Ok r.

Definition ids_zrem (r : list string) (key member : string)
    : outcome (list string) :=
  Ok (filter (fun m => negb (String.eqb m member)) r).

Definition ids_smembers (r : list string) (key : string)
    : outcome (list string) := Ok [].

End Housekeeping.

(** ** Scripted sessions *)

(** Backends and scorers with fixed answers, as a test double would give
    them. *)
Module Scripted.

Local Open Scope Q_scope.

Definition answers (s : string) : BaseAgent.reply :=
  {| BaseAgent.chunks := [s]; BaseAgent.failure := None |}.

Definition fails (e : string) : BaseAgent.reply :=
  {| BaseAgent.chunks := []; BaseAgent.failure := Some e |}.

(** A scorer that looks the candidate up in a table. *)
Fixpoint lookup (table : list (string * Q)) (default : Q) (s : string) : Q :=
  match table with
  | [] => default
  | (k, v) :: rest => if String.eqb k s then v else lookup rest default s
  end.

Definition scorer (table : list (string * Q)) (default : Q) : evaluator_t :=
  fun solution _ _ _ =>
    Evaluator.CodeScores 0.5 0.5 0.5 (lookup table default solution).

(** The Improver answers ["a1"], ["a2"], ["a3"], ["a3"], ... *)
Definition improved (n : nat) : string :=
  match n with
  | 0%nat => "a1"
  | 1%nat => "a2"
  | _ => "a3"
  end.

Definition backend : Backend :=
  {| yantra_reply := fun _ => {| BaseAgent.chunks := ["dra"; ""; "ft"];
                                 BaseAgent.failure := None |};
     sutra_reply := fun _ => answers "critique";
     agni_reply := fun n => answers (improved n);
     rag_retrieve := Ok ["chunk"];
     smriti_retrieve_similar := Ok [];
     smriti_store_error := None |}.

Definition request : TaskRequest :=
  {| task := "task"; context := None; use_rag := false; is_code := true |}.

(** Strictly increasing post-scores 0.3, 0.5, 0.7 with
    [max_iterations = 3] and [min_improvement = 0.01]. *)
Definition increasing : Orchestrator :=
  {| evaluator := scorer [("a1", 0.3); ("a2", 0.5); ("a3", 0.7)] 0.1;
     max_iterations := 3;
     min_improvement := 0.01;
     fast_mode := true |}.

(** The Generator's stream breaks in round 2. *)
Definition generator_fails_in_round_2 : Backend :=
  {| yantra_reply :=
       fun n => if (n =? 1)%nat
                then {| BaseAgent.chunks := ["dr"];
                        BaseAgent.failure := Some "connection reset" |}
                else yantra_reply backend n;
     sutra_reply := sutra_reply backend;
     agni_reply := agni_reply backend;
     rag_retrieve := rag_retrieve backend;
     smriti_retrieve_similar := smriti_retrieve_similar backend;
     smriti_store_error := None |}.


Definition failing_improver : Backend :=
  {| yantra_reply := yantra_reply backend;
     sutra_reply := sutra_reply backend;
     agni_reply := fun _ => fails "timeout";
     rag_retrieve := rag_retrieve backend;
     smriti_retrieve_similar := smriti_retrieve_similar backend;
     smriti_store_error := None |}.

(** One round, scored by the evaluator. *)
Definition single_round : Orchestrator :=
  {| evaluator := Evaluator.evaluate;
     max_iterations := 1;
     min_improvement := 0.05;
     fast_mode := true |}.

(** One round whose improved text scores [s]. *)
Definition one_round_scoring (s : Q) : Orchestrator :=
  {| evaluator := scorer [("a1", s)] 0.1;
     max_iterations := 1;
     min_improvement := 0.05;
     fast_mode := true |}.

(** Up to three rounds; the improved text of the first round scores [s]. *)
Definition three_rounds_scoring (s : Q) : Orchestrator :=
  {| evaluator := scorer [("a1", s)] 0.1;
     max_iterations := 3;
     min_improvement := 0.05;
     fast_mode := true |}.


End Scripted.

(** ** Scripted response bodies *)

Module ScriptedStream.

Import OllamaStream.

Definition piece (content : string) (done : bool) : json :=
  JObject [("message", JObject [("role", JString "assistant");
                                ("content", JString content)]);
           ("done", JBool done)].

(** A decoder that knows four lines. *)
Definition loads (s : string) : option json :=
  if String.eqb s "{hel}" then Some (piece "Hel" false)
  else if String.eqb s "{empty}" then Some (piece "" false)
  else if String.eqb s "{lo}" then Some (piece "lo" false)
  else if String.eqb s "{done}" then Some (piece "" true)
  else None.

Definition message (k : error_kind) (x : json) : string := "TypeError".

(** A decoder that keeps the ASCII bytes of a chunk and drops the others. *)
Fixpoint decode (chunk : string) : string :=
  match chunk with
  | EmptyString => EmptyString
  | String c rest =>
      if (nat_of_ascii c <? 128)%nat then String c (decode rest)
      else decode rest
  end.

(** The body ["{hel}\n{empty}\n{lo}\n{done}\n"], cut inside its lines. *)
Definition cut_body : list string :=
  [ "{he";
    ("l}" ++ String Py.nl "{empty}" ++ String Py.nl "{l")%string;
    "";
    ("o}" ++ String Py.nl "{do")%string;
    ("ne}" ++ String Py.nl "")%string ].

End ScriptedStream.

(** * Properties *)

(** ** Comparisons and [min] *)

Section PyFacts.

Local Open Scope Q_scope.

Lemma ltb_lt (a b : Q) : Py.ltb a b = true <-> a < b.
Proof.
  unfold Py.ltb. rewrite Qlt_alt.
  destruct (a ?= b); split; intro H; try reflexivity; discriminate.
Qed.

Lemma ltb_ge (a b : Q) : Py.ltb a b = false <-> b <= a.
Proof.
  split; intro H.
  - apply Qnot_lt_le. intro L. apply ltb_lt in L. congruence.
  - destruct (Py.ltb a b) eqn:E; [|reflexivity].
    apply ltb_lt in E. exfalso. apply (Qlt_not_le _ _ E H).
Qed.

Lemma gtb_gt (a b : Q) : Py.gtb a b = true <-> b < a.
Proof. unfold Py.gtb. apply ltb_lt. Qed.

Lemma gtb_le (a b : Q) : Py.gtb a b = false <-> a <= b.
Proof. unfold Py.gtb. apply ltb_ge. Qed.

Lemma min_cases (a b : Q) :
  (b < a /\ Py.min a b = b) \/ (a <= b /\ Py.min a b = a).
Proof.
  unfold Py.min. destruct (Py.ltb b a) eqn:E.
  - left. split; [apply ltb_lt; exact E | reflexivity].
  - right. split; [apply ltb_ge; exact E | reflexivity].
Qed.

Lemma min_bounds (lo a b : Q) :
  lo <= a -> lo <= b -> lo <= Py.min a b <= a.
Proof.
  intros Ha Hb. destruct (min_cases a b) as [[L ->]|[L ->]]; lra.
Qed.

Lemma of_nat_nonneg (n : nat) : 0 <= Py.of_nat n.
Proof.
  unfold Py.of_nat. replace 0 with (inject_Z 0) by reflexivity.
  rewrite <- Zle_Qle. lia.
Qed.

Lemma ratio_nonneg (n m : nat) : 0 <= Py.of_nat n / Py.of_nat m * 2.
Proof.
  assert (Hn := of_nat_nonneg n). assert (Hm := of_nat_nonneg m).
  assert (0 <= Py.of_nat n / Py.of_nat m).
  { unfold Qdiv. apply Qmult_le_0_compat; [exact Hn|].
    apply Qinv_le_0_compat. exact Hm. }
  lra.
Qed.

End PyFacts.

(** ** The evaluator *)

Section EvaluatorFacts.

Import Evaluator.
Local Open Scope Q_scope.

Lemma evaluate_code_range (code task : string) (rag : option (list string)) :
  0.5 <= total (evaluate_code code task rag) <= 1.0.
Proof.
  unfold evaluate_code.
  cbv delta [code_patterns]. cbn [fold_left snd total].
  repeat match goal with
         | |- context [Re.search ?r code] =>
             generalize (Re.search r code); intro
         end.
  generalize (Re.search_bol import_pattern code). intro.
  generalize (Py.contains "def " code || Py.contains "function " code
              || Py.contains "class " code)%bool. intro.
  repeat match goal with x : bool |- _ => destruct x end;
    split; apply Qle_bool_imp_le; vm_compute; reflexivity.
Qed.

Lemma evaluate_rag_answer_range (answer : string) (rag : option (list string)) :
  0.25 <= total (evaluate_rag_answer answer rag) <= 1.0.
Proof.
  unfold evaluate_rag_answer.
  destruct rag as [[|c cs]|];
    [ cbn [total]; lra | | cbn [total]; lra ].
  cbv beta zeta.
  set (aw := Py.set_of (Py.split (Py.lower answer))).
  set (cw := Py.set_of (Py.split (Py.lower (String.concat " " (c :: cs))))).
  set (overlap := length (set_inter string_dec aw cw)).
  set (total_unique := length (set_union string_dec aw cw)).
  assert (Hr := ratio_nonneg overlap total_unique).
  set (ratio := Py.of_nat overlap / Py.of_nat total_unique * 2) in *.
  clearbody ratio.
  assert (H0 : 0 <= 1.0) by lra. assert (H1 : 0 <= 0.5) by lra.
  assert (Hg := min_bounds 0 1.0 ratio H0 Hr).
  set (g := Py.min 1.0 ratio) in *. clearbody g.
  cbn [total].
  generalize (0 <? total_unique)%nat
             (Re.search citation_pattern (Py.lower answer))
             (3 <? Py.len_split_on Py.nl answer)%nat
             (Re.search markdown_pattern answer).
  intros b1 b2 b3 b4.
  assert (M1 : Py.min 1.0 0.5 = 0.5) by reflexivity.
  rewrite M1.
  destruct b1, b2, b3, b4;
  repeat match goal with
         | |- context [Py.min ?a ?b] =>
             let E := fresh "E" in
             destruct (min_cases a b) as [[? E]|[? E]]; rewrite E
         end;
  lra.
Qed.

(** C10.  For every solution, task, [is_code] flag and optional list of
    retrieval chunks the total score of [Evaluator.evaluate] lies in
    [0.25, 1.0]; as code it lies in [0.5, 1.0]; the empty string scores at
    least 0.5 as code; and no candidate gets the score 0. *)
Theorem evaluate_total_range :
  forall (solution task : string) (is_code : bool)
         (rag_chunks : option (list string)),
    0.25 <= total (evaluate solution task is_code rag_chunks) <= 1.0 /\
    0.5 <= total (evaluate solution task true rag_chunks) <= 1.0 /\
    0.5 <= total (evaluate "" task true rag_chunks) /\
    ~ total (evaluate solution task is_code rag_chunks) == 0.
Proof.
  intros solution task is_code rag_chunks.
  assert (Hc := evaluate_code_range solution task rag_chunks).
  assert (He := evaluate_code_range "" task rag_chunks).
  assert (Hr := evaluate_rag_answer_range solution rag_chunks).
  assert (R : 0.25 <= total (evaluate solution task is_code rag_chunks) <= 1.0).
  { unfold evaluate. destruct is_code; lra. }
  split; [exact R|].
  split; [exact Hc|].
  split; [exact (proj1 He)|].
  intro Z. rewrite Z in R. lra.
Qed.

Lemma evaluate_positive :
  forall (solution task : string) (is_code : bool)
         (rag_chunks : option (list string)),
    0 < total (evaluate solution task is_code rag_chunks).
Proof.
  intros solution task is_code rag_chunks. unfold evaluate.
  assert (Hc := evaluate_code_range solution task rag_chunks).
  assert (Hr := evaluate_rag_answer_range solution rag_chunks).
  destruct is_code; lra.
Qed.

Set Warnings "-inexact-float".

(** The totals of [evaluate_code] computed on doubles stay in the same
    range, and the lowest one is exactly 0.5. *)
Lemma evaluate_code_total_binary64 :
  forall structure c d e t imports : bool,
    let total := Binary64.evaluate_code_total structure [c; d; e; t] imports in
    (PrimFloat.leb 0.5 total && PrimFloat.leb total 1.0)%bool = true /\
    PrimFloat.eqb (Binary64.evaluate_code_total false
                     [false; false; false; false] false) 0.5 = true.
Proof.
  intros [] [] [] [] [] []; split; vm_compute; reflexivity.
Qed.

Example evaluate_code_sample :
  evaluate_code
    ("import os" ++ String Py.nl "def load(path: str):"
     ++ String Py.nl "    try:"
     ++ String Py.nl "        return open(path)  # read it") "load a file" None
  = CodeScores (Py.min 1.0 0.5)
      (Py.min 1.0 (0.5 + 0.1 + 0.1 + 0.1 + 0.1))
      (Py.min 1.0 (0.5 + 0.2))
      (Py.min 1.0 0.5 * 0.4 + Py.min 1.0 (0.5 + 0.1 + 0.1 + 0.1 + 0.1) * 0.3
       + Py.min 1.0 (0.5 + 0.2) * 0.3).
Proof. vm_compute. reflexivity. Qed.

Example evaluate_rag_answer_sample :
  total (evaluate_rag_answer "the cat" (Some ["The cat sat"; "on the mat"]))
  == 0.65 /\
  total (evaluate_rag_answer "" (Some ["The cat sat"; "on the mat"])) == 0.25.
Proof. split; vm_compute; reflexivity. Qed.

Example strip_split_sample :
  Py.strip ("  a  b" ++ String Py.nl " ") = "a  b" /\
  Py.split ("  a  b" ++ String Py.nl " c") = ["a"; "b"; "c"].
Proof. split; vm_compute; reflexivity. Qed.

End EvaluatorFacts.

(** ** The memory store *)

Section SmritiFacts.

Import Smriti.
Local Open Scope Q_scope.

Variable md5_hexdigest : string -> string.
Variable dumps_embedding : list Q -> string.
Variable dumps_metadata : list (string * string) -> string.

Local Abbreviation store :=
  (Smriti.store md5_hexdigest dumps_embedding dumps_metadata).
Local Abbreviation store_all :=
  (Smriti.store_all md5_hexdigest dumps_embedding dumps_metadata).
Local Abbreviation set_columns :=
  (Smriti.set_columns dumps_embedding dumps_metadata).
Local Abbreviation new_row := (Smriti.new_row dumps_embedding dumps_metadata).

Lemma existsb_find_none {A : Type} (f : A -> bool) (l : list A) :
  find f l = None -> existsb f l = false.
Proof.
  induction l as [|x l IH]; cbn; [reflexivity|].
  destruct (f x); [discriminate | exact IH].
Qed.

Lemma NoDup_snoc {A : Type} (l : list A) (x : A) :
  NoDup l -> ~ In x l -> NoDup (l ++ [x]).
Proof.
  induction l as [|y l IH]; cbn; intros N NI.
  - constructor; [intros []|constructor].
  - inversion N as [|z l' NY N']; subst. constructor.
    + rewrite in_app_iff. intros [I|[I|[]]]; [exact (NY I)|].
      apply NI. left. symmetry. exact I.
    + apply IH; [exact N'|]. intro I. apply NI. right. exact I.
Qed.

Lemma find_some_hash (d : db) (h : string) (r : memory) :
  lookup d h = Some r -> task_hash r = h /\ In r (memories d).
Proof.
  unfold lookup. intro F. apply find_some in F. destruct F as [I E].
  apply String.eqb_eq in E. split; assumption.
Qed.

Lemma find_none_hash (d : db) (h : string) :
  lookup d h = None -> ~ In h (map task_hash (memories d)).
Proof.
  unfold lookup. intros F I. apply in_map_iff in I.
  destruct I as [r [E I]].
  apply (find_none _ _ F) in I. rewrite E, String.eqb_refl in I. discriminate.
Qed.

Lemma update_hashes (d : db) (a : store_args) (h : string) :
  map task_hash (memories (update dumps_embedding dumps_metadata d a h))
  = map task_hash (memories d).
Proof.
  unfold update. cbn [memories]. rewrite map_map. apply map_ext.
  intro r. destruct (String.eqb (task_hash r) h); reflexivity.
Qed.

Lemma records_unique (d : db) (h : string) :
  unique d -> (length (records d h) <= 1)%nat.
Proof.
  unfold unique, records. induction (memories d) as [|r l IH]; cbn; intro N.
  - lia.
  - inversion N as [|x l' NI N' E]; subst.
    destruct (String.eqb (task_hash r) h) eqn:E.
    + apply String.eqb_eq in E. cbn.
      assert (Z : filter (fun r0 => String.eqb (task_hash r0) h) l = []).
      { destruct (filter _ l) as [|y ys] eqn:F; [reflexivity|].
        exfalso. assert (I : In y (y :: ys)) by (left; reflexivity).
        rewrite <- F in I. apply filter_In in I. destruct I as [I Ey].
        apply String.eqb_eq in Ey. apply NI. apply in_map_iff.
        exists y. split; [congruence | exact I]. }
      rewrite Z. cbn. lia.
    + apply IH. exact N'.
Qed.

Lemma lookup_update_same (d : db) (a : store_args) (h : string) (r : memory) :
  lookup d h = Some r ->
  lookup (update dumps_embedding dumps_metadata d a h) h
  = Some (set_columns r a).
Proof.
  unfold lookup, update. cbn [memories].
  induction (memories d) as [|x l IH]; cbn; [discriminate|].
  destruct (String.eqb (task_hash x) h) eqn:E.
  - intro H. inversion H; subst. cbn. rewrite E. reflexivity.
  - rewrite E. exact IH.
Qed.

Lemma records_update_other (d : db) (a : store_args) (h h' : string) :
  h' <> h ->
  records (update dumps_embedding dumps_metadata d a h) h' = records d h'.
Proof.
  intro NE. unfold records, update. cbn [memories].
  induction (memories d) as [|x l IH]; cbn; [reflexivity|].
  destruct (String.eqb (task_hash x) h) eqn:E.
  - apply String.eqb_eq in E. cbn.
    destruct (String.eqb (task_hash x) h') eqn:E'.
    + apply String.eqb_eq in E'. congruence.
    + exact IH.
  - destruct (String.eqb (task_hash x) h'); [f_equal|]; exact IH.
Qed.

Lemma store_ok (d : db) (a : store_args) :
  unique d -> exists d', store d a = Ok d' /\ unique d'.
Proof.
  intro U. unfold store, Smriti.store, select_quality_score.
  fold (lookup d (_hash_task md5_hexdigest (a_task a))).
  destruct (lookup d _) as [r|] eqn:F; cbn [option_map].
  - destruct (Py.gtb _ _).
    + eexists. split; [reflexivity|]. unfold unique.
      rewrite update_hashes. exact U.
    + eexists. split; [reflexivity | exact U].
  - unfold insert. rewrite (existsb_find_none _ _ F).
    eexists. split; [reflexivity|]. unfold unique. cbn [memories].
    rewrite map_app. cbn [map]. apply NoDup_snoc; [exact U|].
    apply find_none_hash. exact F.
Qed.

Lemma store_all_ok (calls : list store_args) (d : db) :
  unique d -> exists d', store_all d calls = Ok d' /\ unique d'.
Proof.
  revert d. induction calls as [|a rest IH]; intros d U.
  - exists d. split; [reflexivity | exact U].
  - destruct (store_ok d a U) as [d1 [E U1]].
    destruct (IH d1 U1) as [d2 [E2 U2]].
    exists d2. split; [|exact U2].
    unfold store_all in *. cbn. fold store. rewrite E. exact E2.
Qed.

(** C8.  After any sequence of [store] calls on a fresh database, a further
    call succeeds and leaves at most one row per task fingerprint.  When
    the fingerprint has a row and the new score is strictly greater, the
    row of the fingerprint afterwards holds the solution and the score of
    the call and the serialised embedding and metadata of the call ([NULL]
    for a missing or empty one), and keeps its id, fingerprint, task text
    and creation time; the rows of the other fingerprints are as they
    were.  When the new score is not greater, the database is unchanged.
    When the fingerprint has no row, one row is appended, with the next
    id and the fingerprint, task, solution, score, embedding and metadata
    of the call. *)
Theorem store_one_record_per_fingerprint :
  forall (calls : list store_args) (a : store_args),
  exists d d',
    store_all (_init_db None) calls = Ok d /\
    store d a = Ok d' /\
    (forall h, length (records d h) <= 1)%nat /\
    (forall h, length (records d' h) <= 1)%nat /\
    let h := _hash_task md5_hexdigest (a_task a) in
    match lookup d h with
    | Some r =>
        if Py.gtb (a_quality_score a) (quality_score r)
        then
          exists r',
            lookup d' h = Some r' /\
            solution r' = a_solution a /\
            quality_score r' = a_quality_score a /\
            task_embedding r'
            = match a_task_embedding a with
              | None | Some [] => None
              | Some e => Some (dumps_embedding e)
              end /\
            metadata r'
            = match a_metadata a with
              | None | Some [] => None
              | Some m => Some (dumps_metadata m)
              end /\
            id r' = id r /\
            task_hash r' = h /\
            m_task r' = m_task r /\
            created_at r' = created_at r /\
            (forall h', h' <> h -> records d' h' = records d h') /\
            length (memories d') = length (memories d)
        else d' = d
    | None =>
        exists r',
          memories d' = memories d ++ [r'] /\
          sequence d' = S (sequence d) /\
          id r' = S (sequence d) /\
          task_hash r' = h /\
          m_task r' = a_task a /\
          created_at r' = a_now a /\
          solution r' = a_solution a /\
          quality_score r' = a_quality_score a /\
          task_embedding r'
          = match a_task_embedding a with
            | None | Some [] => None
            | Some e => Some (dumps_embedding e)
            end /\
          metadata r'
          = match a_metadata a with
            | None | Some [] => None
            | Some m => Some (dumps_metadata m)
            end
    end.
Proof.
  intros calls a.
  assert (U0 : unique (_init_db None)) by constructor.
  destruct (store_all_ok calls _ U0) as [d [E U]].
  destruct (store_ok d a U) as [d' [E' U']].
  exists d, d'. split; [exact E|]. split; [exact E'|].
  split; [intro h; apply records_unique; exact U|].
  split; [intro h; apply records_unique; exact U'|].
  cbv zeta. revert E'. unfold store, Smriti.store, select_quality_score.
  fold (lookup d (_hash_task md5_hexdigest (a_task a))).
  destruct (lookup d _) as [r|] eqn:F; cbn [option_map].
  - destruct (Py.gtb _ _); intro H; inversion H; subst.
    + exists (Smriti.set_columns dumps_embedding dumps_metadata r a).
      destruct (find_some_hash d _ r F) as [Hh _].
      repeat match goal with |- _ /\ _ => split end;
        try reflexivity;
        try (cbn; destruct (a_task_embedding a) as [[|x l]|]; reflexivity);
        try (cbn; destruct (a_metadata a) as [[|x l]|]; reflexivity).
      * apply lookup_update_same. exact F.
      * exact Hh.
      * intros h' NE. apply records_update_other. exact NE.
      * unfold update. cbn [memories]. apply length_map.
    + reflexivity.
  - unfold insert. rewrite (existsb_find_none _ _ F).
    intro H. inversion H; subst.
    exists (Smriti.new_row dumps_embedding dumps_metadata d a
              (_hash_task md5_hexdigest (a_task a))).
    repeat match goal with |- _ /\ _ => split end;
      try reflexivity;
      try (cbn; destruct (a_task_embedding a) as [[|x l]|]; reflexivity);
      try (cbn; destruct (a_metadata a) as [[|x l]|]; reflexivity).
Qed.

End SmritiFacts.

Ltac triple E :=
  apply pair_equal_spec in E; destruct E as [E <-];
  apply pair_equal_spec in E; destruct E as [<- <-].

Ltac splits := repeat match goal with |- _ /\ _ => split end.

(** ** The live generator, round by round *)

Section LiveRound.

Import Live.
Local Open Scope Q_scope.

Variable o : Orchestrator.
Variable b : Backend.
Variable rq : TaskRequest.
Variable rag : option (list string).

Lemma index_from_end_last {A : Type} (l : list A) (x : A) :
  index_from_end (l ++ [x]) 1 = Ok x.
Proof. unfold index_from_end. rewrite rev_app_distr. reflexivity. Qed.

Lemma index_from_end_nonempty {A : Type} (l : list A) :
  l <> [] -> exists x, index_from_end l 1 = Ok x.
Proof.
  intro N. destruct (exists_last N) as [l' [x ->]].
  exists x. apply index_from_end_last.
Qed.

Lemma stream_tokens_run (i : nat) (toks : list string) :
  forall (acc : string) (n : nat) (s : locals),
    stream_tokens i toks acc n s
    = (token_events i toks n, s, Ok (fold_left String.append toks acc)).
Proof.
  induction toks as [|t rest IH]; intros acc n s; cbn.
  - reflexivity.
  - unfold bind, yield. rewrite IH. reflexivity.
Qed.

Lemma live_round_generator_fails (i : nat) (s : locals) (e : string) :
  BaseAgent.failure (yantra_reply b i) = Some e ->
  round o b rq rag i s
  = (generation_events b i, s, Raise (BaseAgent.api_error e)).
Proof.
  intro F. unfold round, bind, yield, raise, lift.
  rewrite stream_tokens_run. cbn [snd BaseAgent._call_ollama_stream].
  rewrite F. cbn. rewrite app_nil_r. reflexivity.
Qed.

Lemma live_round_critic_fails (i : nat) (s : locals) (e : string) :
  BaseAgent.failure (yantra_reply b i) = None ->
  sutra_process b i = Raise e ->
  round o b rq rag i s = (critique_events b i, s, Raise e).
Proof.
  intros F C. unfold round, bind, yield, raise, lift, ret.
  rewrite stream_tokens_run. cbn [snd BaseAgent._call_ollama_stream].
  rewrite F, C. cbn. unfold critique_events, generation_events, tokens.
  cbn. reflexivity.
Qed.

Lemma live_round_completes (i : nat) (s : locals) (crit : string) :
  BaseAgent.failure (yantra_reply b i) = None ->
  sutra_process b i = Ok crit ->
  (i = 0%nat \/ iterations s <> []) ->
  let d := round_data o b rq rag i crit (iterations s) in
  let stop := ((0 <? i)%nat && Py.ltb (score d - score d) (min_improvement o))%bool in
  round o b rq rag i s
  = (round_events b d
     ++ (if stop
         then [Ev_plateau_reached (score d - score d) (min_improvement o)]
         else []),
     set_best (update_best (best_score s, best_solution s)
                 (score d) (agni_output d))
       (set_iterations (iterations s ++ [d]) s),
     Ok stop).
Proof.
  intros F C NE d stop.
  unfold round, bind, yield, raise, lift, ret, get, modify.
  rewrite stream_tokens_run. cbn [snd BaseAgent._call_ollama_stream].
  rewrite F, C. cbn [option_map].
  fold (improved_text b i). fold (tokens b i). fold (streamed_text b i).
  assert (R : round_events b d
              = critique_events b i
                ++ [Ev_improving_started (i + 1);
                    Ev_improved_token (agni_output d) (i + 1)
                      (word_count (agni_output d));
                    Ev_improved (i + 1) (agni_output d) (agni_output d)
                      (word_count (agni_output d));
                    Ev_iteration_complete (i + 1) d]).
  { unfold round_events. cbn [iteration d round_data].
    rewrite Nat.add_sub. reflexivity. }
  rewrite R. clear R.
  unfold critique_events, generation_events.
  subst stop. subst d. unfold round_data.
  fold (word_count (improved_text b i)).
  destruct (0 <? i)%nat eqn:Z.
  - destruct NE as [->|NE]; [discriminate|].
    destruct (index_from_end_nonempty _ NE) as [prev P].
    rewrite P. cbn [set_iterations iterations set_best].
    rewrite index_from_end_last.
    cbn [get_agni_score agni_score score agni_output andb].
    destruct (Py.ltb _ _); cbn; rewrite <- ?app_assoc; cbn; reflexivity.
  - cbn [set_iterations iterations set_best score agni_output andb].
    cbn. rewrite <- ?app_assoc. cbn. reflexivity.
Qed.

Lemma live_loop_spec :
  forall (n i : nat) (s : locals) (evs : list event) (s' : locals)
         (r : outcome unit),
    length (iterations s) = i ->
    for_range (round o b rq rag) (seq i n) s = (evs, s', r) ->
    exists (ds : list iteration_data) (tail : list event),
      iterations s' = iterations s ++ ds /\
      evs = flat_map (round_events b) ds ++ tail /\
      (forall k d, nth_error ds k = Some d ->
         completed_round o b rq rag (i + k) (iterations s ++ firstn k ds) d) /\
      (best_score s', best_solution s')
      = best_from (best_score s, best_solution s) ds /\
      store_calls s' = store_calls s /\
      background s' = background s /\
      (length ds <= n)%nat /\
      loop_end o b i n ds tail r.
Proof.
  induction n as [|n IH]; intros i s evs s' r L E.
  - cbn in E. injection E as <- <- <-. exists [], [].
    rewrite app_nil_r. cbn. splits; try reflexivity; try lia.
    + intros k d H. destruct k; discriminate.
    + left. split; reflexivity.
  - cbn [seq for_range] in E. unfold bind in E.
    destruct (BaseAgent.failure (yantra_reply b i)) as [e|] eqn:F.
    { rewrite (live_round_generator_fails i s e F) in E. injection E as <- <- <-.
      exists [], (generation_events b i).
      rewrite app_nil_r. cbn [flat_map app length loop_end].
      splits; try reflexivity; try lia.
      - intros k d H. destruct k; discriminate.
      - rewrite Nat.add_0_r. left. rewrite F. split; reflexivity. }
    destruct (sutra_process b i) as [crit|e] eqn:C.
    2:{ rewrite (live_round_critic_fails i s e F C) in E. injection E as <- <- <-.
        exists [], (critique_events b i).
        rewrite app_nil_r. cbn [flat_map app length loop_end].
        splits; try reflexivity; try lia.
        - intros k d H. destruct k; discriminate.
        - rewrite Nat.add_0_r. right. splits; try assumption; reflexivity. }
    assert (NE : i = 0%nat \/ iterations s <> []).
    { destruct (iterations s); [left; cbn in L; lia | right; discriminate]. }
    rewrite (live_round_completes i s crit F C NE) in E.
    set (d := round_data o b rq rag i crit (iterations s)) in *.
    set (s1 := set_best _ _) in *.
    assert (CR : completed_round o b rq rag i (iterations s) d).
    { split; [exact F|]. split; [exact C | reflexivity]. }
    assert (B1 : (best_score s1, best_solution s1)
                 = best_from (best_score s, best_solution s) [d]).
    { subst s1. cbn. symmetry. apply surjective_pairing. }
    destruct ((0 <? i)%nat && Py.ltb (score d - score d) (min_improvement o))%bool
      eqn:STOP.
    + cbv beta iota in E. unfold ret in E. injection E as <- <- <-.
      exists [d], [Ev_plateau_reached (score d - score d) (min_improvement o)].
      cbn [flat_map]. rewrite !app_nil_r.
      splits; try reflexivity.
      * intros k d' H. destruct k as [|k]; cbn in H.
        -- inversion H; subst d'. rewrite Nat.add_0_r, app_nil_r. exact CR.
        -- destruct k; discriminate.
      * exact B1.
      * cbn. lia.
      * apply andb_true_iff in STOP. destruct STOP as [P1 P2].
        apply Nat.ltb_lt in P1.
        right. exists d. cbn. splits; try reflexivity; try lia.
        exact P2.
    + cbv beta iota in E.
      destruct (for_range (round o b rq rag) (seq (S i) n) s1)
        as [[evs1 s2] r1] eqn:E1.
      triple E.
      assert (L1 : length (iterations s1) = S i).
      { subst s1. cbn. rewrite length_app. cbn. lia. }
      destruct (IH (S i) s1 evs1 s2 r1 L1 E1)
        as [ds [tail [I1 [I2 [I3 [I4 [I5 [I6 [I7 I8]]]]]]]]].
      exists (d :: ds), tail.
      assert (Its : iterations s1 = iterations s ++ [d]) by reflexivity.
      splits.
      * rewrite I1, Its, <- app_assoc. reflexivity.
      * cbn [flat_map]. rewrite I2, (app_nil_r (round_events b d)).
        apply app_assoc.
      * intros k d0. destruct k as [|k]; cbn [nth_error firstn]; intro H.
        -- inversion H; subst d0. rewrite Nat.add_0_r, app_nil_r. exact CR.
        -- specialize (I3 k d0 H). rewrite Its, <- app_assoc in I3.
           replace (i + S k)%nat with (S i + k)%nat by lia. exact I3.
      * rewrite I4, B1. reflexivity.
      * rewrite I5. reflexivity.
      * rewrite I6. reflexivity.
      * cbn. lia.
      * unfold loop_end in *. destruct r1 as [u|e].
        -- destruct I8 as [[T1 T2]|[d' [T1 [T2 [T3 T4]]]]].
           ++ left. split; [exact T1 | cbn; lia].
           ++ right. exists d'. cbn [length].
              assert (LD : (0 < length ds)%nat).
              { destruct ds; [discriminate T1 | cbn; lia]. }
              replace (S (length ds) - 1)%nat with (S (length ds - 1)) by lia.
              cbn [nth_error]. splits; try assumption. lia.
        -- destruct I8 as [T1 T2]. split; [cbn; lia|].
           cbn [length]. replace (i + S (length ds))%nat
             with (S i + length ds)%nat by lia. exact T2.
Qed.


Lemma generate_process_events_run (s0 : locals) :
  generate_process_events o b rq s0
  = (fst (session o b rq s0), snd (session o b rq s0), Ok tt).
Proof.
  unfold generate_process_events, session, prelude, try_except.
  unfold raise, bind, yield, ret, get, modify, lift.
  destruct (use_rag rq); destruct (rag_retrieve b) as [chunks|e0];
    destruct (smriti_retrieve_similar b) as [[|x l]|e1];
    cbv beta iota;
    try (cbn [app fst snd]; rewrite ?app_nil_r; reflexivity);
    match goal with
    | |- context [for_range ?f ?r ?s] =>
        destruct (for_range f r s) as [[evs s1] [u|e2]]
    end;
    cbv beta iota;
    try (cbn [app fst snd]; rewrite ?app_nil_r; reflexivity);
    destruct (store_request _ _ _ _ _ _) as [|c cs];
    try destruct (smriti_store_error b) as [e3|];
    cbv beta iota; cbn [app fst snd]; rewrite ?app_nil_r, <- ?app_assoc;
    cbn [app]; reflexivity.
Qed.

Lemma event_generator_run (s0 : locals) :
  event_generator o b rq s0 = (fst (session o b rq s0), snd (session o b rq s0), Ok tt).
Proof.
  unfold event_generator, try_except.
  rewrite generate_process_events_run. reflexivity.
Qed.

End LiveRound.

(** ** The live session as a whole *)

Section LiveSession.

Import Live.
Local Open Scope Q_scope.

Variable o : Orchestrator.
Variable b : Backend.
Variable rq : TaskRequest.

Lemma events_session : events o b rq = fst (session o b rq initial).
Proof. unfold events, run. rewrite event_generator_run. reflexivity. Qed.

Lemma final_session : final o b rq = snd (session o b rq initial).
Proof. unfold final, run. rewrite event_generator_run. reflexivity. Qed.

(** The shape of every live session: the events before the loop, one
    block of events per completed round, and the ending. *)
Ltac retarget s1 :=
  match goal with
  | |- session_end _ _ _ _ ?S _ =>
      change (best_solution s1) with (best_solution S);
      change (best_score s1) with (best_score S)
  end.

Lemma session_structure :
  exists (tail : list event),
    let ds := iterations (final o b rq) in
    events o b rq
    = fst (prelude b rq) ++ flat_map (round_events b) ds ++ tail /\
    (forall k d, nth_error ds k = Some d ->
       completed_round o b rq (retrieved b rq) k (firstn k ds) d) /\
    (best_score (final o b rq), best_solution (final o b rq))
    = best_after ds /\
    (length ds <= max_iterations o)%nat /\
    session_end o b rq ds (final o b rq) tail.
Proof.
  rewrite events_session, final_session. unfold session, retrieved.
  destruct (prelude b rq) as [pre [chunks|e]] eqn:P; cbn [fst snd].
  2:{ exists [Ev_error e]. cbn [iterations initial flat_map app].
      splits; try reflexivity.
      - intros k d H. destruct k; discriminate.
      - cbn. lia.
      - apply End_prelude_error; try reflexivity. rewrite P. reflexivity. }
  destruct (for_range (round o b rq chunks) (seq 0 (max_iterations o)) initial)
    as [[evs s1] r] eqn:E.
  destruct (live_loop_spec o b rq chunks _ 0%nat initial evs s1 r eq_refl E)
    as [ds [tail [I1 [I2 [I3 [I4 [I5 [I6 [I7 I8]]]]]]]]].
  cbn [iterations initial app] in I1, I3.
  cbn [best_score best_solution initial] in I4.
  cbn [store_calls background initial] in I5, I6.
  destruct r as [u|e].
  - destruct u.
    destruct (store_request (task rq) (is_code rq) (use_rag rq)
                (best_solution s1) (best_score s1) (iterations s1))
      as [|c cs] eqn:SR.
    + exists (tail ++ [Ev_end (task rq) (best_solution s1) (best_score s1)
                        (iterations s1) (length (iterations s1)) (use_rag rq)]).
      cbn [fst snd iterations add_background add_store_calls
           best_score best_solution].
      rewrite I1 in *. splits.
      * rewrite I2, <- !app_assoc. reflexivity.
      * exact I3.
      * exact I4.
      * exact I7.
      * retarget s1; apply End_end; cbn [store_calls background add_background
                             add_store_calls best_score best_solution].
        -- exact I8.
        -- rewrite I5, SR. reflexivity.
        -- left. rewrite I5. reflexivity.
        -- rewrite I6. unfold analytics_request. cbn. rewrite I1.
           reflexivity.
    + destruct (smriti_store_error b) as [e|] eqn:SE.
      * exists (tail ++ [Ev_error e]).
        cbn [fst snd iterations add_store_calls best_score best_solution].
        rewrite I1 in *. splits.
        -- rewrite I2, <- !app_assoc. reflexivity.
        -- exact I3.
        -- exact I4.
        -- exact I7.
        -- retarget s1; apply End_store_error; cbn [store_calls background add_store_calls
                                        best_score best_solution].
           ++ exact I8.
           ++ rewrite I5, SR. reflexivity.
           ++ rewrite I5. discriminate.
           ++ exact SE.
           ++ exact I6.
      * exists (tail ++ [Ev_end (task rq) (best_solution s1) (best_score s1)
                          (iterations s1) (length (iterations s1))
                          (use_rag rq)]).
        cbn [fst snd iterations add_background add_store_calls
             best_score best_solution].
        rewrite I1 in *. splits.
        -- rewrite I2, <- !app_assoc. reflexivity.
        -- exact I3.
        -- exact I4.
        -- exact I7.
        -- retarget s1; apply End_end; cbn [store_calls background add_background
                                add_store_calls best_score best_solution].
           ++ exact I8.
           ++ rewrite I5, SR. reflexivity.
           ++ right. exact SE.
           ++ rewrite I6. unfold analytics_request. cbn. rewrite I1.
              reflexivity.
  - exists (tail ++ [Ev_error e]). cbn [fst snd].
    rewrite I1 in *. destruct I8 as [L A]. splits.
    + rewrite I2, <- !app_assoc. reflexivity.
    + exact I3.
    + exact I4.
    + exact I7.
    + apply End_round_error; assumption.
Qed.

End LiveSession.

(** ** The kinds of events in each part of a session *)

Section EventKinds.

Import Live.
Local Open Scope Q_scope.

Variable o : Orchestrator.
Variable b : Backend.
Variable rq : TaskRequest.

Lemma token_events_types (i : nat) (toks : list string) :
  forall c, map type (token_events i toks c) = repeat "token" (length toks).
Proof.
  induction toks as [|t rest IH]; intro c; cbn; [reflexivity|].
  rewrite IH. reflexivity.
Qed.

Lemma token_events_in_round (i : nat) (toks : list string) :
  forall c e, In e (token_events i toks c) ->
              in_round (i + 1) e /\ type e = "token".
Proof.
  induction toks as [|t rest IH]; intros c e H; cbn in H; [contradiction|].
  destruct H as [<-|H].
  - split; [split; [left|]|]; reflexivity.
  - exact (IH _ _ H).
Qed.

Lemma generation_events_in_round (i : nat) (e : event) :
  In e (generation_events b i) ->
  in_round (i + 1) e /\ type e <> "iteration_complete".
Proof.
  unfold generation_events. cbn [app]. intros [<-|[<-|H]].
  - split; [split; [left|]; reflexivity | discriminate].
  - split; [split; [right|]; reflexivity | discriminate].
  - apply token_events_in_round in H. destruct H as [H T].
    split; [exact H | rewrite T; discriminate].
Qed.

Lemma critique_events_in_round (i : nat) (e : event) :
  In e (critique_events b i) ->
  in_round (i + 1) e /\ type e <> "iteration_complete".
Proof.
  unfold critique_events. rewrite in_app_iff. intros [H|[<-|[<-|[]]]].
  - apply generation_events_in_round. exact H.
  - split; [split; [left|]; reflexivity | discriminate].
  - split; [split; [left|]; reflexivity | discriminate].
Qed.

Lemma round_events_in_round (d : iteration_data) (e : event) :
  In e (round_events b d) -> in_round (iteration d - 1 + 1) e.
Proof.
  unfold round_events. rewrite in_app_iff.
  intros [H|[<-|[<-|[<-|[<-|[]]]]]].
  - apply critique_events_in_round. exact H.
  - split; [left|]; reflexivity.
  - split; [left|]; reflexivity.
  - split; [left|]; reflexivity.
  - split; [left|]; reflexivity.
Qed.

Lemma round_events_types (d : iteration_data) :
  map type (round_events b d)
  = round_types (length (tokens b (iteration d - 1))).
Proof.
  unfold round_events, critique_events, generation_events, round_types.
  rewrite !map_app. cbn [map type]. rewrite token_events_types.
  cbn [app]. rewrite <- !app_assoc. reflexivity.
Qed.

Lemma round_events_last (d : iteration_data) :
  exists evs, round_events b d
              = evs ++ [Ev_iteration_complete (iteration d - 1 + 1) d].
Proof.
  unfold round_events.
  exists (critique_events b (iteration d - 1)
          ++ [Ev_improving_started (iteration d - 1 + 1);
              Ev_improved_token (agni_output d) (iteration d - 1 + 1)
                (word_count (agni_output d));
              Ev_improved (iteration d - 1 + 1) (agni_output d)
                (agni_output d) (word_count (agni_output d))]).
  rewrite <- app_assoc. reflexivity.
Qed.

Lemma prelude_events_kinds (e : event) :
  In e (fst (prelude b rq)) ->
  (type e = "start" \/ type e = "rag_retrieved" \/ type e = "memory_found")
  /\ is_terminal e = false.
Proof.
  unfold prelude.
  destruct (use_rag rq); [destruct (rag_retrieve b) as [chunks|e0]|];
    destruct (smriti_retrieve_similar b) as [[|x l]|e1];
    cbn [fst app In]; intro H;
    repeat match goal with
           | H : _ \/ _ |- _ => destruct H as [<-|H]
           | H : False |- _ => contradiction
           end;
    cbn; auto.
Qed.

Lemma completed_round_iteration
    (rag : option (list string)) (k : nat) (before : list iteration_data)
    (d : iteration_data) :
  completed_round o b rq rag k before d -> iteration d = (k + 1)%nat.
Proof. intros [_ [_ ->]]. reflexivity. Qed.

Lemma plateau_tail (ds : list iteration_data) (n : nat) (tail : list event) :
  loop_end o b 0 n ds tail (Ok tt) ->
  tail = [] \/ exists x y, tail = [Ev_plateau_reached x y].
Proof.
  intros [[-> _]|[d [_ [-> _]]]]; [left; reflexivity|].
  right. eexists. eexists. reflexivity.
Qed.

Lemma aborted_round_in_round (i : nat) (e : string) (part : list event)
    (ev : event) :
  aborted_round b i e part -> In ev part ->
  in_round (i + 1) ev /\ type ev <> "iteration_complete".
Proof.
  intros [[_ ->]|[_ [_ ->]]] H.
  - apply generation_events_in_round. exact H.
  - apply critique_events_in_round. exact H.
Qed.

(** The ending of a session is a sequence of non-terminal events, none of
    them an [iteration_complete], followed by exactly one terminal
    event. *)
Lemma session_end_terminal (ds : list iteration_data) (s : locals)
    (tail : list event) :
  session_end o b rq ds s tail ->
  exists (evs : list event) (e : event),
    tail = evs ++ [e] /\
    is_terminal e = true /\
    (forall e', In e' evs ->
       is_terminal e' = false /\ type e' <> "iteration_complete") /\
    match e with
    | Ev_end t sol sc its n u =>
        t = task rq /\ sol = best_solution s /\ sc = best_score s /\
        its = ds /\ n = length ds /\ u = use_rag rq
    | _ => iterations_of e = None
    end.
Proof.
  intros [e P D S B | e part A L S B | e plateau LE S N SE B
          | plateau LE S N B].
  - exists [], (Ev_error e). splits; try reflexivity. intros e' [].
  - exists part, (Ev_error e). splits; try reflexivity.
    intros e' H. destruct (aborted_round_in_round _ _ _ _ A H) as [[_ T] C].
    split; assumption.
  - exists plateau, (Ev_error e). splits; try reflexivity.
    intros e' H.
    destruct (plateau_tail _ _ _ LE) as [->|[x [y ->]]]; [destruct H|].
    destruct H as [<-|[]]. split; [reflexivity | discriminate].
  - exists plateau,
      (Ev_end (task rq) (best_solution s) (best_score s) ds (length ds)
         (use_rag rq)).
    splits; try reflexivity.
    intros e' H.
    destruct (plateau_tail _ _ _ LE) as [->|[x [y ->]]]; [destruct H|].
    destruct H as [<-|[]]. split; [reflexivity | discriminate].
Qed.

End EventKinds.

(** ** Event order and terminal events *)

Section EventOrder.

Import Live.
Local Open Scope Q_scope.

Variable o : Orchestrator.
Variable b : Backend.
Variable rq : TaskRequest.

(** C6, as amended.  Every live session yields exactly one terminal event,
    [end] or [error], and it is the last event; the wrapper of
    [process_task_stream] adds none.  An [end] event carries the whole
    round history; an [error] event carries the message only. *)
Theorem exactly_one_terminal_event :
  exists (evs : list event) (e : event),
    events o b rq = evs ++ [e] /\
    is_terminal e = true /\
    (forall e', In e' evs -> is_terminal e' = false) /\
    match e with
    | Ev_end _ _ _ its n _ =>
        its = iterations (final o b rq) /\ n = length its
    | _ => iterations_of e = None
    end /\
    fst (fst (generate_process_events o b rq initial)) = events o b rq.
Proof.
  destruct (session_structure o b rq) as [tail [E [C [_ [_ SE]]]]].
  destruct (session_end_terminal o b rq _ _ _ SE)
    as [evs [t [-> [T [NT P]]]]].
  exists (fst (prelude b rq)
          ++ flat_map (round_events b) (iterations (final o b rq)) ++ evs), t.
  splits.
  - rewrite E, <- !app_assoc. reflexivity.
  - exact T.
  - intros e' H. rewrite !in_app_iff in H. destruct H as [H|[H|H]].
    + exact (proj2 (prelude_events_kinds b rq e' H)).
    + apply in_flat_map in H. destruct H as [d [_ H]].
      exact (proj2 (round_events_in_round b d e' H)).
    + exact (proj1 (NT e' H)).
  - destruct t; try exact P. destruct P as [_ [_ [_ [-> [-> _]]]]].
    split; reflexivity.
  - rewrite events_session, generate_process_events_run. reflexivity.
Qed.

End EventOrder.

(** ** The aggregate loop, round by round *)

Section AggregateRound.

Import Aggregate.
Local Open Scope Q_scope.

Variable o : Orchestrator.
Variable b : Backend.
Variable rq : TaskRequest.
Variable rag : option (list string).

Lemma index_from_end_two {A : Type} (l : list A) (x y : A) :
  index_from_end ((l ++ [x]) ++ [y]) 2 = Ok x.
Proof.
  unfold index_from_end. rewrite !rev_app_distr. reflexivity.
Qed.

Lemma agg_round_raises (i : nat) (st : locals) :
  (exists e, yantra_process b i = Raise e) \/
  (exists e, sutra_process b i = Raise e) \/
  (exists e, agni_process b i = Raise e) ->
  exists e, round o b rq rag i st = Raise e.
Proof.
  unfold round, bind.
  intros [[e H]|[[e H]|[e H]]].
  - rewrite H. exists e. reflexivity.
  - rewrite H. destruct (yantra_process b i); eexists; reflexivity.
  - rewrite H.
    destruct (yantra_process b i); [|eexists; reflexivity].
    destruct (sutra_process b i); eexists; reflexivity.
Qed.

Lemma agg_round_completes (i : nat) (st : locals) (y c a : string) :
  yantra_process b i = Ok y ->
  sutra_process b i = Ok c ->
  agni_process b i = Ok a ->
  (i = 0%nat \/ iterations st <> []) ->
  round o b rq rag i st
  = Ok ({| iterations :=
             iterations st ++ [round_data o rq rag i y c a (iterations st)];
           best_score :=
             fst (update_best (best_score st, best_solution st)
                    (score (round_data o rq rag i y c a (iterations st))) a);
           best_solution :=
             snd (update_best (best_score st, best_solution st)
                    (score (round_data o rq rag i y c a (iterations st))) a) |},
        plateau o i (iterations st)
          (round_data o rq rag i y c a (iterations st))).
Proof.
  intros Y C A NE. unfold round, bind, plateau, round_data.
  rewrite Y, C, A.
  destruct (0 <? i)%nat eqn:Z.
  - destruct NE as [->|NE]; [discriminate|].
    destruct (exists_last NE) as [l [prev E]]. rewrite E.
    rewrite index_from_end_last, index_from_end_two.
    cbn [score andb]. destruct (Py.ltb _ _); reflexivity.
  - reflexivity.
Qed.

(** The loop over [seq i n] from a state with [i] rounds. *)
Lemma agg_loop_spec :
  forall (n i : nat) (st st' : locals),
    length (iterations st) = i ->
    loop o b rq rag (seq i n) st = Ok st' ->
    exists ds : list iteration_data,
      iterations st' = iterations st ++ ds /\
      (forall k d, nth_error ds k = Some d ->
         completed_round o b rq rag (i + k) (iterations st ++ firstn k ds) d) /\
      (best_score st', best_solution st')
      = best_from (best_score st, best_solution st) ds /\
      (length ds <= n)%nat /\
      (forall k d, nth_error ds k = Some d -> (S k < length ds)%nat ->
         plateau o (i + k) (iterations st ++ firstn k ds) d = false) /\
      (length ds = n \/
       exists d, nth_error ds (length ds - 1) = Some d /\
                 plateau o (i + (length ds - 1))
                   (iterations st ++ firstn (length ds - 1) ds) d = true).
Proof.
  induction n as [|n IH]; intros i st st' L E.
  - cbn in E. injection E as <-. exists []. rewrite app_nil_r.
    splits; try reflexivity.
    + intros k d H. destruct k; discriminate.
    + intros k d H. destruct k; discriminate.
    + left. reflexivity.
  - cbn [seq loop] in E.
    destruct (yantra_process b i) as [y|e] eqn:Y.
    2:{ destruct (agg_round_raises i st (or_introl (ex_intro _ e Y))) as [e' R].
        rewrite R in E. discriminate. }
    destruct (sutra_process b i) as [c|e] eqn:C.
    2:{ destruct (agg_round_raises i st
                    (or_intror (or_introl (ex_intro _ e C)))) as [e' R].
        rewrite R in E. discriminate. }
    destruct (agni_process b i) as [a|e] eqn:A.
    2:{ destruct (agg_round_raises i st
                    (or_intror (or_intror (ex_intro _ e A)))) as [e' R].
        rewrite R in E. discriminate. }
    assert (NE : i = 0%nat \/ iterations st <> []).
    { destruct (iterations st); [left; cbn in L; lia | right; discriminate]. }
    rewrite (agg_round_completes i st y c a Y C A NE) in E.
    set (d := round_data o rq rag i y c a (iterations st)) in *.
    assert (CR : completed_round o b rq rag i (iterations st) d).
    { unfold completed_round. splits; try assumption. reflexivity. }
    unfold bind in E. cbn [fst snd] in E.
    destruct (plateau o i (iterations st) d) eqn:STOP.
    + injection E as <-. exists [d]. cbn [iterations best_score best_solution].
      splits; try reflexivity.
      * intros k d' H. destruct k as [|k]; cbn in H.
        -- injection H as <-. rewrite Nat.add_0_r, app_nil_r. exact CR.
        -- destruct k; discriminate.
      * cbn. symmetry. apply surjective_pairing.
      * cbn. lia.
      * intros k d' H K. cbn in K. lia.
      * right. exists d. cbn [length nth_error Nat.sub firstn].
        rewrite Nat.add_0_r, app_nil_r. split; [reflexivity | exact STOP].
    + set (st1 := {| iterations := _ |}) in E.
      assert (L1 : length (iterations st1) = S i).
      { subst st1. cbn. rewrite length_app. cbn. lia. }
      destruct (IH (S i) st1 st' L1 E) as [ds [I1 [I2 [I3 [I4 [I5 I6]]]]]].
      assert (Its : iterations st1 = iterations st ++ [d]) by reflexivity.
      exists (d :: ds). splits.
      * rewrite I1, Its, <- app_assoc. reflexivity.
      * intros k d0. destruct k as [|k]; cbn [nth_error firstn]; intro H.
        -- injection H as <-. rewrite Nat.add_0_r, app_nil_r. exact CR.
        -- specialize (I2 k d0 H). rewrite Its, <- app_assoc in I2.
           replace (i + S k)%nat with (S i + k)%nat by lia. exact I2.
      * rewrite I3. subst st1. cbn [best_score best_solution best_from fold_left].
        rewrite <- surjective_pairing. reflexivity.
      * cbn. lia.
      * intros k d0. destruct k as [|k]; cbn [nth_error firstn length]; intros H K.
        -- injection H as <-. rewrite Nat.add_0_r, app_nil_r. exact STOP.
        -- assert (K' : (S k < length ds)%nat) by lia.
           specialize (I5 k d0 H K'). rewrite Its, <- app_assoc in I5.
           replace (i + S k)%nat with (S i + k)%nat by lia. exact I5.
      * destruct I6 as [I6|[d' [T1 T2]]]; [left; cbn; lia|].
        right. exists d'.
        assert (LD : (0 < length ds)%nat).
        { destruct ds; [discriminate T1 | cbn; lia]. }
        cbn [length].
        replace (S (length ds) - 1)%nat with (S (length ds - 1)) by lia.
        cbn [nth_error firstn]. split; [exact T1|].
        rewrite Its, <- app_assoc in T2.
        replace (i + S (length ds - 1))%nat
          with (S i + (length ds - 1))%nat by lia. exact T2.
Qed.

End AggregateRound.

(** ** The aggregate session as a whole *)

Section AggregateSession.

Import Aggregate.
Local Open Scope Q_scope.

Variable o : Orchestrator.
Variable b : Backend.
Variable rq : TaskRequest.

Lemma process_structure (calls : list store_call) (res : SessionResult) :
  process o b rq = (calls, Ok res) ->
  let h := r_iterations res in
  r_task res = task rq /\
  used_rag res = use_rag rq /\
  total_iterations res = length h /\
  (final_score res, final_solution res) = best_after h /\
  (length h <= max_iterations o)%nat /\
  (forall k d, nth_error h k = Some d ->
     completed_round o b rq (retrieved_chunks b rq) k (firstn k h) d) /\
  (forall k d, nth_error h k = Some d -> (S k < length h)%nat ->
     plateau o k (firstn k h) d = false) /\
  (length h = max_iterations o \/
   exists d, nth_error h (length h - 1) = Some d /\
             plateau o (length h - 1) (firstn (length h - 1) h) d = true) /\
  calls = store_request (task rq) (is_code rq) (use_rag rq)
            (final_solution res) (final_score res) h /\
  (calls = [] \/ smriti_store_error b = None).
Proof.
  unfold process, bind, retrieved_chunks.
  destruct (use_rag rq) eqn:U.
  - destruct (rag_retrieve b) as [chunks|e]; [|discriminate].
    destruct (smriti_retrieve_similar b) as [similar|e]; [|discriminate].
    destruct (loop o b rq (Some chunks) (seq 0 (max_iterations o)) initial)
      as [st|e] eqn:E; [|discriminate].
    destruct (agg_loop_spec o b rq _ _ 0%nat initial st eq_refl E)
      as [ds [I1 [I2 [I3 [I4 [I5 I6]]]]]].
    cbn [iterations initial app] in *.
    destruct (store_request _ _ _ _ _ _) as [|c cs] eqn:SR;
      [|destruct (smriti_store_error b) eqn:SE; [discriminate|]];
      intro H; injection H as <- <-; cbn [r_iterations r_task used_rag
        total_iterations final_score final_solution];
      rewrite I1 in *; splits; auto.
  - destruct (smriti_retrieve_similar b) as [similar|e]; [|discriminate].
    destruct (loop o b rq None (seq 0 (max_iterations o)) initial)
      as [st|e] eqn:E; [|discriminate].
    destruct (agg_loop_spec o b rq _ _ 0%nat initial st eq_refl E)
      as [ds [I1 [I2 [I3 [I4 [I5 I6]]]]]].
    cbn [iterations initial app] in *.
    destruct (store_request _ _ _ _ _ _) as [|c cs] eqn:SR;
      [|destruct (smriti_store_error b) eqn:SE; [discriminate|]];
      intro H; injection H as <- <-; cbn [r_iterations r_task used_rag
        total_iterations final_score final_solution];
      rewrite I1 in *; splits; auto.
Qed.

End AggregateSession.

(** ** The best score and the best solution *)

Section BestScore.

Local Open Scope Q_scope.

Lemma best_from_app (best : Q * option string) (h1 h2 : list iteration_data) :
  best_from best (h1 ++ h2) = best_from (best_from best h1) h2.
Proof. unfold best_from. apply fold_left_app. Qed.

Lemma update_best_ge (best : Q * option string) (s : Q) (t : string) :
  fst best <= fst (update_best best s t).
Proof.
  unfold update_best. destruct (Py.gtb s (fst best)) eqn:G; cbn [fst].
  - apply gtb_gt in G. lra.
  - lra.
Qed.

Lemma best_from_ge (h : list iteration_data) :
  forall best, fst best <= fst (best_from best h).
Proof.
  induction h as [|d h IH]; intro best; cbn.
  - lra.
  - specialize (IH (update_best best (score d) (agni_output d))).
    unfold best_from in IH.
    assert (U := update_best_ge best (score d) (agni_output d)). lra.
Qed.

(** Either no round beats the initial best, or the result is the first
    round that reaches the maximum. *)
Lemma best_from_cases (h : list iteration_data) :
  forall best,
    (best_from best h = best /\ forall d, In d h -> score d <= fst best) \/
    (exists k d,
        nth_error h k = Some d /\
        best_from best h = (score d, Some (agni_output d)) /\
        fst best < score d /\
        (forall d', In d' h -> score d' <= score d) /\
        (forall j d', (j < k)%nat -> nth_error h j = Some d' ->
                      score d' < score d)).
Proof.
  induction h as [|d0 h IH]; intro best.
  - left. split; [reflexivity | intros d []].
  - change (best_from best (d0 :: h))
      with (best_from (update_best best (score d0) (agni_output d0)) h).
    unfold update_best.
    destruct (Py.gtb (score d0) (fst best)) eqn:G.
    + apply gtb_gt in G.
      destruct (IH (score d0, Some (agni_output d0)))
        as [[E A]|[k [d [N [E [L [A F]]]]]]]; cbn [fst] in *.
      * right. exists 0%nat, d0. splits; try assumption; try reflexivity.
        -- intros d' [<-|I]; [lra | exact (A d' I)].
        -- intros j d' J. lia.
      * right. exists (S k), d. splits; try assumption.
        -- lra.
        -- intros d' [<-|I]; [lra | exact (A d' I)].
        -- intros j d' J H. destruct j as [|j]; cbn in H.
           ++ injection H as <-. exact L.
           ++ apply (F j d'); [lia | exact H].
    + apply gtb_le in G.
      destruct (IH best) as [[E A]|[k [d [N [E [L [A F]]]]]]].
      * left. split; [exact E|]. intros d' [<-|I]; [exact G | exact (A d' I)].
      * right. exists (S k), d. splits; try assumption.
        -- intros d' [<-|I]; [lra | exact (A d' I)].
        -- intros j d' J H. destruct j as [|j]; cbn in H.
           ++ injection H as <-. lra.
           ++ apply (F j d'); [lia | exact H].
Qed.

Lemma best_after_monotone (h1 h2 : list iteration_data) :
  fst (best_after h1) <= fst (best_after (h1 ++ h2)).
Proof. unfold best_after. rewrite best_from_app. apply best_from_ge. Qed.

Lemma best_after_maximum (h : list iteration_data) :
  h <> [] ->
  (forall d, In d h -> 0 < score d) ->
  running_maximum h (best_after h).
Proof.
  intros NE P. unfold best_after, running_maximum.
  destruct (best_from_cases h (0.0, None))
    as [[E A]|[k [d [N [E [L [A F]]]]]]]; cbn [fst] in *.
  - exfalso. destruct h as [|d h]; [apply NE; reflexivity|].
    assert (I : In d (d :: h)) by (left; reflexivity).
    specialize (A d I). specialize (P d I). lra.
  - rewrite E. cbn [fst]. split; [exact A|].
    exists k, d. splits; [exact N | reflexivity | exact F].
Qed.

End BestScore.

Section BestScoreOfSessions.

Local Open Scope Q_scope.

Variable o : Orchestrator.
Variable b : Backend.
Variable rq : TaskRequest.

(** C3.  With a scorer whose totals are positive (the evaluator's are), in
    both modes the best score and solution of a session are the update rule
    folded over its round history; the best score never decreases when the
    history grows from a prefix to a longer prefix; and at the end it is
    the maximum score of the history, the best solution being the improved
    text of the first round that reached it. *)
Theorem best_score_running_maximum :
  (forall s t c r, 0 < Evaluator.total (evaluator o s t c r)) ->
  (let h := Live.iterations (Live.final o b rq) in
   (Live.best_score (Live.final o b rq), Live.best_solution (Live.final o b rq))
   = best_after h /\
   (forall h1 h2 h3, h = h1 ++ h2 ++ h3 ->
      fst (best_after h1) <= fst (best_after (h1 ++ h2))) /\
   (h <> [] -> running_maximum h (best_after h))) /\
  (forall calls res,
     Aggregate.process o b rq = (calls, Ok res) ->
     let h := Aggregate.r_iterations res in
     (Aggregate.final_score res, Aggregate.final_solution res) = best_after h /\
     (forall h1 h2 h3, h = h1 ++ h2 ++ h3 ->
        fst (best_after h1) <= fst (best_after (h1 ++ h2))) /\
     (h <> [] -> running_maximum h (best_after h))).
Proof.
  intro POS. split.
  - destruct (session_structure o b rq) as [tail [_ [C [B _]]]].
    cbv zeta in *. splits.
    + exact B.
    + intros h1 h2 h3 _. apply best_after_monotone.
    + intro NE. apply best_after_maximum; [exact NE|].
      intros d I. apply In_nth_error in I. destruct I as [k N].
      destruct (C k d N) as [_ [_ ->]]. cbn [score Live.round_data]. apply POS.
  - intros calls res P.
    destruct (process_structure o b rq calls res P)
      as [_ [_ [_ [B [_ [C _]]]]]].
    cbv zeta in *. splits.
    + exact B.
    + intros h1 h2 h3 _. apply best_after_monotone.
    + intro NE. apply best_after_maximum; [exact NE|].
      intros d I. apply In_nth_error in I. destruct I as [k N].
      destruct (C k d N) as [_ [_ [_ ->]]].
      cbn [score Aggregate.round_data]. apply POS.
Qed.

End BestScoreOfSessions.

(** ** [str.strip] *)

Section Strip.

Lemma lstrip_lstripped (s : string) : Py.lstripped (Py.lstrip s).
Proof.
  induction s as [|c s IH]; cbn; [exact I|].
  destruct (Py.isspace c) eqn:E; [exact IH | exact E].
Qed.

Lemma lstrip_fixed (s : string) : Py.lstripped s -> Py.lstrip s = s.
Proof.
  destruct s as [|c s]; cbn; [reflexivity|]. intros ->. reflexivity.
Qed.

Lemma rstrip_lstripped (s : string) : Py.lstripped s -> Py.lstripped (Py.rstrip s).
Proof.
  destruct s as [|c s]; cbn; [exact (fun H => H)|]. intro E.
  destruct (Py.rstrip s); cbn; [rewrite E; cbn|]; exact E.
Qed.

Lemma rstrip_cons (c : ascii) (s : string) :
  Py.rstrip (String c s)
  = match Py.rstrip s with
    | EmptyString => if Py.isspace c then EmptyString else String c EmptyString
    | String c' r => String c (String c' r)
    end.
Proof. reflexivity. Qed.

Lemma rstrip_idempotent (s : string) : Py.rstrip (Py.rstrip s) = Py.rstrip s.
Proof.
  induction s as [|c s IH]; [reflexivity|].
  rewrite rstrip_cons.
  destruct (Py.rstrip s) as [|c' r] eqn:R.
  - destruct (Py.isspace c) eqn:E; [reflexivity|].
    rewrite rstrip_cons. cbn [Py.rstrip]. rewrite E. reflexivity.
  - rewrite rstrip_cons, IH. reflexivity.
Qed.

Lemma strip_idempotent (s : string) : Py.strip (Py.strip s) = Py.strip s.
Proof.
  unfold Py.strip.
  rewrite (lstrip_fixed (Py.rstrip (Py.lstrip s))).
  - apply rstrip_idempotent.
  - apply rstrip_lstripped. apply lstrip_lstripped.
Qed.

End Strip.

(** ** How a live session that reaches [end] got there *)

Section LiveEnd.

Import Live.
Local Open Scope Q_scope.

Variable o : Orchestrator.
Variable b : Backend.
Variable rq : TaskRequest.

Lemma prelude_ok_chunks (chunks : option (list string)) :
  snd (prelude b rq) = Ok chunks -> chunks = retrieved_chunks b rq.
Proof.
  unfold prelude, retrieved_chunks.
  destruct (use_rag rq); [destruct (rag_retrieve b) as [c|e]|];
    destruct (smriti_retrieve_similar b) as [[|x l]|e1]; cbn [snd];
    intro H; try discriminate; injection H as <-; reflexivity.
Qed.

Lemma prelude_succeeds :
  (use_rag rq = true -> exists chunks, rag_retrieve b = Ok chunks) ->
  (exists similar, smriti_retrieve_similar b = Ok similar) ->
  exists chunks, snd (prelude b rq) = Ok chunks.
Proof.
  intros R [similar M]. unfold prelude. rewrite M.
  destruct (use_rag rq).
  - destruct (R eq_refl) as [chunks ->].
    destruct similar; eexists; reflexivity.
  - destruct similar; eexists; reflexivity.
Qed.

Lemma rounds_need_prelude (e : string) :
  snd (prelude b rq) = Raise e -> iterations (final o b rq) = [].
Proof.
  intro P. rewrite final_session. unfold session.
  destruct (prelude b rq) as [pre r]. cbn [snd] in P. subst r. reflexivity.
Qed.

Lemma retrieved_of_round (k : nat) (d : iteration_data) :
  nth_error (iterations (final o b rq)) k = Some d ->
  retrieved b rq = retrieved_chunks b rq.
Proof.
  intro N. unfold retrieved.
  destruct (snd (prelude b rq)) as [chunks|e] eqn:P.
  - apply prelude_ok_chunks. exact P.
  - rewrite (rounds_need_prelude e P) in N. destruct k; discriminate.
Qed.

(** Rounds whose Generator and Critic calls succeed are completed, up to
    the plateau test: that test can stop the loop after the second round
    at the earliest, and only for a positive [min_improvement]. *)
Lemma live_progress (n : nat) :
  (n <= max_iterations o)%nat ->
  (exists chunks, snd (prelude b rq) = Ok chunks) ->
  (forall i, (i < n)%nat ->
     BaseAgent.failure (yantra_reply b i) = None /\
     exists c, sutra_process b i = Ok c) ->
  (Nat.min n 2 <= length (iterations (final o b rq)))%nat /\
  (min_improvement o <= 0 -> (n <= length (iterations (final o b rq)))%nat).
Proof.
  intros M [chunks P] OK.
  destruct (session_structure o b rq) as [tail [_ [_ [_ [_ SE]]]]].
  destruct SE as [e P' D SC Bk | e part A Lt SC Bk | e plateau LE SC N X Bk
                 | plateau LE SC N Bk].
  - rewrite P in P'. discriminate.
  - assert (G : (n <= length (iterations (final o b rq)))%nat).
    { destruct (Nat.le_gt_cases n (length (iterations (final o b rq))))
        as [G|G]; [exact G|].
      exfalso. destruct (OK _ G) as [F [c Su]].
      destruct A as [[A _]|[_ [A _]]].
      - rewrite F in A. discriminate.
      - rewrite Su in A. discriminate. }
    split; [lia | intros _; exact G].
  - destruct LE as [[_ L]|[d [_ [_ [K Pl]]]]].
    + split; [lia | intros _; lia].
    + split; [lia|]. intro Z. apply ltb_lt in Pl. lra.
  - destruct LE as [[_ L]|[d [_ [_ [K Pl]]]]].
    + split; [lia | intros _; lia].
    + split; [lia|]. intro Z. apply ltb_lt in Pl. lra.
Qed.

(** The payload of the [end] event and what was done before it. *)
Lemma end_event_inversion
    (evs : list event) (t : string) (sol : option string) (sc : Q)
    (its : list iteration_data) (n : nat) (u : bool) :
  events o b rq = evs ++ [Ev_end t sol sc its n u] ->
  t = task rq /\
  sol = best_solution (final o b rq) /\
  sc = best_score (final o b rq) /\
  its = iterations (final o b rq) /\
  n = length its /\
  u = use_rag rq /\
  store_calls (final o b rq)
  = store_request (task rq) (is_code rq) (use_rag rq) sol sc its /\
  (its <> [] \/ max_iterations o = 0%nat).
Proof.
  intro E.
  destruct (session_structure o b rq) as [tail [S [_ [_ [_ SE]]]]].
  cbv zeta in S. rewrite S in E.
  destruct SE as [e P D SC B | e part A L SC B | e plateau LE SC N X B
                 | plateau LE SC N B];
    rewrite ?app_assoc in E; apply app_inj_tail in E; destruct E as [_ E];
    try discriminate.
  injection E as <- <- <- <- <- <-. splits; try reflexivity.
  - exact SC.
  - destruct LE as [[_ L]|[d [N' _]]].
    + destruct (iterations (final o b rq)); [right; cbn in L; lia|].
      left. discriminate.
    + left. intro Z. rewrite Z in N'. discriminate.
Qed.

End LiveEnd.

(** ** The events of a round *)

Section RoundOrder.

Import Live Consumer.
Local Open Scope Q_scope.

Variable o : Orchestrator.
Variable b : Backend.
Variable rq : TaskRequest.

Lemma of_round_other (m n : nat) (e : event) :
  in_round m e -> m <> n -> of_round n e = false.
Proof.
  intros [[I|T] _] N; unfold of_round.
  - rewrite I. apply Nat.eqb_neq. exact N.
  - destruct e; try discriminate T. reflexivity.
Qed.

Lemma events_of_round_none (n : nat) (l : list event) :
  (forall e, In e l -> of_round n e = false) -> events_of_round n l = [].
Proof.
  unfold events_of_round.
  induction l as [|x l IH]; intro H; cbn [filter]; [reflexivity|].
  rewrite (H x (or_introl eq_refl)). apply IH.
  intros e I. apply H. right. exact I.
Qed.

Lemma events_of_round_app (n : nat) (l1 l2 : list event) :
  events_of_round n (l1 ++ l2) = events_of_round n l1 ++ events_of_round n l2.
Proof. apply filter_app. Qed.

Lemma events_of_round_tokens (i : nat) (toks : list string) :
  forall c,
    events_of_round (i + 1) (token_events i toks c) = token_events i toks c.
Proof.
  unfold events_of_round.
  induction toks as [|t rest IH]; intro c; cbn [token_events filter];
    [reflexivity|].
  unfold of_round at 1. cbn [iteration_of].
  rewrite Nat.eqb_refl, IH. reflexivity.
Qed.

Lemma events_of_round_block (d : iteration_data) :
  map type (events_of_round (iteration d - 1 + 1) (round_events b d))
  = keyed_round_types (length (tokens b (iteration d - 1))).
Proof.
  unfold round_events, critique_events, generation_events.
  rewrite !events_of_round_app, events_of_round_tokens.
  unfold events_of_round, of_round. cbn [filter iteration_of].
  rewrite Nat.eqb_refl. cbn [app].
  unfold keyed_round_types.
  cbn [map type app]. rewrite !map_app, token_events_types, <- app_assoc.
  reflexivity.
Qed.

Lemma generation_events_types (i : nat) :
  map type (generation_events b i)
  = ["iteration_start"; "first_response_started"]
    ++ repeat "token" (length (tokens b i)).
Proof.
  unfold generation_events. rewrite map_app, token_events_types. reflexivity.
Qed.

Lemma critique_events_types (i : nat) :
  map type (critique_events b i)
  = ["iteration_start"; "first_response_started"]
    ++ repeat "token" (length (tokens b i))
    ++ ["first_response_complete"; "sutra_started"].
Proof.
  unfold critique_events.
  rewrite map_app, generation_events_types, <- app_assoc. reflexivity.
Qed.

(** The ending of a session: nothing, the plateau notice, or the events
    of the round that was started and not completed, and then the
    terminal event. *)
Lemma session_end_shape (ds : list iteration_data) (s : locals)
    (tail : list event) :
  session_end o b rq ds s tail ->
  exists (part : list event) (last : event),
    tail = part ++ [last] /\
    is_terminal last = true /\
    (part = [] \/
     (exists x y, part = [Ev_plateau_reached x y]) \/
     ((exists n,
          map type part
          = ["iteration_start"; "first_response_started"]
            ++ repeat "token" n \/
          map type part
          = ["iteration_start"; "first_response_started"]
            ++ repeat "token" n
            ++ ["first_response_complete"; "sutra_started"]) /\
      (forall e, In e part ->
         iteration_of e = Some (length ds + 1)%nat \/
         type e = "first_response_started") /\
      type last = "error")).
Proof.
  intros [e P D S B | e part A L S B | e plateau LE S N SE B
          | plateau LE S N B].
  - exists [], (Ev_error e). splits; try reflexivity. left. reflexivity.
  - exists part, (Ev_error e). splits; try reflexivity.
    right. right. splits.
    + destruct A as [[_ ->]|[_ [_ ->]]].
      * eexists. left. apply generation_events_types.
      * eexists. right. apply critique_events_types.
    + intros e' H.
      destruct (aborted_round_in_round b _ _ _ _ A H) as [[I _] _]. exact I.
    + reflexivity.
  - exists plateau, (Ev_error e). splits; try reflexivity.
    destruct (plateau_tail o b _ _ _ LE) as [->|X];
      [left; reflexivity | right; left; exact X].
  - exists plateau,
      (Ev_end (task rq) (best_solution s) (best_score s) ds (length ds)
         (use_rag rq)).
    splits; try reflexivity.
    destruct (plateau_tail o b _ _ _ LE) as [->|X];
      [left; reflexivity | right; left; exact X].
Qed.

Lemma session_end_of_round (ds : list iteration_data) (s : locals)
    (tail : list event) (k : nat) :
  session_end o b rq ds s tail -> (k < length ds)%nat ->
  forall e, In e tail -> of_round (k + 1) e = false.
Proof.
  intros SE K e H.
  destruct (session_end_shape ds s tail SE)
    as [part [last [-> [T [->|[[x [y ->]]|[_ [I _]]]]]]]].
  - destruct H as [<-|[]]. destruct last; try discriminate T; reflexivity.
  - destruct H as [<-|[<-|[]]]; [reflexivity|].
    destruct last; try discriminate T; reflexivity.
  - apply in_app_iff in H. destruct H as [H|[<-|[]]].
    + unfold of_round. destruct (I e H) as [J|J].
      * rewrite J. apply Nat.eqb_neq. lia.
      * destruct e; try discriminate J. reflexivity.
    + destruct last; try discriminate T; reflexivity.
Qed.

Lemma numbered_split (ds l1 l2 : list iteration_data) (d : iteration_data) :
  (forall j x, nth_error ds j = Some x -> iteration x = (j + 1)%nat) ->
  ds = l1 ++ d :: l2 ->
  (forall x, In x l1 ->
     exists j, (j < length l1)%nat /\ iteration x = (j + 1)%nat) /\
  iteration d = (length l1 + 1)%nat /\
  (forall x, In x l2 ->
     exists j, (length l1 < j)%nat /\ iteration x = (j + 1)%nat).
Proof.
  intros Num ->. splits.
  - intros x I. apply In_nth_error in I. destruct I as [j N].
    assert (J : (j < length l1)%nat).
    { apply nth_error_Some. rewrite N. discriminate. }
    exists j. split; [exact J|]. apply Num.
    rewrite nth_error_app1; assumption.
  - apply Num. rewrite nth_error_app2, Nat.sub_diag; [reflexivity | lia].
  - intros x I. apply In_nth_error in I. destruct I as [j N].
    exists (length l1 + S j)%nat. split; [lia|]. apply Num.
    rewrite nth_error_app2; [|lia].
    replace (length l1 + S j - length l1)%nat with (S j) by lia.
    exact N.
Qed.

Lemma blocks_in_round (l : list iteration_data) (e : event) :
  In e (flat_map (round_events b) l) ->
  exists d, In d l /\ in_round (iteration d - 1 + 1) e.
Proof.
  intro H. apply in_flat_map in H. destruct H as [d [I H]].
  exists d. split; [exact I|]. exact (round_events_in_round b d e H).
Qed.

Lemma split_after {A : Type} (x : A) (l2 : list A) :
  forall (a l1 c : list A),
    l1 ++ x :: l2 = a ++ c -> ~ In x a -> exists c1, c = c1 ++ x :: l2.
Proof.
  induction a as [|y a IH]; intros l1 c E N.
  - exists l1. symmetry. exact E.
  - destruct l1 as [|z l1]; cbn in E; injection E as E1 E2.
    + exfalso. apply N. left. symmetry. exact E1.
    + apply (IH l1 c E2). intro I. apply N. right. exact I.
Qed.

(** C5.  The events of a live session are the events before the loop,
    then one contiguous block per completed round, in round order, then
    the ending.  (1) The [type]s of a block are exactly [iteration_start],
    [first_response_started], some [token]s, [first_response_complete],
    [sutra_started], [improving_started], one [improved_token], one
    [improved], [iteration_complete]; every event of block [k] that has an
    [iteration] carries [k + 1]; the block ends with the
    [iteration_complete] of the [k]-th round of the history.  (2) The
    ending is the terminal event, preceded by nothing, or by the plateau
    notice, or by the events of the round that was started and not
    completed, which carry the next round number.  (3) For every completed
    round, the events of the whole stream that carry its number are those
    of its block: their types are [iteration_start], the [token]s,
    [first_response_complete], [sutra_started], [improving_started],
    [improved_token], [improved], [iteration_complete], each once and in
    that order; and none of them comes after the [iteration_start] of the
    next round.  (4) Rounds are completed as long as the calls before the
    loop, the Generator and the Critic succeed: the first two of them at
    least, and all of them when [min_improvement <= 0]. *)
Theorem round_event_order :
  exists (pre : list event) (blocks : list (list event)) (tail : list event),
    events o b rq = pre ++ concat blocks ++ tail /\
    length blocks = length (iterations (final o b rq)) /\
    (forall e, In e pre ->
       type e = "start" \/ type e = "rag_retrieved" \/ type e = "memory_found") /\
    (forall k blk, nth_error blocks k = Some blk ->
       (exists n, map type blk = round_types n) /\
       (forall e, In e blk ->
          iteration_of e = Some (k + 1)%nat \/
          type e = "first_response_started") /\
       (exists d evs,
          nth_error (iterations (final o b rq)) k = Some d /\
          blk = evs ++ [Ev_iteration_complete (k + 1) d])) /\
    (forall e, In e tail -> type e <> "iteration_complete") /\
    (exists (part : list event) (last : event),
       tail = part ++ [last] /\
       is_terminal last = true /\
       (part = [] \/
        (exists x y, part = [Ev_plateau_reached x y]) \/
        ((exists n,
             map type part
             = ["iteration_start"; "first_response_started"]
               ++ repeat "token" n \/
             map type part
             = ["iteration_start"; "first_response_started"]
               ++ repeat "token" n
               ++ ["first_response_complete"; "sutra_started"]) /\
         (forall e, In e part ->
            iteration_of e = Some (length blocks + 1)%nat \/
            type e = "first_response_started") /\
         type last = "error"))) /\
    (forall k, (k < length blocks)%nat ->
       (exists n,
           map type (events_of_round (k + 1) (events o b rq))
           = keyed_round_types n) /\
       (exists blk,
           nth_error blocks k = Some blk /\
           events_of_round (k + 1) (events o b rq)
           = events_of_round (k + 1) blk) /\
       (forall evs1 evs2,
          events o b rq = evs1 ++ Ev_iteration_start (k + 2) :: evs2 ->
          events_of_round (k + 1) evs2 = [])) /\
    (forall n,
       (n <= max_iterations o)%nat ->
       (use_rag rq = true -> exists chunks, rag_retrieve b = Ok chunks) ->
       (exists similar, smriti_retrieve_similar b = Ok similar) ->
       (forall i, (i < n)%nat ->
          BaseAgent.failure (yantra_reply b i) = None /\
          exists c, sutra_process b i = Ok c) ->
       (Nat.min n 2 <= length blocks)%nat /\
       (min_improvement o <= 0 -> (n <= length blocks)%nat)).
Proof.
  destruct (session_structure o b rq) as [tail [E [C [_ [_ SE]]]]].
  cbv zeta in E, C.
  assert (Num : forall j x,
             nth_error (iterations (final o b rq)) j = Some x ->
             iteration x = (j + 1)%nat).
  { intros j x N. exact (completed_round_iteration o b rq _ _ _ _ (C j x N)). }
  exists (fst (prelude b rq)),
         (map (round_events b) (iterations (final o b rq))), tail.
  rewrite length_map. splits.
  - rewrite E, flat_map_concat_map. reflexivity.
  - reflexivity.
  - intros e H. apply (prelude_events_kinds b rq e H).
  - intros k blk H. rewrite nth_error_map in H.
    destruct (nth_error (iterations (final o b rq)) k) as [d|] eqn:N;
      [|discriminate].
    cbn in H. injection H as <-.
    assert (I := Num k d N).
    assert (I' : (iteration d - 1 + 1 = k + 1)%nat) by lia.
    splits.
    + eexists. apply round_events_types.
    + intros e He. apply round_events_in_round in He.
      rewrite I' in He. exact (proj1 He).
    + destruct (round_events_last b d) as [evs L].
      rewrite I' in L. exists d, evs. split; [reflexivity | exact L].
  - intros e H.
    destruct (session_end_terminal o b rq _ _ _ SE)
      as [evs [t [-> [T [NT _]]]]].
    apply in_app_iff in H. destruct H as [H|[<-|[]]].
    + exact (proj2 (NT e H)).
    + destruct t; try discriminate.
  - exact (session_end_shape _ _ _ SE).
  - intros k K.
    destruct (nth_error (iterations (final o b rq)) k) as [d|] eqn:N.
    2:{ apply nth_error_None in N. lia. }
    destruct (nth_error_split _ _ N) as [l1 [l2 [Eds L1]]].
    destruct (numbered_split _ l1 l2 d Num Eds) as [N1 [Nd N2]].
    rewrite L1 in N1, Nd, N2.
    assert (I' : (iteration d - 1 + 1 = k + 1)%nat) by lia.
    assert (Ppre : forall e, In e (fst (prelude b rq)) ->
                             iteration_of e = None).
    { intros e H.
      destruct (prelude_events_kinds b rq e H) as [[T|[T|T]] _];
        destruct e; try discriminate T; reflexivity. }
    assert (P1 : forall e, In e (flat_map (round_events b) l1) ->
                   exists j, (j < k)%nat /\ in_round (j + 1) e).
    { intros e H. destruct (blocks_in_round l1 e H) as [x [Ix R]].
      destruct (N1 x Ix) as [j [J Ij]]. exists j. split; [exact J|].
      replace (j + 1)%nat with (iteration x - 1 + 1)%nat by lia. exact R. }
    assert (Pd : forall e, In e (round_events b d) -> in_round (k + 1) e).
    { intros e H. rewrite <- I'. exact (round_events_in_round b d e H). }
    assert (P2 : forall e, In e (flat_map (round_events b) l2) ->
                   exists j, (k < j)%nat /\ in_round (j + 1) e).
    { intros e H. destruct (blocks_in_round l2 e H) as [x [Ix R]].
      destruct (N2 x Ix) as [j [J Ij]]. exists j. split; [exact J|].
      replace (j + 1)%nat with (iteration x - 1 + 1)%nat by lia. exact R. }
    assert (Ptail := session_end_of_round _ _ _ k SE K).
    assert (Split : events o b rq
                    = (fst (prelude b rq) ++ flat_map (round_events b) l1
                       ++ round_events b d)
                      ++ (flat_map (round_events b) l2 ++ tail)).
    { rewrite E, Eds, flat_map_app. cbn [flat_map].
      rewrite <- !app_assoc. reflexivity. }
    assert (After : forall e,
               In e (flat_map (round_events b) l2 ++ tail) ->
               of_round (k + 1) e = false).
    { intros e H. apply in_app_iff in H. destruct H as [H|H].
      - destruct (P2 e H) as [j [J R]].
        apply (of_round_other (j + 1)); [exact R | lia].
      - exact (Ptail e H). }
    assert (Whole : events_of_round (k + 1) (events o b rq)
                    = events_of_round (k + 1) (round_events b d)).
    { rewrite Split, !events_of_round_app.
      rewrite (events_of_round_none _ (fst (prelude b rq))).
      2:{ intros e H. unfold of_round. rewrite (Ppre e H). reflexivity. }
      rewrite (events_of_round_none _ (flat_map (round_events b) l1)).
      2:{ intros e H. destruct (P1 e H) as [j [J R]].
          apply (of_round_other (j + 1)); [exact R | lia]. }
      rewrite <- events_of_round_app.
      rewrite (events_of_round_none _ (flat_map (round_events b) l2 ++ tail)
                 After).
      cbn [app]. apply app_nil_r. }
    splits.
    + exists (length (tokens b (iteration d - 1))).
      rewrite Whole, <- I'. apply events_of_round_block.
    + exists (round_events b d). split; [|exact Whole].
      rewrite nth_error_map, N. reflexivity.
    + intros evs1 evs2 Ev. rewrite Split in Ev. symmetry in Ev.
      destruct (split_after _ evs2 _ evs1 _ Ev) as [c1 Ec].
      * intro H. rewrite !in_app_iff in H. destruct H as [H|[H|H]].
        -- specialize (Ppre _ H). discriminate Ppre.
        -- destruct (P1 _ H) as [j [J [[R|R] _]]]; [|discriminate R].
           cbn in R. injection R as R. lia.
        -- destruct (Pd _ H) as [[R|R] _]; [|discriminate R].
           cbn in R. injection R as R. lia.
      * apply events_of_round_none. intros e H. apply After.
        rewrite Ec. apply in_or_app. right. right. exact H.
  - intros n M R Me OK.
    exact (live_progress o b rq n M (prelude_succeeds b rq R Me) OK).
Qed.

End RoundOrder.

(** ** Persistence *)

Section Persistence.

Local Open Scope Q_scope.

Variable o : Orchestrator.
Variable b : Backend.
Variable rq : TaskRequest.

Lemma store_request_cases
    (sol : option string) (sc : Q) (its : list iteration_data) :
  (0.6 < sc ->
   store_request (task rq) (is_code rq) (use_rag rq) sol sc its
   = [ {| st_task := task rq;
          st_solution := sol;
          st_quality_score := sc;
          st_metadata := {| md_is_code := is_code rq;
                            md_used_rag := use_rag rq;
                            md_iterations := length its |} |} ]) /\
  (sc <= 0.6 ->
   store_request (task rq) (is_code rq) (use_rag rq) sol sc its = []).
Proof.
  unfold store_request. split; intro H.
  - apply gtb_gt in H. rewrite H. reflexivity.
  - apply gtb_le in H. rewrite H. reflexivity.
Qed.

Lemma store_request_above
    (sol : option string) (sc : Q) (its : list iteration_data) :
  (store_request (task rq) (is_code rq) (use_rag rq) sol sc its = [] /\
   sc <= 0.6) \/
  (0.6 < sc /\
   store_request (task rq) (is_code rq) (use_rag rq) sol sc its
   = [ {| st_task := task rq;
          st_solution := sol;
          st_quality_score := sc;
          st_metadata := {| md_is_code := is_code rq;
                            md_used_rag := use_rag rq;
                            md_iterations := length its |} |} ]).
Proof.
  unfold store_request. destruct (Py.gtb sc 0.6) eqn:G.
  - right. split; [apply gtb_gt; exact G | reflexivity].
  - left. split; [reflexivity | apply gtb_le; exact G].
Qed.

(** C7, as amended.  In both modes a session that reaches its final
    result calls [Smriti.store] exactly once when its final best score is
    strictly greater than 0.6, with the task, the best solution, that
    score and the session metadata, and not at all otherwise.  A session
    that fails has made no call to [Smriti.store], whatever its best score
    was, unless the failure is the exception of that call; in that case
    the call was the only one and its score was above 0.6. *)
Theorem store_iff_best_score_above_floor :
  (forall calls res,
     Aggregate.process o b rq = (calls, Ok res) ->
     (0.6 < Aggregate.final_score res ->
      calls = [ {| st_task := task rq;
                   st_solution := Aggregate.final_solution res;
                   st_quality_score := Aggregate.final_score res;
                   st_metadata :=
                     {| md_is_code := is_code rq;
                        md_used_rag := use_rag rq;
                        md_iterations := Aggregate.total_iterations res |} |} ])
     /\ (Aggregate.final_score res <= 0.6 -> calls = [])) /\
  (forall evs t sol sc its n u,
     Live.events o b rq = evs ++ [Live.Ev_end t sol sc its n u] ->
     (0.6 < sc ->
      Live.store_calls (Live.final o b rq)
      = [ {| st_task := task rq;
             st_solution := sol;
             st_quality_score := sc;
             st_metadata := {| md_is_code := is_code rq;
                               md_used_rag := use_rag rq;
                               md_iterations := n |} |} ])
     /\ (sc <= 0.6 -> Live.store_calls (Live.final o b rq) = [])) /\
  (forall calls e,
     Aggregate.process o b rq = (calls, Raise e) ->
     calls = [] \/
     (smriti_store_error b = Some e /\
      exists sol sc n,
        0.6 < sc /\
        calls = [ {| st_task := task rq;
                     st_solution := sol;
                     st_quality_score := sc;
                     st_metadata := {| md_is_code := is_code rq;
                                       md_used_rag := use_rag rq;
                                       md_iterations := n |} |} ])) /\
  (forall evs e,
     Live.events o b rq = evs ++ [Live.Ev_error e] ->
     Live.store_calls (Live.final o b rq) = [] \/
     (smriti_store_error b = Some e /\
      0.6 < Live.best_score (Live.final o b rq) /\
      Live.store_calls (Live.final o b rq)
      = [ {| st_task := task rq;
             st_solution := Live.best_solution (Live.final o b rq);
             st_quality_score := Live.best_score (Live.final o b rq);
             st_metadata :=
               {| md_is_code := is_code rq;
                  md_used_rag := use_rag rq;
                  md_iterations :=
                    length (Live.iterations (Live.final o b rq)) |} |} ])).
Proof.
  splits.
  - intros calls res P.
    destruct (process_structure o b rq calls res P)
      as [_ [_ [T [_ [_ [_ [_ [_ [C _]]]]]]]]].
    cbv zeta in C. rewrite C, T.
    apply store_request_cases.
  - intros evs t sol sc its n u E.
    destruct (end_event_inversion o b rq _ _ _ _ _ _ _ E)
      as [_ [_ [_ [_ [N [_ [S _]]]]]]].
    rewrite S, N. apply store_request_cases.
  - intros calls e. unfold Aggregate.process.
    destruct (Aggregate.bind _ _) as [[rag st]|e0].
    + destruct (store_request_above (Aggregate.best_solution st)
                  (Aggregate.best_score st) (Aggregate.iterations st))
        as [[-> _]|[G ->]]; [discriminate|].
      destruct (smriti_store_error b) as [e1|]; [|discriminate].
      intro H. injection H as <- <-. right. split; [reflexivity|].
      eexists. eexists. eexists. split; [exact G | reflexivity].
    + intro H. injection H as <- _. left. reflexivity.
  - intros evs e E.
    destruct (session_structure o b rq) as [tail [S [_ [_ [_ SE]]]]].
    cbv zeta in S. rewrite S in E.
    destruct SE as [e0 P D SC B | e0 part A L SC B | e0 plateau LE SC N X B
                   | plateau LE SC N B];
      rewrite ?app_assoc in E; apply app_inj_tail in E; destruct E as [_ E];
      try discriminate; injection E as <-.
    + left. exact SC.
    + left. exact SC.
    + right. split; [exact X|].
      destruct (store_request_above
                  (Live.best_solution (Live.final o b rq))
                  (Live.best_score (Live.final o b rq))
                  (Live.iterations (Live.final o b rq)))
        as [[Z _]|[G Z]]; rewrite Z in SC.
      * contradiction.
      * split; [exact G | exact SC].
Qed.

End Persistence.

(** ** Adapter failures *)

Section AdapterFailures.

Import Live.
Local Open Scope Q_scope.

Variable o : Orchestrator.
Variable b : Backend.
Variable rq : TaskRequest.

Lemma improved_text_on_failure (i : nat) (e : string) :
  agni_process b i = Raise e ->
  improved_text b i = "Error generating improved output. Please try again.".
Proof.
  unfold agni_process, improved_text. intros ->. reflexivity.
Qed.

Lemma improved_text_on_empty (i : nat) :
  agni_process b i = Ok "" ->
  improved_text b i = "Unable to generate improved output".
Proof.
  unfold agni_process, improved_text. intros ->. reflexivity.
Qed.


Lemma history_index (k : nat) (d : iteration_data) :
  nth_error (iterations (final o b rq)) k = Some d ->
  iteration d = (k + 1)%nat /\
  BaseAgent.failure (yantra_reply b k) = None /\
  sutra_process b k = Ok (sutra_critique d) /\
  agni_output d = improved_text b k /\
  score d = Evaluator.total
              (evaluator o (agni_output d) (task rq) (is_code rq)
                 (retrieved b rq)).
Proof.
  intro N.
  destruct (session_structure o b rq) as [tail [_ [C _]]].
  destruct (C k d N) as [F [S D]].
  splits; try assumption; rewrite D; reflexivity.
Qed.

(** C2, as amended.  With a scorer whose totals are positive: (1) when the
    retrieval, the memory lookup, the store and the Generator and Critic
    calls of every round succeed, a live session ends with an [end] event,
    between 1 and [max_iterations] rounds and a non-null final solution,
    whatever the Improver calls do; (2) in every completed round the
    improved text is the placeholder for a failed or an empty Improver
    answer, and the round is scored on that text; (3) a round that is
    started and whose Generator or Critic call fails is abandoned: the
    session ends with an [error] event and that round is not in the
    history. *)
Theorem improver_failure_degrades_round :
  (forall s t c r, 0 < Evaluator.total (evaluator o s t c r)) ->
  ((1 <= max_iterations o)%nat ->
   (use_rag rq = true -> exists chunks, rag_retrieve b = Ok chunks) ->
   (exists similar, smriti_retrieve_similar b = Ok similar) ->
   smriti_store_error b = None ->
   (forall i, (i < max_iterations o)%nat ->
      BaseAgent.failure (yantra_reply b i) = None /\
      exists c, sutra_process b i = Ok c) ->
   exists evs sol sc n,
     events o b rq
     = evs ++ [Ev_end (task rq) (Some sol) sc (iterations (final o b rq)) n
                 (use_rag rq)] /\
     n = length (iterations (final o b rq)) /\
     (1 <= n <= max_iterations o)%nat) /\
  (forall k d,
     nth_error (iterations (final o b rq)) k = Some d ->
     (forall e, agni_process b k = Raise e ->
        agni_output d = "Error generating improved output. Please try again.") /\
     (agni_process b k = Ok "" ->
        agni_output d = "Unable to generate improved output") /\
     score d = Evaluator.total
                 (evaluator o (agni_output d) (task rq) (is_code rq)
                    (retrieved b rq))) /\
  (forall i,
     In (Ev_iteration_start (i + 1)) (events o b rq) ->
     (BaseAgent.failure (yantra_reply b i) <> None \/
      exists e, sutra_process b i = Raise e) ->
     exists evs e,
       events o b rq = evs ++ [Ev_error e] /\
       length (iterations (final o b rq)) = i).
Proof.
  intro POS.
  destruct (session_structure o b rq) as [tail [S [C [B [L SE]]]]].
  cbv zeta in S, C, B, L. splits.
  - intros M R Me St OK.
    destruct (prelude_succeeds b rq R Me) as [chunks P].
    destruct SE as [e P' D SC Bk | e part A Lt SC Bk | e plateau LE SC N X Bk
                   | plateau LE SC N Bk].
    + rewrite P in P'. discriminate.
    + exfalso. destruct (OK _ Lt) as [F [c Su]].
      destruct A as [[A _]|[_ [A _]]].
      * rewrite F in A. discriminate.
      * rewrite Su in A. discriminate.
    + rewrite St in X. discriminate.
    + assert (NE : iterations (final o b rq) <> []).
      { destruct LE as [[_ L']|[d [N' _]]].
        - intro Z. rewrite Z in L'. cbn in L'. lia.
        - intro Z. rewrite Z in N'. discriminate. }
      assert (RM : running_maximum (iterations (final o b rq))
                     (best_after (iterations (final o b rq)))).
      { apply best_after_maximum; [exact NE|].
        intros d I. apply In_nth_error in I. destruct I as [k Nk].
        destruct (history_index k d Nk) as [_ [_ [_ [_ ->]]]]. apply POS. }
      destruct RM as [_ [k [d [_ [E _]]]]]. rewrite <- B in E.
      injection E as E1 E2.
      exists (fst (prelude b rq)
              ++ flat_map (round_events b) (iterations (final o b rq))
              ++ plateau),
             (agni_output d), (best_score (final o b rq)),
             (length (iterations (final o b rq))).
      splits.
      * rewrite S, E2, <- !app_assoc. reflexivity.
      * reflexivity.
      * destruct (iterations (final o b rq)); [contradiction NE; reflexivity|].
        cbn. lia.
      * exact L.
  - intros k d N.
    destruct (history_index k d N) as [_ [_ [_ [T Sc]]]]. splits.
    + intros e A. rewrite T. exact (improved_text_on_failure k e A).
    + intro A. rewrite T. exact (improved_text_on_empty k A).
    + exact Sc.
  - intros i I F. rewrite S in I. rewrite !in_app_iff in I.
    destruct I as [I|[I|I]].
    + destruct (prelude_events_kinds b rq _ I) as [[T|[T|T]] _];
        discriminate T.
    + exfalso. apply in_flat_map in I. destruct I as [d [Id I]].
      apply In_nth_error in Id. destruct Id as [k Nk].
      destruct (history_index k d Nk) as [It [Fy [Su _]]].
      apply round_events_in_round in I. destruct I as [[I|I] _];
        [|discriminate I].
      cbn in I. injection I as I.
      assert (K : i = k) by lia. subst i.
      destruct F as [F|[e F]]; [exact (F Fy)|].
      rewrite Su in F. discriminate.
    + destruct SE as [e P' D SC Bk | e part A Lt SC Bk
                     | e plateau LE SC N X Bk | plateau LE SC N Bk].
      * destruct I as [I|[]]. discriminate I.
      * apply in_app_iff in I. destruct I as [I|[I|[]]]; [|discriminate I].
        destruct (aborted_round_in_round b _ _ _ _ A I) as [[[J|J] _] _];
          [|discriminate J].
        cbn in J. injection J as J.
        exists (fst (prelude b rq)
                ++ flat_map (round_events b) (iterations (final o b rq))
                ++ part), e.
        split; [rewrite S, <- !app_assoc; reflexivity | lia].
      * apply in_app_iff in I. destruct I as [I|[I|[]]]; [|discriminate I].
        destruct (plateau_tail o b _ _ _ LE) as [Z|[x [y Z]]];
          rewrite Z in I; [destruct I|].
        destruct I as [I|[]]. discriminate I.
      * apply in_app_iff in I. destruct I as [I|[I|[]]]; [|discriminate I].
        destruct (plateau_tail o b _ _ _ LE) as [Z|[x [y Z]]];
          rewrite Z in I; [destruct I|].
        destruct I as [I|[]]. discriminate I.
Qed.

End AdapterFailures.

(** ** Aggregate mode against live mode *)

Section Modes.

Local Open Scope Q_scope.

Variable o : Orchestrator.
Variable b : Backend.
Variable rq : TaskRequest.





End Modes.

(** ** The background dispatcher *)

Section Background.

Import BackgroundTasks.

Variable World : Type.

Lemma safe_wrapper_never_raises (func : callable World) (s : state World) :
  snd (safe_wrapper World func s) = None.
Proof.
  unfold safe_wrapper, to_thread.
  destruct (iscoroutinefunction World func);
    destruct (call World func (world World s)) as [w [e|]]; reflexivity.
Qed.

Lemma run_tasks_safe (funcs : list (callable World)) :
  forall s, snd (run_tasks World (map (safe_wrapper World) funcs) s) = [].
Proof.
  induction funcs as [|f funcs IH]; intro s; cbn; [reflexivity|].
  assert (N := safe_wrapper_never_raises f s).
  destruct (safe_wrapper World f s) as [s' r]. cbn in N. subst r. apply IH.
Qed.

(** C9.  [run_background_task] returns [None] at once: it only adds one
    task to the loop and runs nothing, whatever the operation is.  The
    task never lets an exception escape; when the operation raises, it
    prints one line with the operation's name and the message, and
    otherwise prints nothing.  No exception of a submitted operation
    reaches the loop. *)
Theorem run_background_task_isolated :
  forall (func : callable World) (l : event_loop World),
    snd (run_background_task World func l) = Ok tt /\
    current World (fst (run_background_task World func l)) = current World l /\
    tasks World (fst (run_background_task World func l))
    = tasks World l ++ [safe_wrapper World func] /\
    (forall s,
       snd (safe_wrapper World func s) = None /\
       world World (fst (safe_wrapper World func s))
       = fst (call World func (world World s)) /\
       stdout World (fst (safe_wrapper World func s))
       = match snd (call World func (world World s)) with
         | None => stdout World s
         | Some error_msg =>
             stdout World s ++
             [("⚠️ Background task error (" ++ name World func ++ "): "
               ++ error_msg)%string]
         end) /\
    (forall funcs s,
       snd (run_tasks World (map (safe_wrapper World) funcs) s) = []).
Proof.
  intros func l. splits; try reflexivity.
  - intro s. split; [apply safe_wrapper_never_raises|].
    unfold safe_wrapper, to_thread.
    destruct (iscoroutinefunction World func);
      destruct (call World func (world World s)) as [w [e|]];
      split; reflexivity.
  - apply run_tasks_safe.
Qed.

End Background.

(** ** Scripted sessions *)

Section Scenarios.

Import Scripted.
Local Open Scope Q_scope.

Lemma scorer_positive (table : list (string * Q)) (default : Q) :
  0 < default -> Forall (fun kv => 0 < snd kv) table ->
  forall s t c r, 0 < Evaluator.total (scorer table default s t c r).
Proof.
  intros D F s t c r. unfold scorer. cbn [Evaluator.total].
  induction F as [|[k v] rest P F IH]; cbn [lookup]; [exact D|].
  destruct (String.eqb k s); [exact P | exact IH].
Qed.

Lemma increasing_positive :
  forall s t c r, 0 < Evaluator.total (evaluator increasing s t c r).
Proof.
  apply scorer_positive; [reflexivity|].
  repeat constructor.
Qed.


(** C1.  Post-scores 0.3, 0.5, 0.7 with [max_iterations = 3] and
    [min_improvement = 0.01]: aggregate mode runs three rounds, while live
    mode reports a plateau after round 2 and ends with two rounds. *)
Theorem live_plateau_on_increasing_scores :
  (exists calls res,
      Aggregate.process increasing backend request = (calls, Ok res) /\
      map score (Aggregate.r_iterations res) = [0.3; 0.5; 0.7] /\
      Aggregate.total_iterations res = 3%nat) /\
  map Live.type (Live.events increasing backend request)
  = ["start"]
    ++ Live.round_types 2 ++ Live.round_types 2
    ++ ["plateau_reached"; "end"] /\
  map score (Live.iterations (Live.final increasing backend request))
  = [0.3; 0.5].
Proof.
  split; [|split].
  - eexists. eexists. split; [vm_compute; reflexivity|].
    split; reflexivity.
  - vm_compute. reflexivity.
  - vm_compute. reflexivity.
Qed.

(** In live mode the plateau test compares the score of a round with
    itself: with a positive [min_improvement] no session gets past its
    second round. *)
Lemma live_loop_stops_after_second_round (o : Orchestrator) (b : Backend)
    (rq : TaskRequest) (rag : option (list string)) :
  0 < min_improvement o ->
  forall (n i : nat) (s : Live.locals) evs s' r,
    (1 <= i)%nat ->
    length (Live.iterations s) = i ->
    Live.for_range (Live.round o b rq rag) (seq i n) s = (evs, s', r) ->
    (length (Live.iterations s') <= i + 1)%nat.
Proof.
  intros M n. destruct n as [|n]; intros i s evs s' r I L E.
  - cbn in E. triple E. lia.
  - cbn [seq Live.for_range] in E. unfold Live.bind in E.
    destruct (BaseAgent.failure (yantra_reply b i)) as [e|] eqn:F.
    { rewrite (live_round_generator_fails o b rq rag i s e F) in E.
      triple E. lia. }
    destruct (sutra_process b i) as [crit|e] eqn:C.
    2:{ rewrite (live_round_critic_fails o b rq rag i s e F C) in E.
        triple E. lia. }
    assert (NE : i = 0%nat \/ Live.iterations s <> []).
    { right. intro Z. rewrite Z in L. cbn in L. lia. }
    rewrite (live_round_completes o b rq rag i s crit F C NE) in E.
    set (d := Live.round_data o b rq rag i crit (Live.iterations s)) in *.
    assert (P : Py.ltb (score d - score d) (min_improvement o) = true).
    { apply ltb_lt. lra. }
    assert (Z : (0 <? i)%nat = true) by (apply Nat.ltb_lt; lia).
    rewrite Z, P in E. cbv beta iota in E. unfold Live.ret in E.
    cbn [andb] in E. cbv beta iota in E. triple E.
    cbn. rewrite length_app. cbn. lia.
Qed.

(** C2, counterexample.  A Generator failure in round 2 of a session with
    [max_iterations = 3]: live mode ends with an [error] event and yields
    no [end] event, and aggregate mode raises. *)
Lemma generator_failure_ends_with_error :
  map Live.type (Live.events increasing generator_fails_in_round_2 request)
  = ["start"] ++ Live.round_types 2
    ++ ["iteration_start"; "first_response_started"; "token"; "error"] /\
  ~ (exists e,
        In e (Live.events increasing generator_fails_in_round_2 request) /\
        Live.type e = "end") /\
  Aggregate.process increasing generator_fails_in_round_2 request
  = ([], Raise "Error calling Ollama API: connection reset").
Proof.
  split; [vm_compute; reflexivity|]. split; [|vm_compute; reflexivity].
  intros [e [I T]]. apply (in_map Live.type) in I. rewrite T in I.
  vm_compute in I.
  repeat (destruct I as [I|I]; [discriminate I|]). exact I.
Qed.

(** C6, counterexample.  In that session one round is complete when the
    failure occurs, and the terminal event is an [error] that carries the
    message only. *)
Lemma error_event_drops_history :
  let evs := Live.events increasing generator_fails_in_round_2 request in
  let h := Live.iterations
             (Live.final increasing generator_fails_in_round_2 request) in
  last evs (Live.Ev_start "")
  = Live.Ev_error "Error calling Ollama API: connection reset" /\
  length h = 1%nat /\
  Live.iterations_of (last evs (Live.Ev_start "")) <> Some h.
Proof.
  cbv zeta. split; [vm_compute; reflexivity|].
  split; [vm_compute; reflexivity|].
  assert (E : last (Live.events increasing generator_fails_in_round_2 request)
                (Live.Ev_start "")
              = Live.Ev_error "Error calling Ollama API: connection reset")
    by (vm_compute; reflexivity).
  rewrite E. discriminate.
Qed.


End Scenarios.

(** ** The general theorems at scripted sessions *)

Section Witnesses.

Import Scripted.
Local Open Scope Q_scope.

(** The Improver fails in the only round of a session: the session still
    ends with an [end] event and a final solution. *)
Lemma improver_failure_degrades_round_witness :
  (forall s t c r, 0 < Evaluator.total (evaluator single_round s t c r)) /\
  exists evs sol sc n,
    Live.events single_round failing_improver request
    = evs ++ [Live.Ev_end (task request) (Some sol) sc
                (Live.iterations
                   (Live.final single_round failing_improver request))
                n (use_rag request)] /\
    n = length (Live.iterations
                  (Live.final single_round failing_improver request)) /\
    (1 <= n <= max_iterations single_round)%nat.
Proof.
  split; [exact evaluate_positive|].
  apply (proj1 (improver_failure_degrades_round
                  single_round failing_improver request evaluate_positive)).
  - cbn. lia.
  - cbn. discriminate.
  - eexists. reflexivity.
  - reflexivity.
  - intros i _. split; [reflexivity | eexists; reflexivity].
Defined.

(** Three rounds with scores 0.3, 0.5, 0.7 in aggregate mode. *)
Lemma best_score_running_maximum_witness :
  (forall s t c r, 0 < Evaluator.total (evaluator increasing s t c r)) /\
  exists calls res,
    Aggregate.process increasing backend request = (calls, Ok res) /\
    (Aggregate.final_score res, Aggregate.final_solution res)
    = best_after (Aggregate.r_iterations res) /\
    running_maximum (Aggregate.r_iterations res)
      (best_after (Aggregate.r_iterations res)).
Proof.
  split; [exact increasing_positive|].
  assert (P : exists calls res,
             Aggregate.process increasing backend request = (calls, Ok res) /\
             Aggregate.r_iterations res <> []).
  { eexists. eexists. split; [vm_compute; reflexivity | discriminate]. }
  destruct P as [calls [res [P NE]]]. exists calls, res.
  split; [exact P|].
  destruct (proj2 (best_score_running_maximum
                     increasing backend request increasing_positive)
              calls res P) as [B [_ M]].
  split; [exact B | exact (M NE)].
Defined.


(** Scores 0.3, 0.5, 0.7 in live mode: two completed rounds, each with
    its block of events and its events apart in the stream. *)
Lemma round_event_order_witness :
  exists pre blocks tail,
    Live.events increasing backend request = pre ++ concat blocks ++ tail /\
    length blocks = 2%nat /\
    forall k, (k < 2)%nat ->
      (exists n,
          map Live.type
            (Consumer.events_of_round (k + 1)
               (Live.events increasing backend request))
          = Consumer.keyed_round_types n) /\
      (exists blk m,
          nth_error blocks k = Some blk /\
          map Live.type blk = Live.round_types m).
Proof.
  destruct (round_event_order increasing backend request)
    as [pre [blocks [tail [E [L [_ [B [_ [_ [R _]]]]]]]]]].
  assert (L2 : length (Live.iterations (Live.final increasing backend request))
               = 2%nat) by (vm_compute; reflexivity).
  rewrite L2 in L.
  exists pre, blocks, tail. split; [exact E|]. split; [exact L|].
  intros k K. rewrite <- L in K.
  destruct (R k K) as [[n T] [[blk [Nb _]] _]].
  split; [exists n; exact T|].
  destruct (proj1 (B k blk Nb)) as [m Tm].
  exists blk, m. split; [exact Nb | exact Tm].
Defined.

(** The events of that session filed under round 2. *)
Example second_round_events :
  map Live.type
    (Consumer.events_of_round 2 (Live.events increasing backend request))
  = Consumer.keyed_round_types 2.
Proof. vm_compute. reflexivity. Qed.

(** A session that ends with the best score 0.75 stores once. *)
Lemma store_iff_best_score_above_floor_witness :
  exists evs its,
    Live.events (one_round_scoring 0.75) backend request
    = evs ++ [Live.Ev_end "task" (Some "a1") 0.75 its 1 false] /\
    0.6 < 0.75 /\
    Live.store_calls (Live.final (one_round_scoring 0.75) backend request)
    = [ {| st_task := "task";
           st_solution := Some "a1";
           st_quality_score := 0.75;
           st_metadata := {| md_is_code := true;
                             md_used_rag := false;
                             md_iterations := 1 |} |} ].
Proof.
  assert (E : exists evs its,
             Live.events (one_round_scoring 0.75) backend request
             = evs ++ [Live.Ev_end "task" (Some "a1") 0.75 its 1 false]).
  { exists (removelast
              (Live.events (one_round_scoring 0.75) backend request)).
    eexists. vm_compute. reflexivity. }
  destruct E as [evs [its E]]. exists evs, its.
  split; [exact E|]. split; [reflexivity|].
  exact (proj1 (proj1 (proj2 (store_iff_best_score_above_floor
                                (one_round_scoring 0.75) backend request))
                  evs "task" (Some "a1") 0.75 its 1%nat false E)
           eq_refl).
Defined.

(** A session that ends with the best score 0.59 does not store. *)
Example no_store_below_floor :
  Live.store_calls (Live.final (one_round_scoring 0.59) backend request) = []
  /\ fst (Aggregate.process (one_round_scoring 0.59) backend request) = [].
Proof. split; vm_compute; reflexivity. Qed.

(** C7, counterexample.  The first round of a session scores 0.75 and the
    Generator fails in the second: the best score of the session is above
    the floor, and neither mode calls [Smriti.store]. *)
Lemma aborted_session_above_floor_stores_nothing :
  let final :=
    Live.final (three_rounds_scoring 0.75) generator_fails_in_round_2 request in
  Live.best_score final = 0.75 /\
  Live.best_solution final = Some "a1" /\
  0.6 < Live.best_score final /\
  Live.store_calls final = [] /\
  last (Live.events (three_rounds_scoring 0.75) generator_fails_in_round_2
          request) (Live.Ev_start "")
  = Live.Ev_error "Error calling Ollama API: connection reset" /\
  Aggregate.process (three_rounds_scoring 0.75) generator_fails_in_round_2
    request
  = ([], Raise "Error calling Ollama API: connection reset").
Proof.
  cbv zeta.
  assert (B : Live.best_score
                (Live.final (three_rounds_scoring 0.75)
                   generator_fails_in_round_2 request) = 0.75)
    by (vm_compute; reflexivity).
  split; [exact B|]. split; [vm_compute; reflexivity|].
  split; [rewrite B; reflexivity|].
  split; [vm_compute; reflexivity|].
  split; vm_compute; reflexivity.
Qed.

End Witnesses.

(** ** More on the two loops *)

Section LoopFacts.

Local Open Scope Q_scope.

Variable o : Orchestrator.
Variable b : Backend.
Variable rq : TaskRequest.

Lemma firstn_snoc {A : Type} (l : list A) :
  forall j p, nth_error l j = Some p -> firstn (S j) l = firstn j l ++ [p].
Proof.
  induction l as [|x l IH]; intros [|j] p H; try discriminate.
  - cbn in H. injection H as <-. reflexivity.
  - cbn in H.
    change (firstn (S (S j)) (x :: l)) with (x :: firstn (S j) l).
    rewrite (IH j p H). reflexivity.
Qed.

Lemma previous_round {A : Type} (l : list A) (j : nat) (p : A) :
  nth_error l j = Some p -> index_from_end (firstn (S j) l) 1 = Ok p.
Proof.
  intro H. rewrite (firstn_snoc l j p H). apply index_from_end_last.
Qed.

Lemma nth_error_pred {A : Type} (l : list A) (k : nat) (d : A) :
  nth_error l (S k) = Some d -> exists p, nth_error l k = Some p.
Proof.
  intro H. destruct (nth_error l k) as [p|] eqn:E; [exists p; reflexivity|].
  apply nth_error_None in E.
  assert (S k < length l)%nat by (apply nth_error_Some; congruence). lia.
Qed.

(** X1.  The aggregate loop runs at least one round, stops early at the first
    round after the first whose score exceeds the previous round's score
    by less than [min_improvement], and only there. *)
Theorem aggregate_stops_on_first_plateau :
  forall calls res,
    Aggregate.process o b rq = (calls, Ok res) ->
    let h := Aggregate.r_iterations res in
    (length h <= max_iterations o)%nat /\
    ((1 <= max_iterations o)%nat -> (1 <= length h)%nat) /\
    (forall k prev d,
       nth_error h k = Some prev -> nth_error h (S k) = Some d ->
       (S (S k) < length h)%nat ->
       min_improvement o <= score d - score prev) /\
    ((length h < max_iterations o)%nat ->
     exists k prev d,
       length h = S (S k) /\
       nth_error h k = Some prev /\ nth_error h (S k) = Some d /\
       score d - score prev < min_improvement o).
Proof.
  intros calls res P.
  destruct (process_structure o b rq calls res P)
    as [_ [_ [_ [_ [L [_ [NP [LP _]]]]]]]].
  cbv zeta in *. splits.
  - exact L.
  - intro M. destruct LP as [LP|[d [N _]]]; [lia|].
    destruct (Aggregate.r_iterations res); [discriminate N | cbn; lia].
  - intros k prev d Np Nd K.
    specialize (NP (S k) d Nd K). unfold Aggregate.plateau in NP.
    rewrite (previous_round _ k prev Np) in NP. cbn [Nat.ltb Nat.leb andb] in NP.
    apply ltb_ge in NP. exact NP.
  - intro Lt. destruct LP as [LP|[d [N Pl]]]; [lia|].
    unfold Aggregate.plateau in Pl.
    destruct (length (Aggregate.r_iterations res) - 1)%nat as [|k] eqn:E;
      [discriminate Pl|].
    destruct (nth_error_pred _ k d N) as [prev Np].
    rewrite (previous_round _ k prev Np) in Pl. cbn [Nat.ltb Nat.leb andb] in Pl.
    apply ltb_lt in Pl.
    exists k, prev, d. splits; try assumption. lia.
Qed.


Lemma live_loop_from_start (rag : option (list string)) :
  0 < min_improvement o ->
  forall n evs s' r,
    Live.for_range (Live.round o b rq rag) (seq 0 n) Live.initial = (evs, s', r) ->
    (length (Live.iterations s') <= 2)%nat.
Proof.
  intros M n evs s' r E. destruct n as [|n].
  - cbn in E. triple E. cbn. lia.
  - cbn [seq Live.for_range] in E. unfold Live.bind in E.
    destruct (BaseAgent.failure (yantra_reply b 0)) as [e|] eqn:F.
    { rewrite (live_round_generator_fails o b rq rag 0 _ e F) in E.
      triple E. cbn. lia. }
    destruct (sutra_process b 0) as [crit|e] eqn:C.
    2:{ rewrite (live_round_critic_fails o b rq rag 0 _ e F C) in E.
        triple E. cbn. lia. }
    rewrite (live_round_completes o b rq rag 0 Live.initial crit F C
               (or_introl eq_refl)) in E.
    cbn [Nat.ltb Nat.leb andb] in E. cbv beta iota in E.
    match type of E with
    | context [Live.for_range ?f ?l ?s] =>
        destruct (Live.for_range f l s) as [[evs1 s2] r1] eqn:E1
    end.
    triple E.
    match type of E1 with
    | Live.for_range _ _ ?s = _ =>
        assert (L1 : length (Live.iterations s) = 1%nat) by reflexivity;
        exact (live_loop_stops_after_second_round o b rq rag M n 1%nat
                 s _ _ _ (Nat.le_refl 1) L1 E1)
    end.
Qed.

(** X2.  In live mode the plateau test compares a round with itself, so with a
    positive [min_improvement] no session completes more than two
    rounds, whatever the scores and [max_iterations] are. *)
Theorem live_history_at_most_two_rounds :
  0 < min_improvement o ->
  (length (Live.iterations (Live.final o b rq)) <= 2)%nat.
Proof.
  intro M. rewrite final_session. unfold Live.session.
  destruct (Live.prelude b rq) as [pre [chunks|e]]; [|cbn; lia].
  destruct (Live.for_range _ _ _) as [[evs s1] [u|e]] eqn:E.
  - assert (L := live_loop_from_start chunks M _ _ _ _ E).
    destruct (store_request _ _ _ _ _ _) as [|c cs];
      [|destruct (smriti_store_error b)]; exact L.
  - exact (live_loop_from_start chunks M _ _ _ _ E).
Qed.


(** X3.  The records of a live history are numbered from 1; each carries the
    scores of the draft and of the improved text, their difference as
    [improvement], and as [iteration_improvement] the difference to the
    score of the round before it (for the first round, [improvement]). *)
Theorem live_round_records :
  forall k d,
    nth_error (Live.iterations (Live.final o b rq)) k = Some d ->
    iteration d = (k + 1)%nat /\
    score d = Evaluator.total
                (evaluator o (agni_output d) (task rq) (is_code rq)
                   (Live.retrieved b rq)) /\
    agni_score d = Some (score d) /\
    yantra_score d
    = Some (Evaluator.total
              (evaluator o (yantra_output d) (task rq) (is_code rq)
                 (Live.retrieved b rq))) /\
    (forall y, yantra_score d = Some y -> improvement d = score d - y) /\
    match k with
    | 0%nat => iteration_improvement d = Some (improvement d)
    | S j =>
        exists prev,
          nth_error (Live.iterations (Live.final o b rq)) j = Some prev /\
          iteration_improvement d = Some (score d - score prev)
    end.
Proof.
  intros k d N.
  destruct (session_structure o b rq) as [tail [_ [C _]]]. cbv zeta in C.
  destruct (C k d N) as [_ [_ D]].
  splits.
  - rewrite D. reflexivity.
  - rewrite D. reflexivity.
  - rewrite D. reflexivity.
  - rewrite D. reflexivity.
  - intros y Y. rewrite D in Y |- *. cbn in Y. injection Y as <-. reflexivity.
  - destruct k as [|j].
    + rewrite D. reflexivity.
    + destruct (nth_error_pred _ j d N) as [prev Np].
      exists prev. split; [exact Np|].
      destruct (C j prev Np) as [_ [_ Dp]].
      rewrite D. cbn [iteration_improvement Live.round_data score].
      rewrite (previous_round _ j prev Np). cbn [Nat.ltb Nat.leb].
      rewrite Dp. reflexivity.
Qed.

(** X4.  The records of an aggregate history are numbered from 1; each is
    scored on the Improver's answer, and its [improvement] is the
    difference to the score of the round before it (0 for the first). *)
Theorem aggregate_round_records :
  forall calls res k d,
    Aggregate.process o b rq = (calls, Ok res) ->
    nth_error (Aggregate.r_iterations res) k = Some d ->
    iteration d = (k + 1)%nat /\
    yantra_process b k = Ok (yantra_output d) /\
    sutra_process b k = Ok (sutra_critique d) /\
    agni_process b k = Ok (agni_output d) /\
    score d = Evaluator.total
                (evaluator o (agni_output d) (task rq) (is_code rq)
                   (retrieved_chunks b rq)) /\
    score_details d
    = evaluator o (agni_output d) (task rq) (is_code rq)
        (retrieved_chunks b rq) /\
    match k with
    | 0%nat => improvement d = 0.0
    | S j =>
        exists prev,
          nth_error (Aggregate.r_iterations res) j = Some prev /\
          improvement d = score d - score prev
    end.
Proof.
  intros calls res k d P N.
  destruct (process_structure o b rq calls res P)
    as [_ [_ [_ [_ [_ [C _]]]]]]. cbv zeta in C.
  destruct (C k d N) as [Y [S [A D]]].
  splits; try assumption.
  - rewrite D. reflexivity.
  - rewrite D. reflexivity.
  - rewrite D. reflexivity.
  - destruct k as [|j].
    + rewrite D. reflexivity.
    + destruct (nth_error_pred _ j d N) as [prev Np].
      exists prev. split; [exact Np|].
      rewrite D. cbn [improvement Aggregate.round_data score].
      rewrite (previous_round _ j prev Np). reflexivity.
Qed.

(** X5.  No improved text of a live history is empty or has whitespace at its
    ends, and the [improved_token], [improved] and [iteration_complete]
    events of the round carry that text. *)
Theorem live_improved_text_delivered :
  forall k d,
    nth_error (Live.iterations (Live.final o b rq)) k = Some d ->
    agni_output d <> "" /\
    Py.strip (agni_output d) = agni_output d /\
    Py.strip (yantra_output d) = yantra_output d /\
    In (Live.Ev_improved_token (agni_output d) (k + 1)
          (Live.word_count (agni_output d))) (Live.events o b rq) /\
    In (Live.Ev_improved (k + 1) (agni_output d) (agni_output d)
          (Live.word_count (agni_output d))) (Live.events o b rq) /\
    In (Live.Ev_iteration_complete (k + 1) d) (Live.events o b rq).
Proof.
  intros k d N.
  destruct (session_structure o b rq) as [tail [E [C _]]]. cbv zeta in E, C.
  destruct (C k d N) as [_ [_ D]].
  assert (T : agni_output d = Live.improved_text b k) by (rewrite D; reflexivity).
  assert (I : iteration d = (k + 1)%nat) by (rewrite D; reflexivity).
  assert (S1 : Py.strip (agni_output d) = agni_output d).
  { rewrite T. unfold Live.improved_text. apply strip_idempotent. }
  assert (NE : agni_output d <> "").
  { rewrite T. unfold Live.improved_text, BaseAgent._call_ollama.
    destruct (BaseAgent.failure (agni_reply b k)); [discriminate|].
    destruct (Py.strip (String.concat "" (BaseAgent.chunks (agni_reply b k))))
      as [|c s] eqn:X; [discriminate|].
    cbn [Py.truthy]. rewrite <- X, strip_idempotent, X. discriminate. }
  assert (B : forall e, In e (Live.round_events b d) ->
                        In e (Live.events o b rq)).
  { intros e H. rewrite E. apply in_or_app. right. apply in_or_app. left.
    apply in_flat_map. exists d. split; [|exact H].
    exact (nth_error_In _ _ N). }
  assert (I' : (iteration d - 1 + 1 = k + 1)%nat) by lia.
  splits.
  - exact NE.
  - exact S1.
  - rewrite D. cbn [yantra_output Live.round_data]. apply strip_idempotent.
  - apply B. unfold Live.round_events. rewrite I'.
    apply in_or_app. right. right. left. reflexivity.
  - apply B. unfold Live.round_events. rewrite I'.
    apply in_or_app. right. right. right. left. reflexivity.
  - apply B. unfold Live.round_events. rewrite I'.
    apply in_or_app. right. right. right. right. left. reflexivity.
Qed.

(** X6.  A session that fails persists nothing: when [process] raises, either
    no call to [Smriti.store] was made or the exception is the one that
    call raised; a live session that ends with [error] has submitted no
    analytics record, and its only possible store call is the one that
    raised. *)
Theorem failed_session_persists_nothing :
  (forall calls e,
     Aggregate.process o b rq = (calls, Raise e) ->
     calls = [] \/ smriti_store_error b = Some e) /\
  (forall evs e,
     Live.events o b rq = evs ++ [Live.Ev_error e] ->
     Live.background (Live.final o b rq) = [] /\
     (Live.store_calls (Live.final o b rq) = [] \/
      smriti_store_error b = Some e)).
Proof.
  split.
  - intros calls e. unfold Aggregate.process.
    destruct (Aggregate.bind _ _) as [[rag st]|e0].
    + destruct (store_request _ _ _ _ _ _) as [|c cs];
        [discriminate|].
      destruct (smriti_store_error b) as [e1|]; [|discriminate].
      intro H. injection H as _ <-. right. reflexivity.
    + intro H. injection H as <- _. left. reflexivity.
  - intros evs e E.
    destruct (session_structure o b rq) as [tail [S [_ [_ [_ SE]]]]].
    cbv zeta in S. rewrite S in E.
    destruct SE as [e0 P D SC B | e0 part A L SC B | e0 plateau LE SC N X B
                   | plateau LE SC N B];
      rewrite ?app_assoc in E; apply app_inj_tail in E; destruct E as [_ E];
      try discriminate; injection E as <-.
    + split; [exact B | left; exact SC].
    + split; [exact B | left; exact SC].
    + split; [exact B | right; exact X].
Qed.

End LoopFacts.

(** ** The token stream of a round *)

Section TokenStream.

Import Live Consumer.

Variable o : Orchestrator.
Variable b : Backend.
Variable rq : TaskRequest.

Lemma tokens_of_round_app (n : nat) (l1 l2 : list event) :
  tokens_of_round n (l1 ++ l2) = tokens_of_round n l1 ++ tokens_of_round n l2.
Proof. unfold tokens_of_round. apply flat_map_app. Qed.

Lemma tokens_of_token_events (n i : nat) (toks : list string) :
  forall c,
    tokens_of_round n (token_events i toks c)
    = if (i + 1 =? n)%nat
      then combine toks (seq (c + 1) (length toks))
      else [].
Proof.
  induction toks as [|t rest IH]; intro c.
  - cbn. destruct (i + 1 =? n)%nat; reflexivity.
  - cbn [token_events].
    change (Ev_token t (c + 1) (i + 1) :: token_events i rest (c + 1))
      with ([Ev_token t (c + 1) (i + 1)] ++ token_events i rest (c + 1)).
    rewrite tokens_of_round_app, IH.
    unfold tokens_of_round at 1. cbn [flat_map].
    destruct (i + 1 =? n)%nat; [|reflexivity].
    cbn [app length seq combine].
    replace (S (c + 1)) with (c + 1 + 1)%nat by lia.
    reflexivity.
Qed.

Lemma tokens_of_generation (n i : nat) :
  tokens_of_round n (generation_events b i)
  = if (i + 1 =? n)%nat
    then combine (tokens b i) (seq 1 (length (tokens b i)))
    else [].
Proof.
  unfold generation_events. rewrite tokens_of_round_app.
  rewrite tokens_of_token_events. reflexivity.
Qed.

Lemma tokens_of_critique (n i : nat) :
  tokens_of_round n (critique_events b i)
  = if (i + 1 =? n)%nat
    then combine (tokens b i) (seq 1 (length (tokens b i)))
    else [].
Proof.
  unfold critique_events. rewrite tokens_of_round_app, tokens_of_generation.
  cbn. apply app_nil_r.
Qed.

Lemma tokens_of_round_events (n : nat) (d : iteration_data) :
  tokens_of_round n (round_events b d)
  = if (iteration d - 1 + 1 =? n)%nat
    then combine (tokens b (iteration d - 1))
           (seq 1 (length (tokens b (iteration d - 1))))
    else [].
Proof.
  unfold round_events. rewrite tokens_of_round_app, tokens_of_critique.
  cbn. apply app_nil_r.
Qed.

Lemma tokens_of_prelude (n : nat) :
  tokens_of_round n (fst (prelude b rq)) = [].
Proof.
  unfold prelude.
  destruct (use_rag rq); [destruct (rag_retrieve b) as [chunks|e0]|];
    destruct (smriti_retrieve_similar b) as [[|x l]|e1]; reflexivity.
Qed.

Lemma tokens_of_blocks (n : nat) (ds : list iteration_data) :
  forall off,
    (forall j d, nth_error ds j = Some d -> iteration d = (off + j + 1)%nat) ->
    tokens_of_round n (flat_map (round_events b) ds)
    = match nth_error ds (n - 1 - off) with
      | Some d =>
          if (off + 1 <=? n)%nat
          then combine (tokens b (n - 1)) (seq 1 (length (tokens b (n - 1))))
          else []
      | None => []
      end.
Proof.
  induction ds as [|d ds IH]; intros off I.
  - cbn. destruct (n - 1 - off)%nat; reflexivity.
  - cbn [flat_map]. rewrite tokens_of_round_app, tokens_of_round_events.
    assert (Id := I 0%nat d eq_refl).
    rewrite (IH (S off)).
    2:{ intros j d' H. rewrite (I (S j) d' H). lia. }
    destruct (iteration d - 1 + 1 =? n)%nat eqn:E.
    + apply Nat.eqb_eq in E.
      assert (Z : (n - 1 - off = 0)%nat) by lia. rewrite Z. cbn [nth_error].
      assert (Z' : (n - 1 - S off = 0)%nat) by lia.
      assert (L : (off + 1 <=? n)%nat = true) by (apply Nat.leb_le; lia).
      rewrite L.
      assert (L' : (S off + 1 <=? n)%nat = false) by (apply Nat.leb_gt; lia).
      rewrite L'.
      replace (iteration d - 1)%nat with (n - 1)%nat by lia.
      destruct (nth_error ds (n - 1 - S off)); rewrite app_nil_r; reflexivity.
    + apply Nat.eqb_neq in E. cbn [app].
      destruct (off + 1 <=? n)%nat eqn:L.
      * apply Nat.leb_le in L.
        assert (Z : (n - 1 - off = S (n - 1 - S off))%nat) by lia.
        rewrite Z. cbn [nth_error].
        assert (L' : (S off + 1 <=? n)%nat = true) by (apply Nat.leb_le; lia).
        rewrite L'. reflexivity.
      * apply Nat.leb_gt in L.
        assert (L' : (S off + 1 <=? n)%nat = false) by (apply Nat.leb_gt; lia).
        rewrite L'.
        destruct (nth_error ds (n - 1 - S off));
          destruct (nth_error (d :: ds) (n - 1 - off)); reflexivity.
Qed.

Lemma tokens_of_ending (ds : list iteration_data) (s : locals)
    (tail : list event) (n : nat) :
  session_end o b rq ds s tail -> (n <= length ds)%nat ->
  tokens_of_round n tail = [].
Proof.
  intros [e P D S B | e part A L S B | e plateau LE S N SE B
          | plateau LE S N B] K.
  - reflexivity.
  - rewrite tokens_of_round_app. cbn. rewrite app_nil_r.
    assert (X : (length ds + 1 =? n)%nat = false) by (apply Nat.eqb_neq; lia).
    destruct A as [[_ ->]|[_ [_ ->]]].
    + rewrite tokens_of_generation, X. reflexivity.
    + rewrite tokens_of_critique, X. reflexivity.
  - destruct (plateau_tail o b _ _ _ LE) as [->|[x [y ->]]]; reflexivity.
  - destruct (plateau_tail o b _ _ _ LE) as [->|[x [y ->]]]; reflexivity.
Qed.

Lemma combine_fst {A B : Type} (l : list A) (l' : list B) :
  length l = length l' -> map fst (combine l l') = l.
Proof.
  revert l'. induction l as [|x l IH]; intros [|y l'] L; try discriminate L.
  - reflexivity.
  - cbn. rewrite IH; [reflexivity | cbn in L; lia].
Qed.

Lemma combine_snd {A B : Type} (l : list A) (l' : list B) :
  length l = length l' -> map snd (combine l l') = l'.
Proof.
  revert l'. induction l as [|x l IH]; intros [|y l'] L; try discriminate L.
  - reflexivity.
  - cbn. rewrite IH; [reflexivity | cbn in L; lia].
Qed.

(** X7.  The tokens a consumer receives for a completed round are non-empty,
    are numbered 1, 2, ... by [token_count], and appended in order they
    give, once stripped, the draft recorded as [yantra_output] in the
    round's [iteration_complete]. *)
Theorem streamed_tokens_rebuild_draft :
  forall k d,
    nth_error (iterations (final o b rq)) k = Some d ->
    let received := tokens_of_round (k + 1) (events o b rq) in
    map snd received = seq 1 (length received) /\
    Forall (fun t => t <> "") (map fst received) /\
    Py.strip (draft_of_round (k + 1) (events o b rq)) = yantra_output d.
Proof.
  intros k d N.
  destruct (session_structure o b rq) as [tail [E [C [_ [_ SE]]]]].
  cbv zeta in E, C.
  assert (T : tokens_of_round (k + 1) (events o b rq)
              = combine (tokens b k) (seq 1 (length (tokens b k)))).
  { rewrite E, !tokens_of_round_app, tokens_of_prelude.
    rewrite (tokens_of_ending _ _ _ (k + 1) SE).
    2:{ assert (k < length (iterations (final o b rq)))%nat
          by (apply nth_error_Some; congruence). lia. }
    rewrite (tokens_of_blocks (k + 1) _ 0%nat).
    2:{ intros j d' H.
        rewrite (completed_round_iteration o b rq _ _ _ _ (C j d' H)). lia. }
    replace (k + 1 - 1 - 0)%nat with k by lia. rewrite N.
    replace (k + 1 - 1)%nat with k by lia.
    cbn [app]. rewrite app_nil_r.
    destruct (0 + 1 <=? k + 1)%nat eqn:L; [reflexivity|].
    apply Nat.leb_gt in L. lia. }
  assert (Ls : length (tokens b k) = length (seq 1 (length (tokens b k))))
    by (rewrite length_seq; reflexivity).
  cbv zeta. unfold draft_of_round. rewrite T.
  rewrite (combine_fst _ _ Ls), (combine_snd _ _ Ls).
  splits.
  - rewrite length_combine, <- Ls, Nat.min_id. reflexivity.
  - unfold tokens, BaseAgent._call_ollama_stream. cbn [fst].
    apply Forall_forall. intros t H. apply filter_In in H.
    destruct H as [_ H]. intro Z. rewrite Z in H. discriminate.
  - destruct (C k d N) as [_ [_ D]]. rewrite D. reflexivity.
Qed.

End TokenStream.

(** ** The queries of the memory store *)

Section RecallFacts.

Import Smriti Recall.
Local Open Scope Q_scope.

Variable Json : Type.
Variable loads : string -> Json.
Variable empty_dict : Json.

Local Abbreviation entry := (similar_task Json).
Local Abbreviation ge_key := (fun x y : entry => key_lt x y = false).

Lemma key_lt_spec (x y : entry) :
  key_lt x y = true <->
  similarity x < similarity y \/
  (similarity x == similarity y /\ s_quality_score x < s_quality_score y).
Proof.
  unfold key_lt. destruct (Qeq_bool (similarity x) (similarity y)) eqn:E.
  - apply Qeq_bool_iff in E. rewrite ltb_lt. split.
    + intro H. right. split; assumption.
    + intros [H|[_ H]]; [|exact H]. rewrite E in H.
      exfalso. exact (Qlt_irrefl _ H).
  - rewrite ltb_lt. split.
    + intro H. left. exact H.
    + intros [H|[H _]]; [exact H|]. apply Qeq_bool_iff in H. congruence.
Qed.

Lemma ge_key_spec (x y : entry) :
  key_lt x y = false <->
  similarity y < similarity x \/
  (similarity x == similarity y /\ s_quality_score y <= s_quality_score x).
Proof.
  split.
  - intro H.
    destruct (Q_dec (similarity x) (similarity y)) as [[L|G]|E].
    + assert (T : key_lt x y = true) by (apply key_lt_spec; left; exact L).
      congruence.
    + left. exact G.
    + right. split; [exact E|]. apply Qnot_lt_le. intro L.
      assert (T : key_lt x y = true)
        by (apply key_lt_spec; right; split; assumption).
      congruence.
  - intro H. destruct (key_lt x y) eqn:T; [|reflexivity].
    apply key_lt_spec in T. exfalso.
    destruct H as [H|[H1 H2]]; destruct T as [T|[T1 T2]]; lra.
Qed.

Lemma ge_key_trans (x y z : entry) :
  key_lt x y = false -> key_lt y z = false -> key_lt x z = false.
Proof.
  rewrite !ge_key_spec.
  intros [H|[H1 H2]] [K|[K1 K2]]; [left|left|left|right]; lra.
Qed.

Lemma key_lt_asym (x y : entry) : key_lt x y = true -> key_lt y x = false.
Proof.
  rewrite key_lt_spec, ge_key_spec. intros [H|[H1 H2]]; [left|right].
  - exact H.
  - split; [symmetry; exact H1 | apply Qlt_le_weak; exact H2].
Qed.

Lemma insert_desc_in (x y : entry) (l : list entry) :
  In y (insert_desc x l) <-> y = x \/ In y l.
Proof.
  induction l as [|z l IH]; cbn.
  - split; intros [H|H]; auto.
  - destruct (key_lt x z); cbn; rewrite ?IH; intuition congruence.
Qed.

Lemma insert_desc_sorted (x : entry) (l : list entry) :
  StronglySorted ge_key l -> StronglySorted ge_key (insert_desc x l).
Proof.
  induction l as [|y l IH]; cbn; intro S.
  - constructor; constructor.
  - inversion S as [|y' l' S' F]; subst.
    destruct (key_lt x y) eqn:E.
    + constructor; [exact (IH S')|].
      apply Forall_forall. intros z I. apply insert_desc_in in I.
      destruct I as [->|I].
      * apply key_lt_asym. exact E.
      * rewrite Forall_forall in F. exact (F z I).
    + constructor; [exact S|]. constructor; [exact E|].
      apply Forall_forall. intros z I. rewrite Forall_forall in F.
      exact (ge_key_trans _ _ _ E (F z I)).
Qed.

Lemma sort_reverse_in (y : entry) (l : list entry) :
  In y (sort_reverse l) <-> In y l.
Proof.
  induction l as [|x l IH]; [cbn; tauto|].
  change (sort_reverse (x :: l)) with (insert_desc x (sort_reverse l)).
  rewrite insert_desc_in, IH. cbn. intuition congruence.
Qed.

Lemma sort_reverse_sorted (l : list entry) :
  StronglySorted ge_key (sort_reverse l).
Proof.
  induction l as [|x l IH]; [constructor|].
  change (sort_reverse (x :: l)) with (insert_desc x (sort_reverse l)).
  apply insert_desc_sorted. exact IH.
Qed.

Lemma insert_desc_length (x : entry) (l : list entry) :
  length (insert_desc x l) = S (length l).
Proof.
  induction l as [|y l IH]; cbn; [reflexivity|].
  destruct (key_lt x y); cbn; [rewrite IH|]; reflexivity.
Qed.

Lemma sort_reverse_length (l : list entry) :
  length (sort_reverse l) = length l.
Proof.
  induction l as [|x l IH]; [reflexivity|].
  change (sort_reverse (x :: l)) with (insert_desc x (sort_reverse l)).
  rewrite insert_desc_length, IH. reflexivity.
Qed.

Lemma firstn_in {A : Type} (n : nat) (l : list A) (x : A) :
  In x (firstn n l) -> In x l.
Proof.
  revert l. induction n as [|n IH]; intros [|y l]; cbn; try tauto.
  intros [H|H]; [left; exact H | right; exact (IH l H)].
Qed.

Lemma firstn_sorted {A : Type} (R : A -> A -> Prop) (n : nat) (l : list A) :
  StronglySorted R l -> StronglySorted R (firstn n l).
Proof.
  revert l. induction n as [|n IH]; intros [|y l] S; cbn; try constructor.
  - inversion S; subst. apply IH. assumption.
  - inversion S as [|y' l' S' F]; subst. apply Forall_forall. intros z I.
    rewrite Forall_forall in F. apply F. exact (firstn_in _ _ _ I).
Qed.

Lemma sorted_suffix {A : Type} (R : A -> A -> Prop) (l1 l2 : list A) :
  StronglySorted R (l1 ++ l2) -> StronglySorted R l2.
Proof.
  induction l1 as [|x l1 IH]; cbn; intro S; [exact S|].
  inversion S; subst. apply IH. assumption.
Qed.

Lemma firstn_split_in {A : Type} (n : nat) (l : list A) (x : A) :
  In x (firstn n l) ->
  exists l1 l2, l = l1 ++ x :: l2 /\ (length l1 < n)%nat.
Proof.
  revert l. induction n as [|n IH]; intros [|y l]; cbn; try tauto.
  intros [->|H].
  - exists [], l. split; [reflexivity | cbn; lia].
  - destruct (IH l H) as [l1 [l2 [-> L]]].
    exists (y :: l1), l2. split; [reflexivity | cbn; lia].
Qed.

Lemma outscoring_perm (r : memory) (l l' : list memory) :
  Permutation l l' -> length (outscoring r l) = length (outscoring r l').
Proof.
  intro P. unfold outscoring. induction P; cbn.
  - reflexivity.
  - destruct (Py.gtb _ _); cbn; rewrite IHP; reflexivity.
  - destruct (Py.gtb (quality_score x) _), (Py.gtb (quality_score y) _);
      reflexivity.
  - congruence.
Qed.

Lemma outscoring_window (n : nat) (rows : list memory) (r : memory) :
  ordered_desc rows -> In r (firstn n rows) ->
  (length (outscoring r rows) < n)%nat.
Proof.
  intros S I. destruct (firstn_split_in _ _ _ I) as [l1 [l2 [E L]]].
  subst rows. unfold outscoring. rewrite filter_app, length_app.
  cbn [filter].
  assert (G : Py.gtb (quality_score r) (quality_score r) = false)
    by (apply gtb_le; apply Qle_refl).
  rewrite G.
  assert (Z : filter (fun r' => Py.gtb (quality_score r') (quality_score r)) l2
              = []).
  { unfold ordered_desc in S. apply sorted_suffix in S.
    inversion S as [|y l' S' F]; subst.
    rewrite Forall_forall in F.
    clear - F. induction l2 as [|z l2 IH]; [reflexivity|]. cbn.
    assert (Gz : Py.gtb (quality_score z) (quality_score r) = false)
      by (apply gtb_le; apply F; left; reflexivity).
    rewrite Gz. apply IH. intros w Hw. apply F. right. exact Hw. }
  rewrite Z. cbn [length].
  pose proof (filter_length_le
                (fun r' => Py.gtb (quality_score r') (quality_score r)) l1).
  lia.
Qed.

Lemma jaccard_shared (a b : set string) :
  0 < jaccard a b -> exists w, In w a /\ In w b.
Proof.
  unfold jaccard. destruct (0 <? length (set_union string_dec a b))%nat;
    [|intro H; exfalso; exact (Qlt_irrefl _ H)].
  destruct (set_inter string_dec a b) as [|w l] eqn:E.
  - cbn [length]. unfold Py.of_nat at 1. cbn [Z.of_nat].
    unfold Qdiv. rewrite Qmult_0_l. intro H. exfalso. exact (Qlt_irrefl _ H).
  - intros _. exists w.
    assert (I : set_In w (set_inter string_dec a b))
      by (rewrite E; left; reflexivity).
    split; [exact (set_inter_elim1 _ _ _ _ I)
           | exact (set_inter_elim2 _ _ _ _ I)].
Qed.

Lemma similar_of_in (task : string) (results : list memory) (x : entry) :
  In x (similar_of Json loads empty_dict task results) ->
  exists r,
    In r results /\
    s_task x = m_task r /\ s_solution x = solution r /\
    s_quality_score x = quality_score r /\
    similarity x = jaccard (words task) (words (m_task r)) /\
    0.2 < similarity x.
Proof.
  unfold similar_of. intro I. apply in_flat_map in I.
  destruct I as [r [Ir I]]. cbv zeta in I.
  destruct (Py.gtb _ _) eqn:G; [|destruct I].
  destruct I as [<-|[]]. exists r. cbn.
  splits; try reflexivity; [exact Ir|]. apply gtb_gt. exact G.
Qed.

(** X8.  [retrieve_similar] returns at most [limit] entries.  Each one is a
    stored row whose score is at least [min_score], whose task shares a
    word with the asked task, with the Jaccard similarity of the two word
    sets above 0.2; and fewer than [2 * limit] rows that pass [min_score]
    outscore it: rows outside that window are never compared with the
    task. *)
Theorem retrieve_similar_sound :
  forall (d : db) (task : string) (limit : nat) (min_score : Q)
         (results : list memory),
    fetched_similar d min_score (limit * 2) results ->
    let out := retrieve_similar Json loads empty_dict task limit results in
    (length out <= limit)%nat /\
    forall x, In x out ->
      exists r,
        In r (memories d) /\
        s_task x = m_task r /\ s_solution x = solution r /\
        s_quality_score x = quality_score r /\
        min_score <= quality_score r /\
        similarity x = jaccard (words task) (words (m_task r)) /\
        0.2 < similarity x /\
        (exists w, In w (words task) /\ In w (words (m_task r))) /\
        (length
           (outscoring r
              (filter (fun r' => Qle_bool min_score (quality_score r'))
                 (memories d))) < limit * 2)%nat.
Proof.
  intros d task limit min_score results [rows [P [S ->]]] out. split.
  - unfold out, retrieve_similar. rewrite length_firstn. lia.
  - intros x I. unfold out, retrieve_similar in I.
    apply firstn_in in I. apply (proj1 (sort_reverse_in _ _)) in I.
    destruct (similar_of_in _ _ _ I) as [r [Ir [E1 [E2 [E3 [E4 G]]]]]].
    exists r.
    assert (Ir' : In r rows) by exact (firstn_in _ _ _ Ir).
    assert (If := Permutation_in r P Ir'). apply filter_In in If.
    destruct If as [Im Q]. apply Qle_bool_iff in Q.
    splits; try assumption.
    + apply jaccard_shared. rewrite <- E4. lra.
    + rewrite <- (outscoring_perm r _ _ P).
      exact (outscoring_window _ _ _ S Ir).
Qed.

(** X9.  The entries [retrieve_similar] returns are in descending order of
    similarity, entries of equal similarity in descending order of
    quality score. *)
Theorem retrieve_similar_ranked :
  forall (task : string) (limit : nat) (results : list memory),
    StronglySorted
      (fun x y : entry =>
         similarity y < similarity x \/
         (similarity x == similarity y /\
          s_quality_score y <= s_quality_score x))
      (retrieve_similar Json loads empty_dict task limit results).
Proof.
  intros task limit results. unfold retrieve_similar.
  apply firstn_sorted.
  assert (S := sort_reverse_sorted (similar_of Json loads empty_dict task results)).
  induction S as [|x l S IH F]; constructor; [exact IH|].
  apply Forall_forall. intros y I. rewrite Forall_forall in F.
  apply ge_key_spec. exact (F y I).
Qed.

(** X10.  [get_best_examples] returns the solutions of [min(limit, number of
    rows)] rows, and no row left out outscores a row taken. *)
Theorem get_best_examples_top :
  forall (d : db) (limit : nat) (results : list memory),
    fetched_best d limit results ->
    length (get_best_examples results)
    = Nat.min limit (length (memories d)) /\
    exists rest,
      Permutation (results ++ rest) (memories d) /\
      forall r r', In r results -> In r' rest ->
        quality_score r' <= quality_score r.
Proof.
  intros d limit results [rows [P [S ->]]]. split.
  - unfold get_best_examples. rewrite length_map, length_firstn.
    rewrite (Permutation_length P). reflexivity.
  - exists (skipn limit rows). split.
    + rewrite firstn_skipn. exact P.
    + intros r r' I I'. unfold ordered_desc in S.
      rewrite <- (firstn_skipn limit rows) in S.
      revert S I I'. generalize (firstn limit rows) (skipn limit rows).
      intros l1 l2 S I I'. induction l1 as [|z l1 IH]; [destruct I|].
      cbn in S. inversion S as [|z' l' S' F]; subst.
      destruct I as [->|I].
      * rewrite Forall_forall in F. apply F. apply in_or_app. right. exact I'.
      * exact (IH S' I).
Qed.

End RecallFacts.

(** ** Repeated calls to [store] *)

Section StoreFacts.

Import Smriti.
Local Open Scope Q_scope.

Variable md5_hexdigest : string -> string.
Variable dumps_embedding : list Q -> string.
Variable dumps_metadata : list (string * string) -> string.

Local Abbreviation store :=
  (Smriti.store md5_hexdigest dumps_embedding dumps_metadata).
Local Abbreviation store_all :=
  (Smriti.store_all md5_hexdigest dumps_embedding dumps_metadata).
Local Abbreviation update :=
  (Smriti.update dumps_embedding dumps_metadata).
Local Abbreviation set_columns :=
  (Smriti.set_columns dumps_embedding dumps_metadata).
Local Abbreviation new_row :=
  (Smriti.new_row dumps_embedding dumps_metadata).
Local Abbreviation hash := (_hash_task md5_hexdigest).

(** [r'] is the row [r] after later calls: same identity, no lower score. *)
Local Abbreviation kept r r' :=
  (id r' = id r /\ task_hash r' = task_hash r /\ m_task r' = m_task r /\
   created_at r' = created_at r /\ quality_score r <= quality_score r').

Lemma lookup_update (d : db) (a : store_args) (h h' : string) :
  lookup (update d a h) h'
  = option_map
      (fun r => if String.eqb (task_hash r) h then set_columns r a else r)
      (lookup d h').
Proof.
  unfold lookup, Smriti.update. cbn [memories].
  induction (memories d) as [|r l IH]; [reflexivity|]. cbn [map find].
  assert (E : task_hash
                (if String.eqb (task_hash r) h then set_columns r a else r)
              = task_hash r)
    by (destruct (String.eqb (task_hash r) h); reflexivity).
  rewrite E. destruct (String.eqb (task_hash r) h'); [reflexivity | exact IH].
Qed.

Lemma lookup_snoc (l : list memory) (n : nat) (r : memory) (h : string) :
  lookup {| memories := l ++ [r]; sequence := n |} h
  = match find (fun r0 => String.eqb (task_hash r0) h) l with
    | Some r0 => Some r0
    | None => if String.eqb (task_hash r) h then Some r else None
    end.
Proof.
  unfold lookup. cbn [memories]. induction l as [|x l IH]; [reflexivity|].
  cbn [app find]. destruct (String.eqb (task_hash x) h); [reflexivity|].
  exact IH.
Qed.

Lemma store_cases (d : db) (a : store_args) (d' : db) :
  store d a = Ok d' ->
  (exists r, lookup d (hash (a_task a)) = Some r /\
             quality_score r < a_quality_score a /\
             d' = update d a (hash (a_task a))) \/
  (exists r, lookup d (hash (a_task a)) = Some r /\
             a_quality_score a <= quality_score r /\ d' = d) \/
  (lookup d (hash (a_task a)) = None /\
   d' = {| memories := memories d ++ [new_row d a (hash (a_task a))];
           sequence := S (sequence d) |}).
Proof.
  unfold Smriti.store, select_quality_score.
  fold (lookup d (hash (a_task a))).
  destruct (lookup d (hash (a_task a))) as [r|] eqn:F; cbn [option_map].
  - destruct (Py.gtb (a_quality_score a) (quality_score r)) eqn:G; intro E.
    + left. exists r. apply gtb_gt in G. injection E as <-. auto.
    + right. left. exists r. apply gtb_le in G. injection E as <-. auto.
  - unfold insert. destruct (existsb _ _); intro E; [discriminate|].
    right. right. injection E as <-. auto.
Qed.

Lemma store_keeps (d : db) (a : store_args) (d' : db) :
  store d a = Ok d' ->
  (forall h r, lookup d h = Some r ->
     exists r', lookup d' h = Some r' /\ kept r r') /\
  (exists r', lookup d' (hash (a_task a)) = Some r' /\
              a_quality_score a <= quality_score r').
Proof.
  intro E. destruct (store_cases d a d' E)
    as [[r0 [F [L ->]]]|[[r0 [F [L ->]]]|[F ->]]].
  - split.
    + intros h r H. rewrite lookup_update, H. cbn [option_map].
      eexists. split; [reflexivity|].
      destruct (String.eqb (task_hash r) (hash (a_task a))) eqn:T.
      * cbn. splits; try reflexivity.
        assert (r = r0).
        { apply String.eqb_eq in T.
          destruct (find_some_hash d h r H) as [Hh _].
          rewrite <- Hh, T, F in H. congruence. }
        subst r0. apply Qlt_le_weak. exact L.
      * splits; try reflexivity. apply Qle_refl.
    + rewrite lookup_update, F. cbn [option_map].
      destruct (find_some_hash d _ r0 F) as [Hh _].
      rewrite Hh, String.eqb_refl. eexists. split; [reflexivity|].
      cbn. apply Qle_refl.
  - split.
    + intros h r H. exists r. splits; try reflexivity; [exact H|].
      apply Qle_refl.
    + exists r0. split; assumption.
  - split.
    + intros h r H. exists r. rewrite lookup_snoc. unfold lookup in H.
      rewrite H. splits; try reflexivity. apply Qle_refl.
    + rewrite lookup_snoc. unfold lookup in F. rewrite F.
      cbn [new_row Smriti.new_row task_hash]. rewrite String.eqb_refl.
      eexists. split; [reflexivity|]. cbn. apply Qle_refl.
Qed.

(** X11.  A call to [store] repeated with the same arguments changes nothing:
    the database after the second call is the database after the first. *)
Theorem store_idempotent :
  forall (d : db) (a : store_args) (d' : db),
    store d a = Ok d' -> store d' a = Ok d'.
Proof.
  intros d a d' E.
  destruct (store_keeps d a d' E) as [_ [r' [F L]]].
  unfold Smriti.store, select_quality_score.
  fold (lookup d' (hash (a_task a))). rewrite F. cbn [option_map].
  apply gtb_le in L. rewrite L. reflexivity.
Qed.

(** X12.  Over any sequence of [store] calls a row is never deleted and never
    downgraded: it keeps its id, fingerprint, task text and creation time,
    and its score does not decrease.  At the end every task that was
    submitted has a row whose score is at least each score submitted for
    it. *)
Theorem store_all_never_downgrades :
  forall (calls : list store_args) (d d' : db),
    store_all d calls = Ok d' ->
    (forall h r, lookup d h = Some r ->
       exists r', lookup d' h = Some r' /\ kept r r') /\
    (forall a, In a calls ->
       exists r', lookup d' (hash (a_task a)) = Some r' /\
                  a_quality_score a <= quality_score r').
Proof.
  induction calls as [|a rest IH]; intros d d' E.
  - injection E as <-. split; [|intros a []].
    intros h r H. exists r. splits; try reflexivity; [exact H|].
    apply Qle_refl.
  - cbn [Smriti.store_all] in E.
    destruct (store d a) as [d1|e] eqn:E1; [|discriminate].
    destruct (store_keeps d a d1 E1) as [K1 N1].
    destruct (IH d1 d' E) as [K2 N2]. split.
    + intros h r H. destruct (K1 h r H) as [r1 [H1 [A1 [A2 [A3 [A4 A5]]]]]].
      destruct (K2 h r1 H1) as [r2 [H2 [B1 [B2 [B3 [B4 B5]]]]]].
      exists r2. splits; try congruence.
      exact (Qle_trans _ _ _ A5 B5).
    + intros a' [<-|I]; [|exact (N2 a' I)].
      destruct N1 as [r1 [H1 L1]].
      destruct (K2 _ r1 H1) as [r2 [H2 [_ [_ [_ [_ B5]]]]]].
      exists r2. split; [exact H2 | exact (Qle_trans _ _ _ L1 B5)].
Qed.

End StoreFacts.

(** ** The code score in closed form *)

Section RubricFacts.

Import Evaluator Rubric.
Local Open Scope Q_scope.

Set Warnings "-inexact-float".

Ltac code_tests code :=
  unfold marks, pattern_hits, has_imports, has_structure, evaluate_code;
  cbv delta [code_patterns]; cbn [fold_left map snd total app];
  repeat match goal with
         | |- context [Re.search ?r code] =>
             generalize (Re.search r code); intro
         end;
  generalize (Re.search_bol import_pattern code); intro;
  generalize (Py.contains "def " code || Py.contains "function " code
              || Py.contains "class " code)%bool; intro.

Lemma evaluate_code_total (code task : string)
    (rag_chunks : option (list string)) :
  total (evaluate_code code task rag_chunks)
  == 0.5 + 0.03 * Py.of_nat (marks code)
     + (if has_structure code then 0.06 else 0).
Proof.
  code_tests code.
  repeat match goal with b : bool |- _ => destruct b end;
    vm_compute; reflexivity.
Qed.

(** X13.  The code score as the program computes it, on doubles: the
    total depends only on the number of tests passed and on the presence
    of a [def], [function] or [class]; [quality] stays below 1.0, so
    [min(1.0, _)] never changes it; [quality] is within 2^-52 of 0.5 plus
    0.1 per test passed, and the total within 2^-52 of
    0.5 + 0.03 * marks (+ 0.06 with code structure) and of the total in
    exact arithmetic. *)
Theorem evaluate_code_closed_form :
  forall (code task : string) (rag_chunks : option (list string)),
    let s := has_structure code in
    let m := marks code in
    let t64 :=
      Binary64.evaluate_code_total s (pattern_hits code) (has_imports code) in
    let q64 :=
      Binary64.evaluate_code_quality (pattern_hits code) (has_imports code) in
    t64 = Binary64.evaluate_code_total s
            [(1 <=? m)%nat; (2 <=? m)%nat; (3 <=? m)%nat; (4 <=? m)%nat]
            (5 <=? m)%nat /\
    PrimFloat.ltb q64 1.0%float = true /\
    Binary64.min 1.0%float q64 = q64 /\
    Qabs (Binary64.exact q64 - (0.5 + 0.1 * Py.of_nat m))
    <= Binary64.epsilon /\
    Qabs (Binary64.exact t64
          - (0.5 + 0.03 * Py.of_nat m + (if s then 0.06 else 0)))
    <= Binary64.epsilon /\
    Qabs (Binary64.exact t64 - total (evaluate_code code task rag_chunks))
    <= Binary64.epsilon.
Proof.
  intros code task rag_chunks. cbv zeta. code_tests code.
  repeat match goal with b : bool |- _ => destruct b end;
    (split; [|split; [|split; [|split; [|split]]]]);
    try (vm_compute; reflexivity);
    apply Qle_bool_iff; vm_compute; reflexivity.
Qed.

(** The double total of a solution with code structure and no test passed
    is not 0.56. *)
Example class_only_total :
  let code := "class A: pass" in
  let t64 :=
    Binary64.evaluate_code_total (has_structure code) (pattern_hits code)
      (has_imports code) in
  PrimFloat.eqb t64 0.56%float = false /\
  PrimFloat.eqb t64 0.5599999999999999%float = true /\
  total (evaluate_code code "" None) == 0.56.
Proof. vm_compute. repeat split; reflexivity. Qed.

(** X14.  The code score is above the floor 0.6 of persistence exactly when the
    solution has code structure and passes two tests, or passes four; it
    reaches the default [min_score] 0.7 of [retrieve_similar] exactly when
    it has code structure and passes all five.  The same comparisons on
    doubles give the same answers. *)
Theorem code_score_thresholds :
  forall (code task : string) (rag_chunks : option (list string)),
    let t := total (evaluate_code code task rag_chunks) in
    let t64 :=
      Binary64.evaluate_code_total (has_structure code) (pattern_hits code)
        (has_imports code) in
    (0.6 < t <->
     (has_structure code = true /\ (2 <= marks code)%nat)
     \/ (4 <= marks code)%nat) /\
    (0.7 <= t <-> has_structure code = true /\ marks code = 5%nat) /\
    PrimFloat.ltb 0.6%float t64 = Py.gtb t 0.6 /\
    PrimFloat.leb 0.7%float t64 = Qle_bool 0.7 t.
Proof.
  intros code task rag_chunks. code_tests code.
  repeat match goal with b : bool |- _ => destruct b end;
    cbv zeta; cbn [filter length];
    (split; [|split; [|split; vm_compute; reflexivity]]);
    rewrite ?Qlt_alt, ?Qle_alt;
    match goal with
    | |- context [?a ?= ?b] =>
        let v := eval vm_compute in (a ?= b) in change (a ?= b) with v
    end;
    (split; [intro H | intros H]);
    try discriminate H;
    try reflexivity;
    try (intro; discriminate);
    try (exfalso; apply H; reflexivity);
    try (left; split; [reflexivity | lia]);
    try (right; lia);
    try (split; [reflexivity | lia]);
    try (exfalso; destruct H as [[H1 H2]|H]; (discriminate || lia));
    try (exfalso; destruct H as [H1 H2]; (discriminate || lia)).
Qed.

Lemma prefix_app (n h t : string) :
  String.prefix n h = true -> String.prefix n (h ++ t) = true.
Proof.
  revert h. induction n as [|c n IH]; intros [|c' h]; cbn;
    try reflexivity; try discriminate.
  - intros _. destruct t; reflexivity.
  - destruct (ascii_dec c c'); [apply IH | discriminate].
Qed.

Lemma contains_app (n h t : string) :
  Py.contains n h = true -> Py.contains n (h ++ t) = true.
Proof.
  induction h as [|c h IH].
  - destruct n as [|c n]; cbn; [|discriminate]. intros _.
    destruct t; reflexivity.
  - cbn [Py.contains String.append]. intro H.
    apply orb_true_iff in H. apply orb_true_iff. destruct H as [H|H].
    + left. exact (prefix_app n (String c h) t H).
    + right. exact (IH H).
Qed.

Lemma match_prefix_app (s t : string) :
  forall r, Re.match_prefix r s = true -> Re.match_prefix r (s ++ t) = true.
Proof.
  induction s as [|c s IH]; intros r H.
  - cbn in H. rewrite orb_false_r in H.
    destruct t; cbn; rewrite H; reflexivity.
  - cbn [Re.match_prefix String.append] in *.
    apply orb_true_iff in H. apply orb_true_iff. destruct H as [H|H].
    + left. exact H.
    + right. exact (IH _ H).
Qed.

Lemma search_app (r : Re.regex) (s t : string) :
  Re.search r s = true -> Re.search r (s ++ t) = true.
Proof.
  induction s as [|c s IH]; intro H.
  - cbn in H. rewrite !orb_false_r in H.
    destruct t; cbn [String.append Re.search Re.match_prefix];
      rewrite H; reflexivity.
  - cbn [Re.search String.append] in *.
    apply orb_true_iff in H. apply orb_true_iff. destruct H as [H|H].
    + left. exact (match_prefix_app (String c s) t r H).
    + right. exact (IH H).
Qed.

Lemma search_bol_app (r : Re.regex) (s t : string) :
  Re.search_bol r s = true -> Re.search_bol r (s ++ t) = true.
Proof.
  unfold Re.search_bol. intro H.
  apply orb_true_iff in H. apply orb_true_iff. destruct H as [H|H].
  - left. exact (match_prefix_app s t r H).
  - right. induction s as [|c s IH]; [discriminate H|].
    cbn [Re.search_after_newline String.append] in *.
    apply orb_true_iff in H. apply orb_true_iff. destruct H as [H|H].
    + left. apply andb_true_iff in H. destruct H as [N H].
      rewrite N. exact (match_prefix_app s t r H).
    + right. exact (IH H).
Qed.

Lemma hits_le (l l' : list bool) :
  Forall2 (fun b b' : bool => b = true -> b' = true) l l' ->
  (length (filter (fun hit : bool => hit) l)
   <= length (filter (fun hit : bool => hit) l'))%nat.
Proof.
  induction 1 as [|b b' l l' H F IH]; [cbn; lia|].
  cbn [filter]. destruct b.
  - rewrite (H eq_refl). cbn. lia.
  - destruct b'; cbn; lia.
Qed.

Lemma marks_app (code extra : string) :
  (marks code <= marks (code ++ extra))%nat.
Proof.
  unfold marks. apply hits_le. apply Forall2_app.
  - unfold pattern_hits. induction code_patterns as [|e l IH]; cbn [map].
    + constructor.
    + constructor; [apply search_app | exact IH].
  - constructor; [|constructor]. unfold has_imports. apply search_bol_app.
Qed.

Lemma has_structure_app (code extra : string) :
  has_structure code = true -> has_structure (code ++ extra) = true.
Proof.
  unfold has_structure. intro H.
  repeat (apply orb_true_iff in H; destruct H as [H|H]);
    apply (contains_app _ _ extra) in H; rewrite H;
    rewrite ?orb_true_r; reflexivity.
Qed.

(** X15.  Text appended to a solution never lowers its code score: no test of
    [evaluate_code] can be made to fail by writing more after the
    solution. *)
Theorem evaluate_code_append_monotone :
  forall (code extra task task' : string)
         (rag_chunks rag_chunks' : option (list string)),
    total (evaluate_code code task rag_chunks)
    <= total (evaluate_code (code ++ extra) task' rag_chunks').
Proof.
  intros code extra task task' rag_chunks rag_chunks'.
  rewrite (evaluate_code_total code task rag_chunks).
  rewrite (evaluate_code_total (code ++ extra) task' rag_chunks').
  assert (M := marks_app code extra).
  assert (S := has_structure_app code extra).
  assert (Mq : Py.of_nat (marks code) <= Py.of_nat (marks (code ++ extra))).
  { unfold Py.of_nat. rewrite <- Zle_Qle. lia. }
  destruct (has_structure code).
  - rewrite (S eq_refl). lra.
  - destruct (has_structure (code ++ extra)); lra.
Qed.

End RubricFacts.

(** ** Document tasks without retrieved chunks *)

Section DocumentSessions.

Local Open Scope Q_scope.

Variable o : Orchestrator.
Variable b : Backend.
Variable rq : TaskRequest.

Lemma evaluate_without_chunks (solution task' : string)
    (chunks : option (list string)) :
  chunks = None \/ chunks = Some [] ->
  Evaluator.total (Evaluator.evaluate solution task' false chunks) = 0.5.
Proof. intros [->| ->]; reflexivity. Qed.

Lemma no_chunks_retrieved :
  use_rag rq = false \/ rag_retrieve b = Ok [] ->
  retrieved_chunks b rq = None \/ retrieved_chunks b rq = Some [].
Proof.
  unfold retrieved_chunks. intros [->| ->]; [left; reflexivity|].
  destruct (use_rag rq); [right | left]; reflexivity.
Qed.

Lemma best_of_constant_scores (h : list iteration_data) (c : Q) :
  (forall d, In d h -> score d = c) -> 0 <= c ->
  fst (best_after h) <= c.
Proof.
  intros A P. unfold best_after.
  destruct (best_from_cases h (0.0, None))
    as [[E _]|[k [d [N [E _]]]]]; rewrite E; cbn [fst].
  - lra.
  - rewrite (A d (nth_error_In _ _ N)). lra.
Qed.

(** X16.  A document task (not code) for which no chunk was retrieved is scored
    0.5 in every round by [Evaluator.evaluate], whatever the agents write.
    So neither mode ever stores its result, and with a positive
    [min_improvement] the aggregate loop stops after its second round. *)
Theorem document_session_without_chunks :
  evaluator o = Evaluator.evaluate ->
  is_code rq = false ->
  use_rag rq = false \/ rag_retrieve b = Ok [] ->
  (forall calls res,
     Aggregate.process o b rq = (calls, Ok res) ->
     calls = [] /\
     (forall d, In d (Aggregate.r_iterations res) -> score d = 0.5) /\
     (0 < min_improvement o ->
      (length (Aggregate.r_iterations res) <= 2)%nat)) /\
  Live.store_calls (Live.final o b rq) = [] /\
  (forall d, In d (Live.iterations (Live.final o b rq)) -> score d = 0.5).
Proof.
  intros Ev Doc NoChunks.
  assert (R := no_chunks_retrieved NoChunks).
  split; [|].
  - intros calls res E.
    destruct (process_structure o b rq calls res E)
      as [_ [_ [_ [B [_ [C [P [_ [St _]]]]]]]]]. cbv zeta in *.
    assert (Sc : forall d, In d (Aggregate.r_iterations res) -> score d = 0.5).
    { intros d I. apply In_nth_error in I. destruct I as [k N].
      destruct (C k d N) as [_ [_ [_ D]]]. rewrite D.
      unfold Aggregate.round_data. cbn [score]. rewrite Ev, Doc.
      apply evaluate_without_chunks. exact R. }
    splits.
    + rewrite St. apply store_request_cases.
      assert (L := best_of_constant_scores _ 0.5 Sc).
      rewrite <- B in L. cbn [fst] in L. lra.
    + exact Sc.
    + intro M. destruct (le_lt_dec (length (Aggregate.r_iterations res)) 2)
        as [L|L]; [exact L | exfalso].
      destruct (nth_error (Aggregate.r_iterations res) 0) as [d0|] eqn:N0;
        [|apply nth_error_None in N0; lia].
      destruct (nth_error (Aggregate.r_iterations res) 1) as [d1|] eqn:N1;
        [|apply nth_error_None in N1; lia].
      assert (F := P 1%nat d1 N1 L). unfold Aggregate.plateau in F.
      rewrite (previous_round _ 0 d0 N0) in F.
      rewrite (Sc d0 (nth_error_In _ _ N0)) in F.
      rewrite (Sc d1 (nth_error_In _ _ N1)) in F.
      cbn [Nat.ltb Nat.leb andb] in F. apply ltb_ge in F.
      assert (Z : 0.5 - 0.5 == 0) by reflexivity. rewrite Z in F. lra.
  - destruct (session_structure o b rq) as [tail [_ [C [B [_ SE]]]]].
    cbv zeta in *.
    assert (Sc : forall d, In d (Live.iterations (Live.final o b rq)) ->
                           score d = 0.5).
    { intros d I. apply In_nth_error in I. destruct I as [k N].
      destruct (history_index o b rq k d N) as [_ [_ [_ [_ S]]]].
      rewrite S, (retrieved_of_round o b rq k d N), Ev, Doc.
      apply evaluate_without_chunks. exact R. }
    split; [|exact Sc].
    assert (L := best_of_constant_scores _ 0.5 Sc).
    rewrite <- B in L. cbn [fst] in L.
    assert (Z : store_request (task rq) (is_code rq) (use_rag rq)
                  (Live.best_solution (Live.final o b rq))
                  (Live.best_score (Live.final o b rq))
                  (Live.iterations (Live.final o b rq)) = [])
      by (apply store_request_cases; lra).
    destruct SE as [e P D SC Bg | e part A Lk SC Bg | e plateau LE SC N X Bg
                   | plateau LE SC N Bg]; try assumption.
    + exfalso. apply N. rewrite SC. exact Z.
    + rewrite SC. exact Z.
Qed.

End DocumentSessions.

(** ** The further theorems at scripted sessions *)

Section MoreWitnesses.

Import Scripted.
Local Open Scope Q_scope.

(** With the scores 0.3, 0.5, 0.7 the aggregate loop runs its three rounds
    and no plateau stops it. *)
Lemma aggregate_stops_on_first_plateau_witness :
  exists calls res,
    Aggregate.process increasing backend request = (calls, Ok res) /\
    (length (Aggregate.r_iterations res) <= max_iterations increasing)%nat /\
    ((1 <= max_iterations increasing)%nat ->
     (1 <= length (Aggregate.r_iterations res))%nat).
Proof.
  assert (P : exists calls res,
             Aggregate.process increasing backend request = (calls, Ok res)).
  { eexists. eexists. vm_compute. reflexivity. }
  destruct P as [calls [res P]]. exists calls, res. split; [exact P|].
  destruct (aggregate_stops_on_first_plateau increasing backend request
              calls res P) as [A [B _]].
  split; [exact A | exact B].
Defined.

Lemma live_history_at_most_two_rounds_witness :
  0 < min_improvement increasing /\
  (length (Live.iterations (Live.final increasing backend request)) <= 2)%nat.
Proof.
  split; [reflexivity|].
  apply (live_history_at_most_two_rounds increasing backend request).
  reflexivity.
Defined.

Lemma live_round_records_witness :
  exists d,
    nth_error (Live.iterations (Live.final increasing backend request)) 1
    = Some d /\
    iteration d = 2%nat /\
    agni_score d = Some (score d).
Proof.
  assert (P : exists d,
             nth_error (Live.iterations
                          (Live.final increasing backend request)) 1
             = Some d).
  { eexists. vm_compute. reflexivity. }
  destruct P as [d P]. exists d. split; [exact P|].
  destruct (live_round_records increasing backend request 1 d P)
    as [A [_ [C _]]].
  split; [exact A | exact C].
Defined.

Lemma aggregate_round_records_witness :
  exists calls res d,
    Aggregate.process increasing backend request = (calls, Ok res) /\
    nth_error (Aggregate.r_iterations res) 2 = Some d /\
    iteration d = 3%nat /\
    agni_process backend 2 = Ok (agni_output d).
Proof.
  assert (P : exists calls res d,
             Aggregate.process increasing backend request = (calls, Ok res) /\
             nth_error (Aggregate.r_iterations res) 2 = Some d).
  { eexists. eexists. eexists. split; vm_compute; reflexivity. }
  destruct P as [calls [res [d [P N]]]]. exists calls, res, d.
  split; [exact P|]. split; [exact N|].
  destruct (aggregate_round_records increasing backend request
              calls res 2 d P N) as [A [_ [_ [D _]]]].
  split; [exact A | exact D].
Defined.

Lemma live_improved_text_delivered_witness :
  exists d,
    nth_error (Live.iterations (Live.final increasing backend request)) 0
    = Some d /\
    agni_output d <> "" /\
    In (Live.Ev_iteration_complete 1 d)
       (Live.events increasing backend request).
Proof.
  assert (P : exists d,
             nth_error (Live.iterations
                          (Live.final increasing backend request)) 0
             = Some d).
  { eexists. vm_compute. reflexivity. }
  destruct P as [d P]. exists d. split; [exact P|].
  destruct (live_improved_text_delivered increasing backend request 0 d P)
    as [A [_ [_ [_ [_ F]]]]].
  split; [exact A | exact F].
Defined.

(** The chunks ["dra"], [""], ["ft"] reach the consumer as the two tokens
    ["dra"] and ["ft"], which rebuild the draft. *)
Lemma streamed_tokens_rebuild_draft_witness :
  exists d,
    nth_error (Live.iterations (Live.final increasing backend request)) 0
    = Some d /\
    Consumer.tokens_of_round 1 (Live.events increasing backend request)
    = [("dra", 1%nat); ("ft", 2%nat)] /\
    Py.strip
      (Consumer.draft_of_round 1 (Live.events increasing backend request))
    = yantra_output d.
Proof.
  assert (P : exists d,
             nth_error (Live.iterations
                          (Live.final increasing backend request)) 0
             = Some d).
  { eexists. vm_compute. reflexivity. }
  destruct P as [d P]. exists d. split; [exact P|].
  split; [vm_compute; reflexivity|].
  exact (proj2 (proj2 (streamed_tokens_rebuild_draft
                         increasing backend request 0 d P))).
Defined.

(** A memory of three tasks. *)
Local Abbreviation row n h t s q :=
  {| Smriti.id := n; Smriti.task_hash := h; Smriti.m_task := t;
     Smriti.task_embedding := None; Smriti.solution := s;
     Smriti.quality_score := q; Smriti.created_at := 0%nat;
     Smriti.metadata := None |}.

Local Abbreviation sorting := (row 1%nat "h1" "sort a list" "sorted(l)" 0.9).
Local Abbreviation parsing := (row 2%nat "h2" "parse a json file" "json.load(f)" 0.8).
Local Abbreviation weak := (row 3%nat "h3" "sort a list of words" "l.sort()" 0.65).

Local Abbreviation stored :=
  {| Smriti.memories := [weak; parsing; sorting]; Smriti.sequence := 3%nat |}.

Lemma stored_fetched :
  Recall.fetched_similar stored 0.7 (3 * 2) [sorting; parsing].
Proof.
  exists [sorting; parsing]. split; [|split].
  - cbn. apply perm_swap.
  - repeat constructor. unfold Qle. cbn. lia.
  - reflexivity.
Qed.

Lemma retrieve_similar_sound_witness :
  Recall.fetched_similar stored 0.7 (3 * 2) [sorting; parsing] /\
  (length (Recall.retrieve_similar string (fun m => m) "{}" "Sort a LIST"
             3 [sorting; parsing]) <= 3)%nat.
Proof.
  split; [exact stored_fetched|].
  exact (proj1 (retrieve_similar_sound string (fun m => m) "{}" stored
                  "Sort a LIST" 3%nat 0.7 [sorting; parsing]
                  stored_fetched)).
Defined.

Example retrieve_similar_sample :
  map Recall.s_solution
    (Recall.retrieve_similar string (fun m => m) "{}" "Sort a LIST" 3
       [sorting; parsing])
  = ["sorted(l)"].
Proof. vm_compute. reflexivity. Qed.

Lemma get_best_examples_top_witness :
  Recall.fetched_best stored 2 [sorting; parsing] /\
  length (Recall.get_best_examples [sorting; parsing])
  = Nat.min 2 (length (Smriti.memories stored)).
Proof.
  assert (F : Recall.fetched_best stored 2 [sorting; parsing]).
  { exists [sorting; parsing; weak]. split; [|split].
    - cbn. apply Permutation_sym.
      apply (Permutation_cons_app [sorting; parsing] [] weak).
      apply perm_swap.
    - repeat constructor; unfold Qle; cbn; lia.
    - reflexivity. }
  split; [exact F|].
  exact (proj1 (get_best_examples_top stored 2%nat [sorting; parsing] F)).
Defined.

(** Calls to [store]: fingerprints are the tasks themselves. *)
Local Abbreviation call t s q :=
  {| Smriti.a_task := t; Smriti.a_solution := s; Smriti.a_quality_score := q;
     Smriti.a_task_embedding := None; Smriti.a_metadata := None;
     Smriti.a_now := 0%nat |}.

Local Abbreviation store' :=
  (Smriti.store (fun s => s) (fun _ => "[]") (fun _ => "{}")).
Local Abbreviation store_all' :=
  (Smriti.store_all (fun s => s) (fun _ => "[]") (fun _ => "{}")).

Lemma store_idempotent_witness :
  exists d',
    store' (Smriti._init_db None) (call "t" "s1" 0.7) = Ok d' /\
    store' d' (call "t" "s1" 0.7) = Ok d'.
Proof.
  assert (P : exists d',
             store' (Smriti._init_db None) (call "t" "s1" 0.7) = Ok d').
  { eexists. vm_compute. reflexivity. }
  destruct P as [d' P]. exists d'. split; [exact P|].
  exact (store_idempotent (fun s => s) (fun _ => "[]") (fun _ => "{}")
           _ _ d' P).
Defined.

Lemma store_all_never_downgrades_witness :
  exists d',
    store_all' (Smriti._init_db None)
      [call "t" "s1" 0.9; call "t" "s2" 0.7; call "u" "s3" 0.8] = Ok d' /\
    forall a,
      In a [call "t" "s1" 0.9; call "t" "s2" 0.7; call "u" "s3" 0.8] ->
      exists r',
        Smriti.lookup d' (Smriti.a_task a) = Some r' /\
        Smriti.a_quality_score a <= Smriti.quality_score r'.
Proof.
  assert (P : exists d',
             store_all' (Smriti._init_db None)
               [call "t" "s1" 0.9; call "t" "s2" 0.7; call "u" "s3" 0.8]
             = Ok d').
  { eexists. vm_compute. reflexivity. }
  destruct P as [d' P]. exists d'. split; [exact P|].
  exact (proj2 (store_all_never_downgrades
                  (fun s => s) (fun _ => "[]") (fun _ => "{}") _ _ d' P)).
Defined.

(** A task stored with score 0.7 and stored again with score 0.9 and
    metadata: one row, holding the second solution, score and metadata. *)
Lemma store_one_record_per_fingerprint_witness :
  exists d d' r',
    store_all' (Smriti._init_db None) [call "t" "s1" 0.7] = Ok d /\
    store' d {| Smriti.a_task := "t"; Smriti.a_solution := "s2";
                Smriti.a_quality_score := 0.9;
                Smriti.a_task_embedding := None;
                Smriti.a_metadata := Some [("iterations", "2")];
                Smriti.a_now := 5%nat |} = Ok d' /\
    length (Smriti.memories d') = 1%nat /\
    Smriti.lookup d' "t" = Some r' /\
    Smriti.solution r' = "s2" /\
    Smriti.quality_score r' = 0.9 /\
    Smriti.metadata r' = Some "{}" /\
    Smriti.created_at r' = 0%nat.
Proof.
  destruct (store_one_record_per_fingerprint
              (fun s => s) (fun _ => "[]") (fun _ => "{}")
              [call "t" "s1" 0.7]
              {| Smriti.a_task := "t"; Smriti.a_solution := "s2";
                 Smriti.a_quality_score := 0.9;
                 Smriti.a_task_embedding := None;
                 Smriti.a_metadata := Some [("iterations", "2")];
                 Smriti.a_now := 5%nat |})
    as [d [d' [E [E' [_ [_ M]]]]]].
  assert (D : d = {| Smriti.memories :=
                       [Smriti.new_row (fun _ => "[]") (fun _ => "{}")
                          (Smriti._init_db None) (call "t" "s1" 0.7) "t"];
                     Smriti.sequence := 1 |}).
  { vm_compute in E. injection E as <-. reflexivity. }
  rewrite D in M. cbv zeta in M. cbn in M.
  destruct M as [r' [L [So [Qu [_ [Me [_ [_ [_ [Cr [_ Le]]]]]]]]]]].
  exists d, d', r'.
  split; [exact E|]. split; [exact E'|].
  split; [exact Le|].
  split; [exact L|]. split; [exact So|]. split; [exact Qu|].
  split; [exact Me|]. exact Cr.
Defined.

(** A summary asked without retrieval. *)
Local Abbreviation summary :=
  {| task := "summarise the report"; context := None; use_rag := false;
     is_code := false |}.

Lemma document_session_without_chunks_witness :
  evaluator default_orchestrator = Evaluator.evaluate /\
  is_code summary = false /\
  (use_rag summary = false \/ rag_retrieve backend = Ok []) /\
  Live.store_calls (Live.final default_orchestrator backend summary) = [].
Proof.
  split; [reflexivity|]. split; [reflexivity|].
  split; [left; reflexivity|].
  exact (proj1 (proj2 (document_session_without_chunks
                         default_orchestrator backend summary
                         eq_refl eq_refl (or_introl eq_refl)))).
Defined.

End MoreWitnesses.

(** ** The metrics of the analytics tracker *)

Section AnalyticsFacts.

Import Analytics.
Local Open Scope Q_scope.

Lemma truthy_true (x : Q) : truthy x = true <-> ~ x == 0.
Proof.
  unfold truthy. rewrite negb_true_iff. split.
  - intros H E. apply Qeq_bool_iff in E. congruence.
  - intro H. destruct (Qeq_bool x 0) eqn:E; [|reflexivity].
    apply Qeq_bool_iff in E. contradiction.
Qed.

Lemma truthy_positive (x : Q) : 0 < x -> truthy x = true.
Proof. intro H. apply truthy_true. intro E. rewrite E in H. lra. Qed.

Lemma max_cases (a b : Q) :
  (a < b /\ max a b = b) \/ (b <= a /\ max a b = a).
Proof.
  unfold max. destruct (Py.gtb b a) eqn:E.
  - left. split; [apply gtb_gt; exact E | reflexivity].
  - right. split; [apply gtb_le; exact E | reflexivity].
Qed.

Lemma Qdiv_pos (a b : Q) : 0 < a -> 0 < b -> 0 < a / b.
Proof.
  intros A B. unfold Qdiv. apply Qmult_lt_0_compat; [exact A|].
  apply Qinv_lt_0_compat. exact B.
Qed.

Lemma Qdiv_nonpos (a b : Q) : a <= 0 -> 0 < b -> a / b <= 0.
Proof.
  intros A B. unfold Qdiv.
  assert (I : 0 < / b) by (apply Qinv_lt_0_compat; exact B).
  assert (H : 0 <= (- a) * / b)
    by (apply Qmult_le_0_compat; [lra | apply Qlt_le_weak; exact I]).
  assert (E : (- a) * / b == - (a * / b)) by ring. rewrite E in H. lra.
Qed.

(** X17.  The improvement rate [record_task] writes is positive exactly when the
    improvement is; a gain from an initial score of at most 0.01 is
    reported between 10 and 500 percent; and with an initial score of 0 or
    less anything but a gain is reported as 0.0, so the last [min(200.0,
    ...)] of the source is never evaluated. *)
Theorem improvement_percent_sign :
  forall (final_score : Q) (first_iter : iteration_data)
         (rest : list iteration_data),
    let m := task_metrics final_score (first_iter :: rest) in
    m_improvement m = final_score_actual m - initial_score m /\
    (0 < m_improvement m <-> 0 < improvement_percent m) /\
    (initial_score m <= 0.01 -> 0 < m_improvement m ->
     10 <= improvement_percent m <= 500) /\
    (initial_score m <= 0 -> m_improvement m <= 0 ->
     improvement_percent m = 0.0).
Proof.
  intros final_score first_iter rest. cbv zeta. unfold task_metrics.
  set (y := get_or (yantra_score first_iter) (score first_iter)).
  set (a0 := get_or (agni_score first_iter) (score first_iter)).
  set (a := if negb (truthy a0) || Qeq_bool a0 y then final_score else a0).
  cbn [initial_score final_score_actual m_improvement improvement_percent].
  split; [reflexivity|].
  destruct (Py.gtb y 0.01) eqn:G1.
  { apply gtb_gt in G1. assert (Yp : 0 < y) by lra. splits.
    - split; intro H.
      + assert (D := Qdiv_pos _ _ H Yp).
        set (q := (a - y) / y) in *. lra.
      + destruct (Qlt_le_dec 0 (a - y)) as [P|N]; [exact P|exfalso].
        assert (D := Qdiv_nonpos _ _ N Yp).
        set (q := (a - y) / y) in *. lra.
    - intros I _. lra.
    - intros I _. lra. }
  apply gtb_le in G1.
  assert (L1 : Qle_bool y 0.01 = true) by (apply Qle_bool_iff; exact G1).
  rewrite L1. cbn [andb].
  destruct (Py.gtb a y) eqn:G2.
  { apply gtb_gt in G2.
    set (q := (a - y) / 0.1 * 100).
    assert (B : 10 <= Py.min 500.0 (max 10.0 q) <= 500).
    { destruct (max_cases 10.0 q) as [[M ->]|[M ->]];
        match goal with
        | |- context [Py.min ?u ?v] =>
            destruct (min_cases u v) as [[N ->]|[N ->]]
        end; lra. }
    splits.
    - split; intro H; lra.
    - intros _ _. exact B.
    - intros _ N. lra. }
  apply gtb_le in G2.
  destruct (Py.gtb y 0) eqn:G3.
  { apply gtb_gt in G3. splits.
    - split; intro H; [lra|]. exfalso.
      assert (N : a - y <= 0) by lra.
      destruct (max_cases 0.01 y) as [[M E]|[M E]]; rewrite E in H.
      + assert (D := Qdiv_nonpos _ _ N G3).
        set (q := (a - y) / y) in *. lra.
      + assert (Cp : 0 < 0.01) by reflexivity.
        assert (D := Qdiv_nonpos _ _ N Cp).
        set (q := (a - y) / 0.01) in *. lra.
    - intros _ P. lra.
    - intros I _. lra. }
  apply gtb_le in G3.
  assert (G4 : Py.gtb (a - y) 0 = false) by (apply gtb_le; lra).
  rewrite G4. splits.
  - split; intro H; [lra|]. exfalso. discriminate H.
  - intros _ P. lra.
  - intros _ _. reflexivity.
Qed.

End AnalyticsFacts.

Section AnalyticsOfSessions.

Import Analytics.
Local Open Scope Q_scope.

Variable o : Orchestrator.
Variable b : Backend.
Variable rq : TaskRequest.

Hypothesis scores_positive :
  forall s t c r, 0 < Evaluator.total (evaluator o s t c r).

Lemma get_or_positive (x : Q) (default : Q) :
  0 < x -> get_or (Some x) default = x.
Proof. intro H. unfold get_or. rewrite (truthy_positive x H). reflexivity. Qed.

(** X18.  The record [process_task] submits for an aggregate session measures
    the whole session: the initial score is the score of round 1, the
    final score is the best score of the session, and the improvement is
    never negative. *)
Theorem aggregate_analytics_measure_session :
  forall calls submitted res,
    Api.process_task o b rq = (calls, submitted, Api.Http200 res) ->
    exists a,
      submitted = [a] /\
      Live.an_task a = task rq /\
      Live.an_final_score a = Aggregate.final_score res /\
      Live.an_iterations a = Aggregate.r_iterations res /\
      forall d0 rest,
        Aggregate.r_iterations res = d0 :: rest ->
        let m := task_metrics (Live.an_final_score a) (Live.an_iterations a) in
        initial_score m = score d0 /\
        final_score_actual m = Aggregate.final_score res /\
        0 <= m_improvement m /\
        (0.01 < score d0 ->
         improvement_percent m = m_improvement m / score d0 * 100).
Proof.
  intros calls submitted res. unfold Api.process_task.
  destruct (Aggregate.process o b rq) as [calls' [res'|e]] eqn:P;
    [|discriminate].
  intro E. injection E as <- <- <-.
  eexists. split; [reflexivity|]. cbn [Live.an_task Live.an_final_score
                                       Live.an_iterations].
  splits; try reflexivity.
  intros d0 rest H.
  destruct (process_structure o b rq calls' res' P)
    as [_ [_ [_ [B [_ [C _]]]]]]. cbv zeta in B, C.
  assert (N : nth_error (Aggregate.r_iterations res') 0 = Some d0)
    by (rewrite H; reflexivity).
  destruct (C 0%nat d0 N) as [_ [_ [_ D]]].
  assert (Sp : 0 < score d0).
  { rewrite D. unfold Aggregate.round_data. cbn [score].
    apply scores_positive. }
  assert (Y : yantra_score d0 = None) by (rewrite D; reflexivity).
  assert (A : agni_score d0 = None) by (rewrite D; reflexivity).
  assert (M : score d0 <= Aggregate.final_score res').
  { assert (R : running_maximum (Aggregate.r_iterations res')
                  (best_after (Aggregate.r_iterations res'))).
    { apply best_after_maximum.
      - rewrite H. discriminate.
      - intros d I. apply In_nth_error in I. destruct I as [k Nk].
        destruct (C k d Nk) as [_ [_ [_ Dk]]]. rewrite Dk.
        unfold Aggregate.round_data. cbn [score]. apply scores_positive. }
    destruct R as [R _]. rewrite <- B in R. cbn [fst] in R.
    apply R. rewrite H. left. reflexivity. }
  rewrite H. cbv zeta. unfold task_metrics. rewrite Y, A.
  cbn [get_or initial_score final_score_actual m_improvement
       improvement_percent].
  rewrite (truthy_positive _ Sp). cbn [negb orb].
  assert (Q : Qeq_bool (score d0) (score d0) = true)
    by (apply Qeq_bool_iff; reflexivity).
  rewrite Q. splits; try reflexivity.
  - lra.
  - intro G. apply gtb_gt in G. rewrite G. reflexivity.
Qed.

(** X19.  The record a live session submits measures its first round only: the
    initial score is the score of the first draft; the final score is the
    score of the first improved text, whatever later rounds reach, and the
    best score of the session only when the first round gained or lost
    nothing. *)
Theorem live_analytics_measure_first_round :
  forall a,
    In a (Live.background (Live.final o b rq)) ->
    a = Live.analytics_request rq (Live.final o b rq) /\
    forall d0 rest,
      Live.iterations (Live.final o b rq) = d0 :: rest ->
      let m := task_metrics (Live.an_final_score a) (Live.an_iterations a) in
      yantra_score d0 = Some (initial_score m) /\
      (score d0 == initial_score m ->
       final_score_actual m = Live.best_score (Live.final o b rq)) /\
      (~ score d0 == initial_score m ->
       final_score_actual m = score d0 /\ m_improvement m = improvement d0).
Proof.
  intros a I.
  destruct (session_structure o b rq) as [tail [_ [C [_ [_ SE]]]]].
  cbv zeta in C.
  assert (A : a = Live.analytics_request rq (Live.final o b rq)).
  { destruct SE as [e P D SC Bg | e part Ab Lk SC Bg | e plateau LE SC N X Bg
                   | plateau LE SC N Bg]; rewrite Bg in I;
      try (destruct I; fail).
    destruct I as [<-|[]]. reflexivity. }
  split; [exact A|]. intros d0 rest H. subst a.
  cbn [Live.analytics_request Live.an_final_score Live.an_iterations].
  assert (N : nth_error (Live.iterations (Live.final o b rq)) 0 = Some d0)
    by (rewrite H; reflexivity).
  destruct (C 0%nat d0 N) as [_ [_ D]].
  set (y := Evaluator.total
              (evaluator o (Py.strip (Live.streamed_text b 0)) (task rq)
                 (is_code rq) (Live.retrieved b rq))).
  set (s := Evaluator.total
              (evaluator o (Live.improved_text b 0) (task rq)
                 (is_code rq) (Live.retrieved b rq))).
  assert (Yp : 0 < y) by apply scores_positive.
  assert (Sp : 0 < s) by apply scores_positive.
  assert (Y : yantra_score d0 = Some y) by (rewrite D; reflexivity).
  assert (G : agni_score d0 = Some s) by (rewrite D; reflexivity).
  assert (S : score d0 = s) by (rewrite D; reflexivity).
  assert (Im : improvement d0 = s - y) by (rewrite D; reflexivity).
  rewrite H. cbv zeta. unfold task_metrics. rewrite Y, G.
  rewrite (get_or_positive y _ Yp), (get_or_positive s _ Sp).
  rewrite (truthy_positive _ Sp). cbn [negb orb].
  cbn [initial_score final_score_actual m_improvement improvement_percent].
  rewrite S, Im. split; [reflexivity|].
  destruct (Qeq_bool s y) eqn:E.
  - cbn [final_score_actual m_improvement]. split.
    + intros _. reflexivity.
    + intro NE. exfalso. apply NE. apply Qeq_bool_iff. exact E.
  - cbn [final_score_actual m_improvement]. split.
    + intro Q. apply Qeq_bool_iff in Q. congruence.
    + intros _. split; reflexivity.
Qed.

End AnalyticsOfSessions.

(** ** The housekeeping of the analytics tracker *)

Section HousekeepingFacts.

Import Housekeeping.

Variable Redis : Type.
Variable zrevrange : Redis -> string -> Z -> Z -> outcome (list string).
Variable delete : Redis -> string -> outcome Redis.
Variable zrem : Redis -> string -> string -> outcome Redis.
Variable smembers : Redis -> string -> outcome (list string).

(** ZREVRANGE key 0 stop answers with at most [stop + 1] members. *)
Hypothesis zrevrange_range :
  forall r key stop members,
    (0 <= stop)%Z ->
    zrevrange r key 0 stop = Ok members ->
    (length members <= Z.to_nat stop + 1)%nat.

(** X20.  [_cleanup_old_tasks] never deletes anything when [keep_count >= 1]: it
    asks for the [keep_count] newest ids and deletes only if it got more
    than [keep_count] of them.  The default call at the end of
    [record_task] leaves every stored task in place. *)
Theorem cleanup_never_deletes :
  forall (connected : bool) (r : Redis) (keep_count : nat),
    (1 <= keep_count)%nat ->
    _cleanup_old_tasks Redis zrevrange delete zrem smembers
      connected r keep_count = r.
Proof.
  intros connected r keep_count K. unfold _cleanup_old_tasks.
  destruct connected; [|reflexivity]. cbn [negb].
  assert (L : (length (_get_task_ids Redis zrevrange true r
                         (Z.of_nat keep_count)) <= keep_count)%nat).
  { unfold _get_task_ids. cbn [negb].
    destruct (zrevrange r "analytics:task_ids" 0 (Z.of_nat keep_count - 1))
      as [ids|e] eqn:E; [|cbn; lia].
    assert (S : (0 <= Z.of_nat keep_count - 1)%Z) by lia.
    assert (B := zrevrange_range r _ _ ids S E). lia. }
  apply Nat.ltb_ge in L. rewrite L. reflexivity.
Qed.

End HousekeepingFacts.

(** ** The reader of the streamed response *)

Section ReaderFacts.

Import OllamaStream.

Variable loads : string -> option json.
Variable message : error_kind -> json -> string.
Variable decode : string -> string.

(** UTF-8 decodes ASCII bytes to themselves. *)
Hypothesis decode_ascii : forall s, is_ascii s = true -> decode s = s.

Local Abbreviation final_content := (OllamaStream.final_content loads message).
Local Abbreviation handle_line := (OllamaStream.handle_line loads message).
Local Abbreviation process_lines := (OllamaStream.process_lines loads message).
Local Abbreviation after_return := (OllamaStream.after_return loads message).
Local Abbreviation read_chunks :=
  (OllamaStream.read_chunks loads message decode).
Local Abbreviation ascii_chunks := (Forall (fun c => is_ascii c = true)).
Local Abbreviation message_content :=
  (OllamaStream.message_content message).
Local Abbreviation finish := (OllamaStream.finish loads message).

(** *** Blank buffers *)

Lemma strip_empty_lstrip (s : string) : Py.strip s = "" -> Py.lstrip s = "".
Proof.
  unfold Py.strip. intro H.
  assert (L := lstrip_lstripped s).
  destruct (Py.lstrip s) as [|c r]; [reflexivity|].
  cbn in L. cbn [Py.rstrip] in H. rewrite L in H.
  destruct (Py.rstrip r); discriminate H.
Qed.

Lemma lstrip_empty_strip (s : string) : Py.lstrip s = "" -> Py.strip s = "".
Proof. unfold Py.strip. intros ->. reflexivity. Qed.

Lemma lstrip_empty_prefix (a b : string) :
  Py.lstrip (a ++ b) = "" -> Py.lstrip a = "".
Proof.
  induction a as [|c a IH]; [reflexivity|].
  cbn [String.append Py.lstrip].
  destruct (Py.isspace c); [exact IH | discriminate].
Qed.

Lemma blank_prefix (a b : string) : Py.strip (a ++ b) = "" -> Py.strip a = "".
Proof.
  intro H. apply lstrip_empty_strip.
  apply (lstrip_empty_prefix a b). apply strip_empty_lstrip. exact H.
Qed.

Lemma final_content_blank (buffer : string) :
  Py.strip buffer = "" -> final_content buffer = [].
Proof. intro H. unfold OllamaStream.final_content. rewrite H. reflexivity. Qed.

(** *** One line *)

(** What [handle_line] does depends on the rest of the buffer only through
    the final flush of a [done] line. *)
Lemma handle_line_cases (line : string) :
  (exists ys, forall rest, handle_line line rest = Continue ys) \/
  (exists ys e, forall rest, handle_line line rest = Escape ys e) \/
  (exists ys, forall rest, handle_line line rest = Return ys) \/
  (exists ys, forall rest,
      handle_line line rest = Return (ys ++ final_content rest)).
Proof.
  unfold OllamaStream.handle_line.
  destruct (negb (Py.truthy (Py.strip line))).
  { left. exists []. reflexivity. }
  match goal with |- context [Py.truthy ?j] => destruct (Py.truthy j) end.
  2:{ left. exists []. reflexivity. }
  match goal with |- context [loads ?j] => destruct (loads j) as [data|] end.
  2:{ left. exists []. reflexivity. }
  destruct (py_in message "error" data) as [[|]|e].
  - destruct (py_get message data "error" (JString "Unknown error"))
      as [v|e].
    + right. right. left. exists []. reflexivity.
    + right. left. exists [], e. reflexivity.
  - destruct (message_content data) as [ys|e].
    + destruct (py_get message data "done" (JBool false)) as [d|e].
      * destruct (truthy d).
        -- right. right. right. exists ys. reflexivity.
        -- left. exists ys. reflexivity.
      * right. left. exists ys, e. reflexivity.
    + right. left. exists [], e. reflexivity.
  - right. left. exists [], e. reflexivity.
Qed.

(** *** Lines across chunk boundaries *)

Lemma string_of_list_app (l1 l2 : list ascii) :
  string_of_list_ascii (l1 ++ l2)
  = (string_of_list_ascii l1 ++ string_of_list_ascii l2)%string.
Proof.
  induction l1 as [|c l1 IH]; [reflexivity|]. cbn. rewrite IH. reflexivity.
Qed.

Lemma append_assoc (a b c : string) :
  ((a ++ b) ++ c = a ++ (b ++ c))%string.
Proof.
  induction a as [|x a IH]; [reflexivity|]. cbn. rewrite IH. reflexivity.
Qed.

Lemma append_empty_r (a : string) : (a ++ "")%string = a.
Proof.
  induction a as [|x a IH]; [reflexivity|]. cbn. rewrite IH. reflexivity.
Qed.

(** Reading a buffer that starts with the kept characters is reading on
    from them. *)
Lemma process_lines_kept (l : list ascii) :
  forall (cur : list ascii) (s : string),
    no_newline l ->
    process_lines cur (string_of_list_ascii l ++ s)
    = process_lines (rev l ++ cur) s.
Proof.
  induction l as [|c l IH]; intros cur s N; [reflexivity|].
  cbn [string_of_list_ascii String.append OllamaStream.process_lines].
  rewrite (N c (or_introl eq_refl)).
  rewrite IH by (intros x I; apply N; right; exact I).
  cbn [rev]. rewrite <- app_assoc. reflexivity.
Qed.

Lemma after_return_kept (l : list ascii) :
  forall (cur : list ascii) (s : string),
    no_newline l ->
    after_return cur (string_of_list_ascii l ++ s)
    = after_return (rev l ++ cur) s.
Proof.
  induction l as [|c l IH]; intros cur s N; [reflexivity|].
  cbn [string_of_list_ascii String.append OllamaStream.after_return].
  rewrite (N c (or_introl eq_refl)).
  rewrite IH by (intros x I; apply N; right; exact I).
  cbn [rev]. rewrite <- app_assoc. reflexivity.
Qed.

(** How the reading of [s1 ++ s2] follows from the reading of [s1]. *)
Lemma process_lines_app (s1 : string) :
  forall (cur : list ascii) (s2 : string),
    no_newline cur ->
    match process_lines cur s1 with
    | (ys, Buffered b') =>
        exists cur',
          no_newline cur' /\
          b' = string_of_list_ascii (rev cur') /\
          process_lines cur (s1 ++ s2)
          = (let (zs, st) := process_lines cur' s2 in (ys ++ zs, st)) /\
          after_return cur (s1 ++ s2) = after_return cur' s2
    | (ys, Escaped e) =>
        process_lines cur (s1 ++ s2) = (ys, Escaped e) /\
        after_return cur (s1 ++ s2) = None
    | (ys, Returned) =>
        exists r,
          after_return cur (s1 ++ s2) = Some (r ++ s2)%string /\
          (Py.strip (r ++ s2) = "" ->
           process_lines cur (s1 ++ s2) = (ys, Returned))
    end.
Proof.
  induction s1 as [|c s1 IH]; intros cur s2 N.
  - cbn [OllamaStream.process_lines String.append].
    exists cur. splits; try reflexivity; [exact N|].
    destruct (process_lines cur s2); reflexivity.
  - cbn [OllamaStream.process_lines OllamaStream.after_return String.append].
    destruct (Ascii.eqb c Py.nl) eqn:E.
    + destruct (handle_line_cases (string_of_list_ascii (rev cur)))
        as [[ys H]|[[ys [e H]]|[[ys H]|[ys H]]]];
        rewrite (H s1), (H (s1 ++ s2)%string).
      * assert (N0 : no_newline []) by (intros x []).
        specialize (IH [] s2 N0).
        destruct (process_lines [] s1) as [zs [b'| |e]].
        -- destruct IH as [cur' [N' [B [P A]]]]. exists cur'.
           splits; try assumption. rewrite P.
           destruct (process_lines cur' s2) as [ws st].
           rewrite app_assoc. reflexivity.
        -- destruct IH as [r [A P]]. exists r. split; [exact A|].
           intro Bk. rewrite (P Bk). reflexivity.
        -- destruct IH as [P A]. rewrite P. split; [reflexivity | exact A].
      * split; reflexivity.
      * exists s1. split; [reflexivity|]. intros _. reflexivity.
      * exists s1. split; [reflexivity|]. intro Bk.
        rewrite (final_content_blank _ Bk).
        rewrite (final_content_blank _ (blank_prefix _ _ Bk)). reflexivity.
    + apply IH. intros x [<-|I]; [exact E | exact (N x I)].
Qed.

Lemma finish_app (ys zs : list json) (st : status) (broken' : option string) :
  finish (ys ++ zs, st) broken'
  = (let (a, r) := finish (zs, st) broken' in (ys ++ a, r)).
Proof.
  destruct st as [b| |e]; cbn [OllamaStream.finish]; [destruct broken'|..];
    rewrite ?app_assoc; reflexivity.
Qed.

Lemma list_ascii_of_string_no_newline (cur : list ascii) :
  no_newline cur -> no_newline (rev cur).
Proof. intros N c I. apply N. apply in_rev. exact I. Qed.

Lemma is_ascii_app (a b : string) :
  is_ascii a = true -> is_ascii b = true -> is_ascii (a ++ b) = true.
Proof.
  induction a as [|c a IH]; intros A B; [exact B|].
  cbn [String.append is_ascii] in *. apply andb_true_iff in A.
  destruct A as [C A]. rewrite C, (IH A B). reflexivity.
Qed.

Lemma is_ascii_concat (cs : list string) :
  ascii_chunks cs -> is_ascii (String.concat "" cs) = true.
Proof.
  induction 1 as [|c cs C F IH]; [reflexivity|].
  destruct cs as [|c2 cs]; [exact C|].
  change (String.concat "" (c :: c2 :: cs))
    with (c ++ "" ++ String.concat "" (c2 :: cs))%string.
  apply is_ascii_app; [exact C | exact IH].
Qed.

Lemma read_chunks_finish (cs : list string) (broken' : option string) :
  forall cur,
    ascii_chunks cs ->
    no_newline cur ->
    (forall rest,
       after_return cur (String.concat "" cs) = Some rest ->
       Py.strip rest = "") ->
    read_chunks cs broken' (string_of_list_ascii (rev cur))
    = finish (process_lines cur (String.concat "" cs)) broken'.
Proof.
  induction cs as [|chunk rest IH]; intros cur AC N Q.
  - cbn [OllamaStream.read_chunks String.concat OllamaStream.process_lines
         OllamaStream.finish].
    destruct broken'; reflexivity.
  - assert (T : String.concat "" (chunk :: rest)
                = (chunk ++ String.concat "" rest)%string).
    { destruct rest as [|c2 rest]; [cbn; symmetry; apply append_empty_r|].
      reflexivity. }
    rewrite T in *. cbn [OllamaStream.read_chunks].
    inversion AC as [|c' cs' Ac AR]; subst c' cs'.
    destruct chunk as [|c0 chunk0]; [exact (IH cur AR N Q)|].
    cbn [Py.truthy negb]. rewrite (decode_ascii _ Ac).
    rewrite (process_lines_kept (rev cur) [] _
               (list_ascii_of_string_no_newline cur N)).
    rewrite rev_involutive, app_nil_r.
    assert (A := process_lines_app (String c0 chunk0) cur
                   (String.concat "" rest) N).
    destruct (process_lines cur (String c0 chunk0)) as [ys [b'| |e]].
    + destruct A as [cur' [N' [-> [P A]]]]. rewrite P.
      rewrite A in Q. rewrite (IH cur' AR N' Q).
      destruct (process_lines cur' (String.concat "" rest)) as [zs st].
      rewrite finish_app. reflexivity.
    + destruct A as [r [A P]]. rewrite (P (Q _ A)). reflexivity.
    + destruct A as [P _]. rewrite P. reflexivity.
Qed.

(** X21.  For a body of ASCII bytes, the tokens and the outcome of
    [_call_ollama_stream] do not depend on how the transport cuts the body
    into chunks, as long as nothing but whitespace follows the line on
    which the generator returns: cut in any way, the body gives what it
    gives in one piece.  (Each chunk is decoded on its own, so a body with
    multi-byte characters can lose the ones a cut falls into.) *)
Theorem stream_independent_of_chunking :
  forall (cs : list string) (broken' : option string),
    Forall (fun c => is_ascii c = true) cs ->
    (forall rest,
       after_return [] (String.concat "" cs) = Some rest ->
       Py.strip rest = "") ->
    _call_ollama_stream loads message decode
      {| chunks := cs; broken := broken' |}
    = _call_ollama_stream loads message decode
        {| chunks := [String.concat "" cs]; broken := broken' |}.
Proof.
  intros cs broken' AC Q. unfold _call_ollama_stream. cbn [chunks broken].
  assert (N0 : no_newline []) by (intros x []).
  assert (E1 := read_chunks_finish cs broken' [] AC N0 Q).
  assert (Q1 : forall rest,
             after_return [] (String.concat "" [String.concat "" cs])
             = Some rest -> Py.strip rest = "") by exact Q.
  assert (AC1 : ascii_chunks [String.concat "" cs])
    by (constructor; [apply is_ascii_concat; exact AC | constructor]).
  assert (E2 := read_chunks_finish [String.concat "" cs] broken' []
                  AC1 N0 Q1).
  cbn [rev string_of_list_ascii] in E1, E2.
  rewrite E1, E2. reflexivity.
Qed.

(** *** Tokens are never empty *)

Local Abbreviation all_truthy := (Forall (fun t : json => truthy t = true)).

Lemma final_content_truthy (buffer : string) :
  all_truthy (final_content buffer).
Proof.
  unfold OllamaStream.final_content.
  destruct (Py.truthy (Py.strip buffer)); [|constructor].
  destruct (loads (Py.strip buffer)) as [d|]; [|constructor].
  destruct (py_in message "message" d) as [[|]|e]; try constructor.
  destruct (py_getitem message d "message") as [m|e]; [|constructor].
  destruct (py_in message "content" m) as [[|]|e]; try constructor.
  destruct (py_getitem message m "content") as [c|e]; [|constructor].
  destruct (truthy c) eqn:T; constructor; [exact T | constructor].
Qed.

Lemma message_content_truthy (data : json) (ys : list json) :
  message_content data = Ok ys -> all_truthy ys.
Proof.
  unfold OllamaStream.message_content.
  destruct (py_in message "message" data) as [[|]|e]; try discriminate.
  - destruct (py_getitem message data "message") as [m|e]; [|discriminate].
    destruct (is_dict m).
    + destruct (py_get message m "content" (JString "")) as [c|e];
        [|discriminate].
      intro H. injection H as <-.
      destruct (truthy c) eqn:T; constructor; [exact T | constructor].
    + intro H. injection H as <-. constructor.
  - intro H. injection H as <-. constructor.
Qed.

Lemma handle_line_truthy (line rest : string) :
  match handle_line line rest with
  | Continue ys | Return ys | Escape ys _ => all_truthy ys
  end.
Proof.
  unfold OllamaStream.handle_line.
  destruct (negb (Py.truthy (Py.strip line))); [constructor|].
  match goal with |- context [Py.truthy ?j] => destruct (Py.truthy j) end;
    [|constructor].
  match goal with |- context [loads ?j] => destruct (loads j) as [data|] end;
    [|constructor].
  destruct (py_in message "error" data) as [[|]|e]; [| |constructor].
  - destruct (py_get message data "error" (JString "Unknown error"));
      constructor.
  - destruct (message_content data) as [ys|e] eqn:M; [|constructor].
    assert (T := message_content_truthy data ys M).
    destruct (py_get message data "done" (JBool false)) as [d|e]; [|exact T].
    destruct (truthy d); [|exact T].
    apply Forall_app. split; [exact T | apply final_content_truthy].
Qed.

Lemma process_lines_truthy (s : string) :
  forall cur, all_truthy (fst (process_lines cur s)).
Proof.
  induction s as [|c s IH]; intro cur; [constructor|].
  cbn [OllamaStream.process_lines].
  destruct (Ascii.eqb c Py.nl); [|apply IH].
  assert (H := handle_line_truthy (string_of_list_ascii (rev cur)) s).
  destruct (handle_line (string_of_list_ascii (rev cur)) s) as [ys|ys|ys e];
    try exact H.
  specialize (IH []). destruct (process_lines [] s) as [zs st].
  cbn [fst] in *. apply Forall_app. split; assumption.
Qed.

Lemma read_chunks_truthy (cs : list string) (broken' : option string) :
  forall buffer, all_truthy (fst (read_chunks cs broken' buffer)).
Proof.
  induction cs as [|chunk rest IH]; intro buffer.
  - cbn [OllamaStream.read_chunks]. destruct broken'; [constructor|].
    apply final_content_truthy.
  - cbn [OllamaStream.read_chunks].
    destruct (negb (Py.truthy chunk)); [apply IH|].
    assert (H := process_lines_truthy (buffer ++ decode chunk) []).
    destruct (process_lines [] (buffer ++ decode chunk)) as [ys [b'| |e]];
      cbn [fst] in *; try exact H.
    specialize (IH b'). destruct (read_chunks rest broken' b') as [zs r].
    cbn [fst] in *. apply Forall_app. split; assumption.
Qed.

(** X22.  Whatever the server sends and however the transfer ends, no token
    [_call_ollama_stream] yields is empty: each one is a truthy value. *)
Theorem stream_tokens_never_empty :
  forall response : body,
    Forall (fun t : json => truthy t = true)
      (fst (_call_ollama_stream loads message decode response)).
Proof.
  intro response. unfold _call_ollama_stream.
  assert (H := read_chunks_truthy (chunks response) (broken response) "").
  destruct (read_chunks (chunks response) (broken response) "") as [ys e].
  exact H.
Qed.

(** *** The chat protocol *)

Lemma string_of_list_of_string (s : string) :
  string_of_list_ascii (list_ascii_of_string s) = s.
Proof. induction s as [|c s IH]; [reflexivity|]. cbn. rewrite IH. reflexivity. Qed.

Lemma handle_chat_line (line content : string) (done : bool) (rest : string) :
  chat_line loads line content done ->
  handle_line line rest
  = let ys := if Py.truthy content then [JString content] else [] in
    if done then Return (ys ++ final_content rest) else Continue ys.
Proof.
  intros [N [S [NE [P [members [m [L [E [M [C D]]]]]]]]]].
  unfold OllamaStream.handle_line. rewrite S.
  assert (T : Py.truthy line = true)
    by (destruct line; [contradiction NE; reflexivity | reflexivity]).
  rewrite T, P. cbn [negb]. rewrite T, L.
  unfold py_in at 1. rewrite E.
  unfold OllamaStream.message_content, py_in, py_getitem. rewrite M.
  cbn [is_dict]. unfold py_get. rewrite C, D. cbn [truthy].
  destruct done; reflexivity.
Qed.

Lemma process_chat_line (line : string) (rest : string) :
  no_newline (list_ascii_of_string line) ->
  process_lines [] (line ++ String Py.nl rest)
  = match handle_line line rest with
    | Continue yielded =>
        let (more, st) := process_lines [] rest in (yielded ++ more, st)
    | Return yielded => (yielded, Returned)
    | Escape yielded e => (yielded, Escaped e)
    end.
Proof.
  intro N. rewrite <- (string_of_list_of_string line) at 1.
  rewrite (process_lines_kept _ _ _ N). rewrite app_nil_r.
  cbn [OllamaStream.process_lines].
  assert (E : Ascii.eqb Py.nl Py.nl = true) by reflexivity. rewrite E.
  rewrite rev_involutive, string_of_list_of_string. reflexivity.
Qed.

Lemma after_return_chat_line (line : string) (rest : string) :
  no_newline (list_ascii_of_string line) ->
  after_return [] (line ++ String Py.nl rest)
  = match handle_line line rest with
    | Continue _ => after_return [] rest
    | Return _ => Some rest
    | Escape _ _ => None
    end.
Proof.
  intro N. rewrite <- (string_of_list_of_string line) at 1.
  rewrite (after_return_kept _ _ _ N). rewrite app_nil_r.
  cbn [OllamaStream.after_return].
  assert (E : Ascii.eqb Py.nl Py.nl = true) by reflexivity. rewrite E.
  rewrite rev_involutive, string_of_list_of_string. reflexivity.
Qed.

Lemma chat_body (lines contents : list string) (last_line last_content : string) :
  Forall2 (fun l c => chat_line loads l c false) lines contents ->
  chat_line loads last_line last_content true ->
  process_lines [] (ndjson (lines ++ [last_line]))
  = (map JString (filter Py.truthy (contents ++ [last_content])), Returned) /\
  after_return [] (ndjson (lines ++ [last_line])) = Some "".
Proof.
  intros F L. induction F as [|l c lines contents H F IH].
  - cbn [app ndjson filter map].
    assert (N : no_newline (list_ascii_of_string last_line)) by apply L.
    rewrite (process_chat_line _ _ N), (after_return_chat_line _ _ N).
    rewrite (handle_chat_line _ _ _ _ L). cbv zeta.
    split; [|reflexivity].
    destruct (Py.truthy last_content); reflexivity.
  - cbn [app ndjson].
    assert (N : no_newline (list_ascii_of_string l)) by apply H.
    rewrite (process_chat_line _ _ N), (after_return_chat_line _ _ N).
    rewrite (handle_chat_line _ _ _ _ H). cbv zeta.
    destruct IH as [P A]. rewrite P. split; [|exact A].
    cbn [filter]. destruct (Py.truthy c); reflexivity.
Qed.

(** X23.  A body of ASCII bytes that follows the chat protocol (one JSON
    object per line, the last one with [done] set) gives exactly the
    non-empty pieces of the answer, in order, and no exception, however
    the transport cuts it into chunks and even if the transfer breaks
    after the last line.  This is what [BaseAgent._call_ollama_stream]
    gives for the reply made of these pieces. *)
Theorem chat_protocol_tokens :
  forall (lines contents : list string) (last_line last_content : string)
         (cs : list string) (broken' : option string),
    Forall2 (fun l c => chat_line loads l c false) lines contents ->
    chat_line loads last_line last_content true ->
    Forall (fun c => is_ascii c = true) cs ->
    String.concat "" cs = ndjson (lines ++ [last_line]) ->
    let reply := {| BaseAgent.chunks := contents ++ [last_content];
                    BaseAgent.failure := None |} in
    _call_ollama_stream loads message decode
      {| chunks := cs; broken := broken' |}
    = (map JString (fst (BaseAgent._call_ollama_stream reply)),
       snd (BaseAgent._call_ollama_stream reply)).
Proof.
  intros lines contents last_line last_content cs broken' F L AC T reply.
  destruct (chat_body lines contents last_line last_content F L) as [P A].
  assert (N0 : no_newline []) by (intros x []).
  assert (Q : forall rest,
             after_return [] (String.concat "" cs) = Some rest ->
             Py.strip rest = "").
  { intros rest H. rewrite T, A in H. injection H as <-. reflexivity. }
  unfold _call_ollama_stream. cbn [chunks broken].
  assert (E := read_chunks_finish cs broken' [] AC N0 Q).
  cbn [rev string_of_list_ascii] in E. rewrite E, T, P.
  reflexivity.
Qed.

End ReaderFacts.

(** ** The token budget of a request *)

Section InferenceFacts.

Import Inference.
Local Open Scope Q_scope.

(** X24.  The streaming endpoint never asks for 384 tokens, the figure its
    comment gives for code in fast mode: in fast mode it asks for 512 for
    code and documents alike, otherwise for 640 (code) or 1024.  So it
    never asks for fewer tokens than the agents' own [process] does, for
    the same number only for code in normal mode, and changes no other
    option. *)
Theorem live_token_budget :
  forall (o : Orchestrator) (rq : TaskRequest),
    let live := live_options o rq in
    let aggregate := aggregate_options o in
    num_predict live
    = (if fast_mode o then 512 else if is_code rq then 640 else 1024)%nat /\
    num_predict live <> 384%nat /\
    (num_predict aggregate <= num_predict live)%nat /\
    (num_predict aggregate = num_predict live <->
     fast_mode o = false /\ is_code rq = true) /\
    temperature live = temperature aggregate /\
    top_p live = top_p aggregate /\
    top_k live = top_k aggregate /\
    repeat_penalty live = repeat_penalty aggregate /\
    num_ctx live = num_ctx aggregate.
Proof.
  intros o rq. cbv zeta.
  unfold live_options, aggregate_options, request_options, inference_options,
    Live.token_limit.
  destruct (fast_mode o), (is_code rq);
    cbn [negb num_predict temperature top_p top_k repeat_penalty num_ctx];
    splits; try reflexivity; try discriminate; try lia;
    split; try discriminate; try (intros [H1 H2]; discriminate);
    try reflexivity; try (intros _; split; reflexivity).
Qed.

End InferenceFacts.

(** ** Word overlap *)

Section WordSets.

Local Open Scope Q_scope.

Lemma set_add_length (w : string) (s : set string) :
  (length s <= length (set_add string_dec w s))%nat.
Proof.
  induction s as [|x s IH]; cbn; [lia|].
  destruct (string_dec w x); cbn; lia.
Qed.

Lemma set_union_length (a b : set string) :
  (length a <= length (set_union string_dec a b))%nat.
Proof.
  induction b as [|x b IH]; cbn; [lia|].
  assert (H := set_add_length x (set_union string_dec a b)). lia.
Qed.

Lemma set_union_pos (a b : set string) :
  a <> [] -> (0 < length (set_union string_dec a b))%nat.
Proof.
  intro NE. assert (L := set_union_length a b).
  destruct a; [contradiction NE; reflexivity | cbn [length] in L; lia].
Qed.

Lemma set_inter_length (a b : set string) :
  (length (set_inter string_dec a b) <= length a)%nat.
Proof.
  induction a as [|x a IH]; cbn; [lia|].
  destruct (set_mem string_dec x b); cbn; lia.
Qed.

Lemma set_add_present (w : string) (s : set string) :
  In w s -> set_add string_dec w s = s.
Proof.
  induction s as [|x s IH]; [intros []|]. cbn.
  destruct (string_dec w x) as [E|NE]; [reflexivity|].
  intros [H|H]; [congruence|]. rewrite (IH H). reflexivity.
Qed.

Lemma set_union_subset (a b : set string) :
  (forall w, In w b -> In w a) -> set_union string_dec a b = a.
Proof.
  induction b as [|x b IH]; intro S; [reflexivity|]. cbn.
  rewrite IH by (intros w I; apply S; right; exact I).
  apply set_add_present. apply S. left. reflexivity.
Qed.

Lemma set_inter_subset (a b : set string) :
  (forall w, In w a -> In w b) -> set_inter string_dec a b = a.
Proof.
  induction a as [|x a IH]; intro S; [reflexivity|]. cbn.
  assert (M : set_mem string_dec x b = true)
    by (apply set_mem_correct2; apply S; left; reflexivity).
  rewrite M, IH by (intros w I; apply S; right; exact I). reflexivity.
Qed.

Lemma fold_set_add_length (l : list string) :
  forall acc : set string,
    (length acc
     <= length (fold_left (fun a w => set_add string_dec w a) l acc))%nat.
Proof.
  induction l as [|w l IH]; intro acc; cbn; [lia|].
  specialize (IH (set_add string_dec w acc)).
  assert (H := set_add_length w acc). lia.
Qed.

Lemma set_of_nonempty (l : list string) : l <> [] -> Py.set_of l <> [].
Proof.
  destruct l as [|w l]; [intro H; contradiction H; reflexivity|].
  intros _ E. unfold Py.set_of in E. cbn [fold_left] in E.
  assert (H := fold_set_add_length l (set_add string_dec w (empty_set string))).
  rewrite E in H. unfold empty_set in H. cbn [set_add length] in H. lia.
Qed.

Lemma of_nat_pos (n : nat) : (0 < n)%nat -> 0 < Py.of_nat n.
Proof.
  intro H. unfold Py.of_nat. replace 0 with (inject_Z 0) by reflexivity.
  rewrite <- Zlt_Qlt. lia.
Qed.

Lemma of_nat_le (n m : nat) : (n <= m)%nat -> Py.of_nat n <= Py.of_nat m.
Proof. intro H. unfold Py.of_nat. rewrite <- Zle_Qle. lia. Qed.

End WordSets.

Section Grounding.

Import Evaluator.
Local Open Scope Q_scope.

(** X25.  A document answer with at least one word scores above the floor 0.6
    of persistence only if its words overlap the words of the retrieved
    chunks: the Jaccard ratio of the two word sets is above 0.16.  An
    answer that shares no word with the chunks is never stored, whatever
    its citations and layout. *)
Theorem rag_answer_above_floor_overlaps :
  forall (answer : string) (chunks : list string),
    chunks <> [] ->
    Py.split (Py.lower answer) <> [] ->
    0.6 < total (evaluate_rag_answer answer (Some chunks)) ->
    let answer_words := Py.set_of (Py.split (Py.lower answer)) in
    let chunk_words :=
      Py.set_of (Py.split (Py.lower (String.concat " " chunks))) in
    0.16 * Py.of_nat (length (set_union string_dec answer_words chunk_words))
    < Py.of_nat (length (set_inter string_dec answer_words chunk_words)).
Proof.
  intros answer chunks NE W. unfold evaluate_rag_answer.
  destruct chunks as [|c cs]; [contradiction NE; reflexivity|].
  cbv beta zeta.
  set (aw := Py.set_of (Py.split (Py.lower answer))).
  set (cw := Py.set_of (Py.split (Py.lower (String.concat " " (c :: cs))))).
  assert (U : (0 < length (set_union string_dec aw cw))%nat).
  { apply set_union_pos. apply set_of_nonempty. exact W. }
  set (overlap := length (set_inter string_dec aw cw)) in *.
  set (total_unique := length (set_union string_dec aw cw)) in *.
  assert (Up := of_nat_pos total_unique U).
  assert (T : (0 <? total_unique)%nat = true) by (apply Nat.ltb_lt; exact U).
  rewrite T.
  assert (D : Py.of_nat overlap / Py.of_nat total_unique * Py.of_nat total_unique
              == Py.of_nat overlap).
  { field. intro Z. rewrite Z in Up. exact (Qlt_irrefl _ Up). }
  set (j := Py.of_nat overlap / Py.of_nat total_unique) in *.
  clearbody j.
  cbn [total].
  generalize (Re.search citation_pattern (Py.lower answer))
             (3 <? Py.len_split_on Py.nl answer)%nat
             (Re.search markdown_pattern answer).
  intros b2 b3 b4.
  assert (M1 : Py.min 1.0 0.5 = 0.5) by reflexivity.
  rewrite M1. intro Above.
  assert (J : 0.16 < j).
  { revert Above.
    destruct (min_cases 1.0 (j * 2)) as [[Hm Em]|[Hm Em]]; rewrite Em;
      destruct b2, b3, b4;
      repeat match goal with
             | |- context [Py.min ?a ?b] =>
                 let E := fresh "E" in
                 destruct (min_cases a b) as [[? E]|[? E]]; rewrite E
             end;
      intro Above; lra. }
  nra.
Qed.

End Grounding.

Section ExactMatch.

Import Smriti Recall.
Local Open Scope Q_scope.

Variable Json : Type.
Variable loads : string -> Json.
Variable empty_dict : Json.

Lemma jaccard_le_1 (a b : set string) : jaccard a b <= 1.
Proof.
  unfold jaccard.
  destruct (0 <? length (set_union string_dec a b))%nat eqn:U; [|lra].
  apply Nat.ltb_lt in U.
  assert (Up := of_nat_pos _ U).
  assert (L : (length (set_inter string_dec a b)
               <= length (set_union string_dec a b))%nat).
  { assert (H1 := set_inter_length a b). assert (H2 := set_union_length a b).
    lia. }
  apply of_nat_le in L.
  apply Qle_shift_div_r; [exact Up | lra].
Qed.

Lemma jaccard_same (a b : set string) :
  a <> [] -> (forall w, In w a <-> In w b) -> jaccard a b == 1.
Proof.
  intros NE S. unfold jaccard.
  rewrite (set_union_subset a b) by (intros w I; apply S; exact I).
  rewrite (set_inter_subset a b) by (intros w I; apply S; exact I).
  assert (U : (0 < length a)%nat)
    by (destruct a; [contradiction NE; reflexivity | cbn; lia]).
  assert (T : (0 <? length a)%nat = true) by (apply Nat.ltb_lt; exact U).
  rewrite T. assert (Up := of_nat_pos _ U).
  field. intro Z. rewrite Z in Up. exact (Qlt_irrefl _ Up).
Qed.

Lemma similarity_le_1 (task : string) (results : list memory)
    (x : similar_task Json) :
  In x (similar_of Json loads empty_dict task results) -> similarity x <= 1.
Proof.
  intro I. destruct (similar_of_in Json loads empty_dict _ _ _ I)
    as [r [_ [_ [_ [_ [E _]]]]]].
  rewrite E. apply jaccard_le_1.
Qed.

(** X26.  A stored task asked again comes back first: when a fetched row has the
    same words as the asked task (whatever their case, order and spacing)
    and [limit >= 1], the first entry [retrieve_similar] returns has
    similarity 1, the greatest there is. *)
Theorem retrieve_similar_exact_match_first :
  forall (task : string) (limit : nat) (results : list memory) (r : memory),
    In r results ->
    words task <> [] ->
    (forall w, In w (words task) <-> In w (words (m_task r))) ->
    (1 <= limit)%nat ->
    exists first rest,
      retrieve_similar Json loads empty_dict task limit results
      = first :: rest /\
      similarity first == 1 /\
      forall x, In x rest -> similarity x <= similarity first.
Proof.
  intros task limit results r I NE S L.
  assert (J := jaccard_same _ _ NE S).
  set (entry :=
         {| s_task := m_task r;
            s_solution := solution r;
            s_quality_score := quality_score r;
            similarity := jaccard (words task) (words (m_task r));
            s_metadata := match metadata r with
                          | Some m => if Py.truthy m then loads m
                                      else empty_dict
                          | None => empty_dict
                          end |}).
  assert (Ie : In entry (similar_of Json loads empty_dict task results)).
  { unfold similar_of. apply in_flat_map. exists r. split; [exact I|].
    cbv zeta.
    assert (G : Py.gtb (jaccard (words task) (words (m_task r))) 0.2 = true)
      by (apply gtb_gt; rewrite J; reflexivity).
    rewrite G. left. reflexivity. }
  assert (Is : In entry
                 (sort_reverse (similar_of Json loads empty_dict task results)))
    by (apply sort_reverse_in; exact Ie).
  assert (Sd := sort_reverse_sorted Json
                  (similar_of Json loads empty_dict task results)).
  assert (B : forall x,
             In x (sort_reverse
                     (similar_of Json loads empty_dict task results)) ->
             similarity x <= 1).
  { intros x Hx. apply (similarity_le_1 task results).
    apply (proj1 (sort_reverse_in Json x _)). exact Hx. }
  unfold retrieve_similar.
  destruct (sort_reverse (similar_of Json loads empty_dict task results))
    as [|first sorted]; [destruct Is|].
  destruct limit as [|limit]; [lia|]. cbn [firstn].
  exists first, (firstn limit sorted).
  inversion Sd as [|f l Sd' F]; subst. rewrite Forall_forall in F.
  assert (F1 : similarity first == 1).
  { assert (U := B first (or_introl eq_refl)).
    destruct Is as [Eq|Is]; [rewrite Eq; exact J|].
    assert (G := F entry Is). apply ge_key_spec in G.
    assert (Ee : similarity entry == 1) by exact J.
    destruct G as [G|[G _]]; lra. }
  splits; [reflexivity | exact F1 |].
  intros x Hx. apply firstn_in in Hx. rewrite F1.
  apply B. right. exact Hx.
Qed.

End ExactMatch.

(** ** The theorems on the tracker, the reader and the word sets at
    scripted inputs *)

Section FurtherWitnesses.

Import Scripted.
Local Open Scope Q_scope.

Lemma aggregate_analytics_measure_session_witness :
  exists calls submitted res a,
    Api.process_task increasing backend request
    = (calls, submitted, Api.Http200 res) /\
    submitted = [a] /\
    Live.an_final_score a = Aggregate.final_score res.
Proof.
  assert (P : exists calls submitted res,
             Api.process_task increasing backend request
             = (calls, submitted, Api.Http200 res)).
  { eexists. eexists. eexists. vm_compute. reflexivity. }
  destruct P as [calls [submitted [res P]]].
  destruct (aggregate_analytics_measure_session increasing backend request
              increasing_positive calls submitted res P)
    as [a [S [_ [F _]]]].
  exists calls, submitted, res, a.
  split; [exact P|]. split; [exact S | exact F].
Defined.

Lemma live_analytics_measure_first_round_witness :
  exists a,
    In a (Live.background (Live.final increasing backend request)) /\
    a = Live.analytics_request request (Live.final increasing backend request).
Proof.
  assert (P : exists a,
             In a (Live.background (Live.final increasing backend request))).
  { eexists. vm_compute. left. reflexivity. }
  destruct P as [a P]. exists a. split; [exact P|].
  exact (proj1 (live_analytics_measure_first_round increasing backend request
                  increasing_positive a P)).
Defined.

(** The analytics of the live session with post-scores 0.3 and 0.5 (drafts
    score 0.1): the initial score is 0.1 and the final score 0.3, the
    score of round 1, although the session reached 0.5. *)
Example live_analytics_sample :
  let s := Live.final increasing backend request in
  let m := Analytics.task_metrics (Live.best_score s) (Live.iterations s) in
  Live.best_score s == 0.5 /\
  Analytics.initial_score m == 0.1 /\
  Analytics.final_score_actual m == 0.3.
Proof. vm_compute. repeat split; reflexivity. Qed.

Import OllamaStream.

Lemma cut_body_ends_with_done :
  forall rest,
    after_return ScriptedStream.loads ScriptedStream.message []
      (String.concat "" ScriptedStream.cut_body) = Some rest ->
    Py.strip rest = "".
Proof. intros rest H. vm_compute in H. injection H as <-. reflexivity. Qed.

Lemma decode_ascii_bytes :
  forall s, is_ascii s = true -> ScriptedStream.decode s = s.
Proof.
  induction s as [|c s IH]; [reflexivity|]. cbn [is_ascii].
  intro H. apply andb_true_iff in H. destruct H as [C A].
  cbn [ScriptedStream.decode]. rewrite C, (IH A). reflexivity.
Qed.

Lemma cut_body_ascii :
  Forall (fun c => is_ascii c = true) ScriptedStream.cut_body.
Proof. repeat constructor. Qed.

Lemma stream_independent_of_chunking_witness :
  _call_ollama_stream ScriptedStream.loads ScriptedStream.message
    ScriptedStream.decode
    {| chunks := ScriptedStream.cut_body; broken := None |}
  = _call_ollama_stream ScriptedStream.loads ScriptedStream.message
      ScriptedStream.decode
      {| chunks := [String.concat "" ScriptedStream.cut_body];
         broken := None |}.
Proof.
  exact (stream_independent_of_chunking ScriptedStream.loads
           ScriptedStream.message ScriptedStream.decode decode_ascii_bytes
           ScriptedStream.cut_body None
           cut_body_ascii cut_body_ends_with_done).
Defined.

(** After the line with [done], what follows in the same chunk is still
    read, what comes in a later chunk is not. *)
Example chunking_matters_after_done :
  fst (_call_ollama_stream ScriptedStream.loads ScriptedStream.message
         ScriptedStream.decode
         {| chunks := [("{done}" ++ String Py.nl "{hel}")%string];
            broken := None |})
  = [JString "Hel"] /\
  fst (_call_ollama_stream ScriptedStream.loads ScriptedStream.message
         ScriptedStream.decode
         {| chunks := [("{done}" ++ String Py.nl "")%string; "{hel}"];
            broken := None |})
  = [].
Proof. split; vm_compute; reflexivity. Qed.

Ltac chat_line_holds :=
  unfold chat_line; splits;
  [ intros c I; cbn in I;
    repeat (destruct I as [<-|I]; [reflexivity|]); destruct I
  | reflexivity
  | discriminate
  | reflexivity
  | eexists; eexists; splits; reflexivity ].

Lemma chat_protocol_tokens_witness :
  String.concat "" ScriptedStream.cut_body
  = ndjson (["{hel}"; "{empty}"; "{lo}"] ++ ["{done}"]) /\
  _call_ollama_stream ScriptedStream.loads ScriptedStream.message
    ScriptedStream.decode
    {| chunks := ScriptedStream.cut_body; broken := Some "connection reset" |}
  = ([JString "Hel"; JString "lo"], None).
Proof.
  assert (T : String.concat "" ScriptedStream.cut_body
              = ndjson (["{hel}"; "{empty}"; "{lo}"] ++ ["{done}"]))
    by reflexivity.
  split; [exact T|].
  assert (F : Forall2
                (fun l c => chat_line ScriptedStream.loads l c false)
                ["{hel}"; "{empty}"; "{lo}"] ["Hel"; ""; "lo"]).
  { constructor; [chat_line_holds|].
    constructor; [chat_line_holds|].
    constructor; [chat_line_holds|]. constructor. }
  assert (L : chat_line ScriptedStream.loads "{done}" "" true)
    by chat_line_holds.
  exact (chat_protocol_tokens ScriptedStream.loads ScriptedStream.message
           ScriptedStream.decode decode_ascii_bytes
           ["{hel}"; "{empty}"; "{lo}"] ["Hel"; ""; "lo"] "{done}" ""
           ScriptedStream.cut_body (Some "connection reset") F L
           cut_body_ascii T).
Defined.

Lemma rag_answer_above_floor_overlaps_witness :
  0.6 < Evaluator.total
          (Evaluator.evaluate_rag_answer "the cat sat on the mat"
             (Some ["The cat sat"; "on the mat"])) /\
  0.16 * Py.of_nat 5 < Py.of_nat 5.
Proof.
  assert (A : 0.6 < Evaluator.total
                      (Evaluator.evaluate_rag_answer "the cat sat on the mat"
                         (Some ["The cat sat"; "on the mat"])))
    by (vm_compute; reflexivity).
  split; [exact A|].
  assert (C : ["The cat sat"; "on the mat"] <> []) by discriminate.
  assert (W : Py.split (Py.lower "the cat sat on the mat") <> [])
    by (vm_compute; discriminate).
  exact (rag_answer_above_floor_overlaps "the cat sat on the mat"
           ["The cat sat"; "on the mat"] C W A).
Defined.

Local Abbreviation row n h t s q :=
  {| Smriti.id := n; Smriti.task_hash := h; Smriti.m_task := t;
     Smriti.task_embedding := None; Smriti.solution := s;
     Smriti.quality_score := q; Smriti.created_at := 0%nat;
     Smriti.metadata := None |}.

Local Abbreviation sorting := (row 1%nat "h1" "sort a list" "sorted(l)" 0.9).
Local Abbreviation parsing :=
  (row 2%nat "h2" "parse a json list" "json.load(f)" 0.95).

Lemma retrieve_similar_exact_match_first_witness :
  exists first rest,
    Recall.retrieve_similar string (fun m => m) "{}" "Sort  a LIST" 3
      [parsing; sorting]
    = first :: rest /\
    Recall.similarity first == 1.
Proof.
  assert (I : In sorting [parsing; sorting]) by (right; left; reflexivity).
  assert (E : Recall.words "Sort  a LIST" = Recall.words "sort a list")
    by (vm_compute; reflexivity).
  assert (NE : Recall.words "Sort  a LIST" <> [])
    by (vm_compute; discriminate).
  assert (S : forall w, In w (Recall.words "Sort  a LIST")
                        <-> In w (Recall.words (Smriti.m_task sorting))).
  { intro w. cbn [Smriti.m_task]. rewrite E. tauto. }
  assert (L : (1 <= 3)%nat) by (apply Nat.leb_le; reflexivity).
  destruct (retrieve_similar_exact_match_first string (fun m => m) "{}"
              "Sort  a LIST" 3%nat [parsing; sorting] sorting I NE S L)
    as [first [rest [R [F _]]]].
  exists first, rest. split; [exact R | exact F].
Defined.

End FurtherWitnesses.

Section HousekeepingWitness.

Import Housekeeping.

Lemma ids_zrevrange_range :
  forall (r : list string) key stop members,
    (0 <= stop)%Z ->
    ids_zrevrange r key 0 stop = Ok members ->
    (length members <= Z.to_nat stop + 1)%nat.
Proof.
  intros r key stop members S E. unfold ids_zrevrange in E.
  assert (N : (stop <? 0)%Z = false) by (apply Z.ltb_ge; exact S).
  rewrite N in E. injection E as <-. cbn [Z.to_nat skipn].
  rewrite length_firstn. lia.
Qed.

(** With 150 task ids stored and [keep_count = 100], all 150 stay. *)
Lemma cleanup_never_deletes_witness :
  (1 <= 100)%nat /\
  length
    (_cleanup_old_tasks (list string) ids_zrevrange ids_delete ids_zrem
       ids_smembers true
       (map (fun n => String (ascii_of_nat n) "") (seq 0 150)) 100)
  = 150%nat.
Proof.
  assert (K : (1 <= 100)%nat) by (apply Nat.leb_le; reflexivity).
  split; [exact K|].
  rewrite (cleanup_never_deletes (list string) ids_zrevrange ids_delete
             ids_zrem ids_smembers ids_zrevrange_range true
             (map (fun n => String (ascii_of_nat n) "") (seq 0 150)) 100 K).
  rewrite length_map, length_seq. reflexivity.
Defined.

End HousekeepingWitness.

(** ** The two streaming endpoints *)

Section Endpoints.

Import Live.

Variable o : Orchestrator.
Variable b : Backend.
Variable rq : TaskRequest.

(** X27.  [generate_process_events] never lets an exception escape: every
    failure inside it ends as its own [error] event.  So the handler of
    the wrapper [event_generator] of [/process-stream] never runs, and the
    legacy endpoint [/process/stream], which streams the generator without
    the wrapper, sends the same events. *)
Theorem streaming_endpoints_agree :
  forall s0 : locals,
    snd (generate_process_events o b rq s0) = Ok tt /\
    event_generator o b rq s0 = generate_process_events o b rq s0.
Proof.
  intro s0. split.
  - rewrite generate_process_events_run. reflexivity.
  - rewrite event_generator_run, generate_process_events_run. reflexivity.
Qed.

End Endpoints.

(** ** The response model of [/process] *)

Section ResponseModel.

Local Open Scope Q_scope.

Variable o : Orchestrator.
Variable b : Backend.
Variable rq : TaskRequest.

(** With a scorer whose totals are positive and at least one round, the
    result the handler returns has a final solution and fits the response
    model. *)
Lemma response_model_accepts :
  (forall s t c r, 0 < Evaluator.total (evaluator o s t c r)) ->
  (1 <= max_iterations o)%nat ->
  Api.response_model (snd (Api.process_task o b rq))
  = snd (Api.process_task o b rq).
Proof.
  intros POS M. unfold Api.process_task.
  destruct (Aggregate.process o b rq) as [calls [res|e]] eqn:P;
    [|reflexivity].
  destruct (process_structure o b rq calls res P)
    as [_ [_ [_ [B [_ [C [_ [LP _]]]]]]]].
  cbv zeta in B, C, LP.
  assert (NE : Aggregate.r_iterations res <> []).
  { destruct LP as [LP|[d [N _]]].
    - intro Z. rewrite Z in LP. cbn in LP. lia.
    - intro Z. rewrite Z in N. discriminate. }
  assert (RM : running_maximum (Aggregate.r_iterations res)
                 (best_after (Aggregate.r_iterations res))).
  { apply best_after_maximum; [exact NE|].
    intros d I. apply In_nth_error in I. destruct I as [k N].
    destruct (C k d N) as [_ [_ [_ ->]]].
    cbn [score Aggregate.round_data]. apply POS. }
  destruct RM as [_ [k [d [_ [E _]]]]]. rewrite <- B in E.
  injection E as _ E2. cbn [snd Api.response_model]. rewrite E2. reflexivity.
Qed.

End ResponseModel.

(** Without a round there is no final solution: the handler returns the
    result, and the client gets the framework's [500]. *)
Example response_model_rejects_no_round :
  let o := {| evaluator := Evaluator.evaluate; max_iterations := 0;
              min_improvement := 0.05%Q; fast_mode := true |} in
  exists res,
    snd (Api.process_task o Scripted.backend Scripted.request)
    = Api.Http200 res /\
    Aggregate.final_solution res = None /\
    Api.response_model
      (snd (Api.process_task o Scripted.backend Scripted.request))
    = Api.Http500 "Internal Server Error".
Proof.
  cbv zeta. eexists. split; [vm_compute; reflexivity|].
  split; vm_compute; reflexivity.
Qed.
